(** * Verification of the W29C020C flash programmer firmware

    A shallow embedding of [flash_programmer.ino] (ATmega32A driving a
    W29C020C parallel flash that it shares with an external bus master),
    followed by the properties of its bus arbiter, byte transactor,
    page/erase sequencer and serial command adapter.

    Layout: machine integers, the I/O registers, the recorded events, a
    pin-level model of the flash chip, the board state and its monad, the
    firmware itself, and then the theorems. *)

From Stdlib Require Import ZArith List String Ascii Bool Lia.
From stdpp Require Import base tactics option list pretty.
Import ListNotations.
Local Open Scope Z_scope.

(** ** Machine integers *)

(** [byte] is [uint8_t]; [uint16_t] is the address type.  Both are carried
    as [Z] with the wrap-around of the C conversion written out. *)
Definition to_byte (z : Z) : Z := z mod 256.
Definition to_uint16 (z : Z) : Z := z mod 65536.

(** A character literal, as the integer the compiler sees. *)
Definition chr (c : ascii) : Z := Z.of_N (N_of_ascii c).

Definition is_byte (z : Z) : bool := (0 <=? z) && (z <? 256).
Definition is_uint16 (z : Z) : bool := (0 <=? z) && (z <? 65536).

(** ** Constants of the sketch *)

Definition PAGE_SIZE : Z := 128.

(** Bits in port D. *)
Definition FLASH_CE : Z := 4.    (* PD2 *)
Definition FLASH_OE : Z := 8.    (* PD3 *)
Definition FLASH_WE : Z := 16.   (* PD4 *)
Definition BUFFER_OE : Z := 32.  (* PD5 *)

(** ** I/O registers of the ATmega32A *)

Inductive reg : Type :=
| rDDRA | rDDRB | rDDRC | rDDRD
| rPORTA | rPORTB | rPORTC | rPORTD.

Record mcu : Type := mkMcu {
  DDRA : Z; DDRB : Z; DDRC : Z; DDRD : Z;
  PORTA : Z; PORTB : Z; PORTC : Z; PORTD : Z
}.

Definition get_reg (r : reg) (m : mcu) : Z :=
  match r with
  | rDDRA => DDRA m | rDDRB => DDRB m | rDDRC => DDRC m | rDDRD => DDRD m
  | rPORTA => PORTA m | rPORTB => PORTB m | rPORTC => PORTC m | rPORTD => PORTD m
  end.

Definition set_reg (r : reg) (v : Z) (m : mcu) : mcu :=
  match r with
  | rDDRA => mkMcu v (DDRB m) (DDRC m) (DDRD m) (PORTA m) (PORTB m) (PORTC m) (PORTD m)
  | rDDRB => mkMcu (DDRA m) v (DDRC m) (DDRD m) (PORTA m) (PORTB m) (PORTC m) (PORTD m)
  | rDDRC => mkMcu (DDRA m) (DDRB m) v (DDRD m) (PORTA m) (PORTB m) (PORTC m) (PORTD m)
  | rDDRD => mkMcu (DDRA m) (DDRB m) (DDRC m) v (PORTA m) (PORTB m) (PORTC m) (PORTD m)
  | rPORTA => mkMcu (DDRA m) (DDRB m) (DDRC m) (DDRD m) v (PORTB m) (PORTC m) (PORTD m)
  | rPORTB => mkMcu (DDRA m) (DDRB m) (DDRC m) (DDRD m) (PORTA m) v (PORTC m) (PORTD m)
  | rPORTC => mkMcu (DDRA m) (DDRB m) (DDRC m) (DDRD m) (PORTA m) (PORTB m) v (PORTD m)
  | rPORTD => mkMcu (DDRA m) (DDRB m) (DDRC m) (DDRD m) (PORTA m) (PORTB m) (PORTC m) v
  end.

(** All registers read zero after reset: every pin is a floating input. *)
Definition power_on : mcu := mkMcu 0 0 0 0 0 0 0 0.

(** ** Recorded events

    What a recorder attached to the board sees: the routine that is being
    entered, each store to an I/O register (as the C statement that made
    it), each sample of the data-bus pins, each requested delay, and the
    serial output. *)

Inductive routine : Type :=
| WriteByte (address data : Z)
| ReadByte (address : Z)
| WritePage (address : Z) (src : list Z)
| ChipErase
| CaptureOwnership
| ReleaseOwnership.

Inductive event : Type :=
| Call (f : routine)
| Assign (r : reg) (v : Z)           (* r = v;  *)
| OrAssign (r : reg) (mask : Z)      (* r |= mask; *)
| AndAssign (r : reg) (mask : Z)     (* r &= mask; *)
| Sample (v : Z)                     (* ... = PINC; *)
| DelayMicroseconds (us : Z)
| Delay (ms : Z)
| SerialBegin (baud : Z)
| SerialPrint (s : string)
| SerialPrintln (s : string).

(** Effect of one event on the registers.  Registers are eight bits wide. *)
Definition mcu_step (e : event) (m : mcu) : mcu :=
  match e with
  | Assign r v => set_reg r (to_byte v) m
  | OrAssign r mask => set_reg r (to_byte (Z.lor (get_reg r m) mask)) m
  | AndAssign r mask => set_reg r (to_byte (Z.land (get_reg r m) mask)) m
  | _ => m
  end.

(** Microseconds that pass during an event; register stores are taken to
    be instantaneous, so requested delays are lower bounds on real time. *)
Definition elapsed_us (e : event) : Z :=
  match e with
  | DelayMicroseconds us => us
  | Delay ms => 1000 * ms
  | _ => 0
  end.

(** ** Pins

    A port-D line is driven by the controller only when its direction bit
    is set; a line the controller does not drive is not asserted by it. *)

Definition bit_of (mask : Z) (x : Z) : bool := Z.testbit x (Z.log2 mask).

(** The masks of the eight lines of a port. *)
Definition line (mask : Z) : bool := Z.log2 mask <? 8.

Definition driven (mask : Z) (m : mcu) : bool := bit_of mask (DDRD m).

(** [asserted mask m]: the controller drives the (active-low) line low. *)
Definition asserted (mask : Z) (m : mcu) : bool :=
  driven mask m && negb (bit_of mask (PORTD m)).

(** Address and data buses as the controller presents them: a value only
    while every line of the bus is an output. *)
Definition address_bus (m : mcu) : option Z :=
  if (DDRA m =? 255) && (DDRB m =? 255)
  then Some (Z.lor (Z.shiftl (PORTB m) 8) (PORTA m))
  else None.

Definition data_bus (m : mcu) : option Z :=
  if DDRC m =? 255 then Some (PORTC m) else None.

(** Write cycle: CE and WE low with OE high.  Read cycle: CE and OE low
    with WE high. *)
Definition write_cycle (m : mcu) : bool :=
  asserted FLASH_CE m && asserted FLASH_WE m && negb (asserted FLASH_OE m).

Definition read_cycle (m : mcu) : bool :=
  asserted FLASH_CE m && asserted FLASH_OE m && negb (asserted FLASH_WE m).

(** ** The flash chip

    A pin-level model of the W29C020C that follows the command protocol
    documented at the head of the sketch: the address is latched on the
    falling edge of CE or WE, whichever occurs last (the start of a write
    cycle), the data when the cycle ends; a page write is the three-byte
    unlock sequence followed by byte loads no more than 200 us apart and a
    10 ms pause; a chip erase is the six-byte sequence followed by 50 ms.
    Writes outside a command sequence are ignored.  The cell array is
    byte-addressed by the sixteen address lines the board wires up. *)

Inductive flash_mode : Type :=
| Ready
| Unlock1                                  (* 0xAA at 0x5555 seen *)
| Unlock2                                  (* ... then 0x55 at 0x2AAA *)
| PageLoad (loaded : list (Z * Z)) (idle : Z)
| Erase0                                   (* ... then 0x80 at 0x5555 *)
| Erase1
| Erase2
| Erasing (idle : Z).

(** A bus cycle as the chip sees it; [None] stands for lines that the
    controller does not drive. *)
Inductive cycle : Type :=
| WriteCycle (a d : option Z)
| ReadCycle (a : option Z).

Record flash : Type := mkFlash {
  cells : Z -> Z;
  mode : flash_mode;
  latched : option Z;       (* address latched by the running write cycle *)
  cycles : list cycle       (* every cycle seen so far, oldest first *)
}.

Definition store (a d : Z) (mem : Z -> Z) : Z -> Z :=
  fun x => if x =? a then d else mem x.

Definition program (loaded : list (Z * Z)) (mem : Z -> Z) : Z -> Z :=
  fold_left (fun f ad => store (fst ad) (snd ad) f) loaded mem.

Definition erased : Z -> Z := fun _ => 255.

(** One completed write cycle, as the command decoder sees it. *)
Definition flash_command (a d : Z) (md : flash_mode) : flash_mode :=
  match md with
  | Ready => if (a =? 0x5555) && (d =? 0xAA) then Unlock1 else Ready
  | Unlock1 => if (a =? 0x2AAA) && (d =? 0x55) then Unlock2 else Ready
  | Unlock2 =>
      if (a =? 0x5555) && (d =? 0xA0) then PageLoad [] 0
      else if (a =? 0x5555) && (d =? 0x80) then Erase0
      else Ready
  | PageLoad loaded idle =>
      if idle <=? 200 then PageLoad (loaded ++ [(a, d)]) 0
      else PageLoad loaded idle
  | Erase0 => if (a =? 0x5555) && (d =? 0xAA) then Erase1 else Ready
  | Erase1 => if (a =? 0x2AAA) && (d =? 0x55) then Erase2 else Ready
  | Erase2 => if (a =? 0x5555) && (d =? 0x10) then Erasing 0 else Ready
  | Erasing idle => Erasing idle
  end.

(** The end of a write cycle.  A cycle whose address or data lines the
    controller does not drive carries no defined content and drops the
    pending command. *)
Definition flash_write (a d : option Z) (c : flash) : flash :=
  mkFlash (cells c)
          match a, d with
          | Some a, Some d => flash_command a d (mode c)
          | _, _ => Ready
          end
          None
          (cycles c ++ [WriteCycle a d]).

(** Time passing: a loaded page is committed 10 ms after the last load,
    an erase 50 ms after its last command byte. *)
Definition flash_tick (us : Z) (c : flash) : flash :=
  match mode c with
  | PageLoad loaded idle =>
      if idle + us <? 10000
      then mkFlash (cells c) (PageLoad loaded (idle + us)) (latched c) (cycles c)
      else mkFlash (program loaded (cells c)) Ready (latched c) (cycles c)
  | Erasing idle =>
      if idle + us <? 50000
      then mkFlash (cells c) (Erasing (idle + us)) (latched c) (cycles c)
      else mkFlash erased Ready (latched c) (cycles c)
  | _ => c
  end.

(** Control-line edges between two register states. *)
Definition flash_edge (before after : mcu) (c : flash) : flash :=
  let c :=
    match write_cycle before, write_cycle after with
    | false, true => mkFlash (cells c) (mode c) (address_bus after) (cycles c)
    | true, false => flash_write (latched c) (data_bus before) c
    | _, _ => c
    end in
  if negb (read_cycle before) && read_cycle after
  then mkFlash (cells c) (mode c) (latched c)
               (cycles c ++ [ReadCycle (address_bus after)])
  else c.

Definition flash_react (e : event) (before after : mcu) (c : flash) : flash :=
  match e with
  | DelayMicroseconds _ | Delay _ => flash_tick (elapsed_us e) c
  | Assign _ _ | OrAssign _ _ | AndAssign _ _ => flash_edge before after c
  | _ => c
  end.

(** What the chip puts on the data bus. *)
Definition flash_out (m : mcu) (c : flash) : option Z :=
  if read_cycle m
  then match address_bus m with
       | Some a => Some (cells c a)
       | None => None
       end
  else None.

(** ** The board: controller, chip, serial line, recorder *)

Record board : Type := mkBoard {
  hw : mcu;
  chip : flash;
  rx : list Z;          (* bytes that will arrive on the serial line *)
  log : list event
}.

(** The data-bus pins as the controller samples them: the chip's output
    when port C is an input and the chip drives the bus, and otherwise the
    controller's own port latch. *)
Definition PINC (w : board) : Z :=
  if DDRC (hw w) =? 0
  then match flash_out (hw w) (chip w) with
       | Some v => v
       | None => PORTC (hw w)
       end
  else PORTC (hw w).

Definition record (e : event) (w : board) : board :=
  let m := mcu_step e (hw w) in
  mkBoard m (flash_react e (hw w) m (chip w)) (rx w) (log w ++ [e]).

Definition replay (es : list event) (w : board) : board :=
  fold_left (fun w e => record e w) es w.

(** ** The firmware monad

    A routine either returns a value in a new board state or waits for
    ever in [readSerial] because no further byte arrives. *)

Inductive result (A : Type) : Type :=
| Done (a : A) (w : board)
| Blocked (w : board).
Arguments Done {A} a w.
Arguments Blocked {A} w.

Definition M (A : Type) : Type := board -> result A.

Definition ret {A} (a : A) : M A := fun w => Done a w.

Definition bind {A B} (k : A -> M B) (m : M A) : M B :=
  fun w => match m w with
           | Done a w' => k a w'
           | Blocked w' => Blocked w'
           end.

#[global] Instance M_ret : MRet M := @ret.
#[global] Instance M_bind : MBind M := @bind.

Definition emit (e : event) : M unit := fun w => Done tt (record e w).

Definition assign (r : reg) (v : Z) : M unit := emit (Assign r (to_byte v)).
Definition or_assign (r : reg) (mask : Z) : M unit := emit (OrAssign r mask).
Definition and_assign (r : reg) (mask : Z) : M unit := emit (AndAssign r mask).
Definition delayMicroseconds (us : Z) : M unit := emit (DelayMicroseconds us).
Definition delay (ms : Z) : M unit := emit (Delay ms).
Definition read_PINC : M Z := fun w => Done (PINC w) (record (Sample (PINC w)) w).

Definition Serial_begin (baud : Z) : M unit := emit (SerialBegin baud).
Definition Serial_print (s : string) : M unit := emit (SerialPrint s).
Definition Serial_println (s : string) : M unit := emit (SerialPrintln s).

(** [for (i = 0; i < n; i++) body(i)] *)
Fixpoint for_loop (n : nat) (i : Z) (body : Z -> M unit) : M unit :=
  match n with
  | O => ret tt
  | S n' => body i;; for_loop n' (i + 1) body
  end.

(** ** The firmware *)

Infix ".|" := Z.lor (at level 50, left associativity) : Z_scope.

(** This function must be called from [writePage]: it assumes that the
    address and data buses are in output mode. *)
Definition writeByte (address data : Z) : M unit :=
  emit (Call (WriteByte address data));;
  or_assign rPORTD (FLASH_CE .| FLASH_OE .| FLASH_WE);;    (* CE,OE,WE high *)
  assign rPORTA address;;
  assign rPORTB (Z.shiftr address 8);;
  assign rPORTC data;;
  and_assign rPORTD (Z.lnot (FLASH_WE .| FLASH_CE));;      (* WE,CE low *)
  delayMicroseconds 1;;
  or_assign rPORTD (FLASH_CE .| FLASH_OE .| FLASH_WE);;    (* CE,OE,WE high *)
  delayMicroseconds 1.

Definition readByte (address : Z) : M Z :=
  emit (Call (ReadByte address));;
  assign rDDRA 0xff;;
  assign rDDRB 0xff;;
  or_assign rPORTD (FLASH_CE .| FLASH_OE .| FLASH_WE);;    (* CE,OE,WE high *)
  assign rPORTA address;;
  assign rPORTB (Z.shiftr address 8);;
  delayMicroseconds 10;;
  and_assign rPORTD (Z.lnot (FLASH_CE .| FLASH_OE));;      (* CE,OE low *)
  delayMicroseconds 10;;
  data ← read_PINC;
  or_assign rPORTD (FLASH_CE .| FLASH_OE);;                (* CE,OE high *)
  assign rDDRA 0;;
  assign rDDRB 0;;
  assign rPORTA 0;;
  assign rPORTB 0;;
  mret data.

(** [src[i]] *)
Definition index (src : list Z) (i : Z) : Z := nth (Z.to_nat i) src 0.

Definition writePage (address : Z) (src : list Z) : M unit :=
  emit (Call (WritePage address src));;
  assign rDDRA 0xff;;
  assign rDDRB 0xff;;
  assign rDDRC 0xff;;
  writeByte 0x5555 0xAA;;
  writeByte 0x2AAA 0x55;;
  writeByte 0x5555 0xA0;;
  for_loop (Z.to_nat PAGE_SIZE) 0
    (fun i => writeByte (to_uint16 (address + i)) (index src i));;
  delay 10;;
  assign rDDRA 0;;
  assign rDDRB 0;;
  assign rDDRC 0;;
  assign rPORTA 0;;
  assign rPORTB 0;;
  assign rPORTC 0.

Definition chipErase : M unit :=
  emit (Call ChipErase);;
  Serial_println "Erasing chip...";;
  assign rDDRA 0xff;;
  assign rDDRB 0xff;;
  assign rDDRC 0xff;;
  writeByte 0x5555 0xAA;;
  writeByte 0x2AAA 0x55;;
  writeByte 0x5555 0x80;;
  writeByte 0x5555 0xAA;;
  writeByte 0x2AAA 0x55;;
  writeByte 0x5555 0x10;;
  delay 50;;
  assign rDDRA 0;;
  assign rDDRB 0;;
  assign rDDRC 0;;
  assign rPORTA 0;;
  assign rPORTB 0;;
  assign rPORTC 0.

(** Capture ownership of the flash chip. *)
Definition captureOwnership : M unit :=
  emit (Call CaptureOwnership);;
  or_assign rPORTD BUFFER_OE;;                             (* buffer OE high *)
  or_assign rDDRD FLASH_CE;;
  or_assign rPORTD (FLASH_CE .| FLASH_WE .| FLASH_OE);;
  assign rDDRA 0;;
  assign rDDRB 0;;
  assign rDDRC 0;;
  assign rPORTA 0;;
  assign rPORTB 0;;
  assign rPORTC 0.

(** Release ownership of the flash chip and grant the external master
    access to it. *)
Definition releaseOwnership : M unit :=
  emit (Call ReleaseOwnership);;
  or_assign rPORTD FLASH_WE;;
  and_assign rPORTD (Z.lnot FLASH_OE);;
  and_assign rDDRD (Z.lnot FLASH_CE);;
  and_assign rPORTD (Z.lnot FLASH_CE);;                    (* no pull-up *)
  assign rDDRA 0;;
  assign rDDRB 0;;
  assign rDDRC 0;;
  assign rPORTA 0;;
  assign rPORTB 0;;
  assign rPORTC 0;;
  and_assign rPORTD (Z.lnot BUFFER_OE).                    (* buffer OE low *)

(** [while (Serial.available() == 0) {}] never ends when no byte is left. *)
Definition readSerial : M Z :=
  fun w => match rx w with
           | [] => Blocked w
           | b :: rest => Done (to_byte b) (mkBoard (hw w) (chip w) rest (log w))
           end.

Definition ascToNibble (v : Z) : Z :=
  if (v >=? chr "0") && (v <=? chr "9") then to_byte (v - chr "0")
  else if (v >=? chr "a") && (v <=? chr "f") then to_byte (v - chr "a" + 10)
  else if (v >=? chr "A") && (v <=? chr "F") then to_byte (v - chr "A" + 10)
  else 0.

(** The collecting loop of [writePageHex]; every iteration that does not
    leave the loop advances [i], so [PAGE_SIZE] iterations are enough. *)
Fixpoint collect (fuel : nat) (i : Z) (buffer : list Z) : M (list Z) :=
  match fuel with
  | O => mret buffer
  | S fuel' =>
      if i <? PAGE_SIZE then
        h ← readSerial;
        if h =? chr "*" then mret buffer else
        let h := ascToNibble h in
        l ← readSerial;
        if l =? chr "*" then mret buffer else
        let l := ascToNibble l in
        collect fuel' (to_byte (i + 1))
                (<[Z.to_nat i := to_byte (Z.shiftl h 4 .| l)]> buffer)
      else mret buffer
  end.

Definition writePageHex (page : Z) : M unit :=
  captureOwnership;;
  let buffer := replicate (Z.to_nat PAGE_SIZE) 0 in        (* clear buffer *)
  buffer ← collect (S (Z.to_nat PAGE_SIZE)) 0 buffer;
  Serial_print "Writing page ";;
  Serial_println (pretty page);;
  writePage (to_uint16 (page * PAGE_SIZE)) buffer;;
  releaseOwnership.

Definition hex : string := "0123456789ABCDEF".

Definition char_at (s : string) (i : Z) : ascii :=
  default "000"%char (String.get (Z.to_nat i) s).

Fixpoint dump (n : nat) (i rowLength page : Z) : M unit :=
  match n with
  | O => mret tt
  | S n' =>
      data ← readByte (to_uint16 (page * PAGE_SIZE + i));
      Serial_print (String (char_at hex (Z.shiftr data 4))
                      (String (char_at hex (Z.land data 0xf)) " "));;
      if rowLength + 1 =? 16
      then Serial_println " ";; dump n' (i + 1) 0 page
      else dump n' (i + 1) (rowLength + 1) page
  end.

Definition dumpPage (page : Z) : M unit :=
  captureOwnership;;
  Serial_print "Reading page ";;
  Serial_println (pretty page);;
  dump (Z.to_nat PAGE_SIZE) 0 0 page;;
  Serial_println " ";;
  releaseOwnership.

Definition setup : M unit :=
  assign rDDRA 0;;
  assign rDDRB 0;;
  assign rDDRC 0;;
  assign rDDRD (FLASH_CE .| FLASH_OE .| FLASH_WE .| BUFFER_OE);;
  or_assign rPORTD (FLASH_CE .| FLASH_OE .| FLASH_WE .| BUFFER_OE);;
  Serial_begin 9600.

Definition newline : string := String "010"%char EmptyString.

Definition loop : M unit :=
  cmd ← readSerial;
  Serial_println ("Ready" ++ newline);;
  if cmd =? chr "w" then
    page ← readSerial;
    writePageHex (to_byte (page - chr "0"))
  else if cmd =? chr "d" then
    page ← readSerial;
    dumpPage (to_byte (page - chr "0"))
  else if cmd =? chr "e" then
    chipErase
  else if cmd =? chr "?" then
    Serial_println "wX... write hex data to page X, terminated with *";;
    Serial_println "dX    dump page X";;
    Serial_println "e     erase chip"
  else
    Serial_println "Unknown command. Type ? for help".

(** ** Running the firmware on a concrete board *)

Definition final {A} (r : result A) : board :=
  match r with Done _ w => w | Blocked w => w end.

Definition completed {A} (r : result A) : bool :=
  match r with Done _ _ => true | Blocked _ => false end.

(** The routines entered, in order. *)
Definition calls (es : list event) : list routine :=
  omap (fun e => match e with Call f => Some f | _ => None end) es.

Definition bytes_of (s : string) : list Z :=
  map (fun c => chr c) (list_ascii_of_string s).

(** An erased chip, and one that holds zeros everywhere. *)
Definition blank : flash := mkFlash erased Ready None [].
Definition zeroed : flash := mkFlash (fun _ => 0) Ready None [].

(** The board at reset with [input] still to arrive on the serial line. *)
Definition power_up (c : flash) (input : string) : board :=
  mkBoard power_on c (bytes_of input) [].

Definition reset (input : list Z) : board := mkBoard power_on blank input [].

(** ** Expected event sequences of the routines *)

(** The list [i; i+1; ...] of [n] loop indices. *)
Fixpoint indices (n : nat) (i : Z) : list Z :=
  match n with
  | O => []
  | S n' => i :: indices n' (i + 1)
  end.

Definition writeByte_events (address data : Z) : list event :=
  [ Call (WriteByte address data);
    OrAssign rPORTD (FLASH_CE .| FLASH_OE .| FLASH_WE);
    Assign rPORTA (to_byte address);
    Assign rPORTB (to_byte (Z.shiftr address 8));
    Assign rPORTC (to_byte data);
    AndAssign rPORTD (Z.lnot (FLASH_WE .| FLASH_CE));
    DelayMicroseconds 1;
    OrAssign rPORTD (FLASH_CE .| FLASH_OE .| FLASH_WE);
    DelayMicroseconds 1 ].

Definition writeBytes_events (ws : list (Z * Z)) : list event :=
  flat_map (fun ad => writeByte_events (fst ad) (snd ad)) ws.

Definition writeByte_calls (ws : list (Z * Z)) : list routine :=
  map (fun ad => WriteByte (fst ad) (snd ad)) ws.

(** [readByte] up to the sample, and after it. *)
Definition readByte_setup (address : Z) : list event :=
  [ Call (ReadByte address);
    Assign rDDRA 255;
    Assign rDDRB 255;
    OrAssign rPORTD (FLASH_CE .| FLASH_OE .| FLASH_WE);
    Assign rPORTA (to_byte address);
    Assign rPORTB (to_byte (Z.shiftr address 8));
    DelayMicroseconds 10;
    AndAssign rPORTD (Z.lnot (FLASH_CE .| FLASH_OE));
    DelayMicroseconds 10 ].

Definition readByte_finish : list event :=
  [ OrAssign rPORTD (FLASH_CE .| FLASH_OE);
    Assign rDDRA 0; Assign rDDRB 0; Assign rPORTA 0; Assign rPORTB 0 ].

Definition readByte_events (address data : Z) : list event :=
  readByte_setup address ++ Sample data :: readByte_finish.

Definition buses_out : list event :=
  [ Assign rDDRA 255; Assign rDDRB 255; Assign rDDRC 255 ].

Definition buses_release : list event :=
  [ Assign rDDRA 0; Assign rDDRB 0; Assign rDDRC 0;
    Assign rPORTA 0; Assign rPORTB 0; Assign rPORTC 0 ].

(** A sequencer body: bus writes between switching the buses to output
    and releasing them after a pause. *)
Definition sequence_events (ws : list (Z * Z)) (pause : Z) : list event :=
  buses_out ++ writeBytes_events ws ++ Delay pause :: buses_release.

(** The bus writes of a page write: unlock, then the 128 data bytes. *)
Definition page_unlock : list (Z * Z) :=
  [ (0x5555, 0xAA); (0x2AAA, 0x55); (0x5555, 0xA0) ].

Definition page_data (address : Z) (src : list Z) : list (Z * Z) :=
  map (fun i => (to_uint16 (address + i), index src i))
      (indices (Z.to_nat PAGE_SIZE) 0).

Definition writePage_events (address : Z) (src : list Z) : list event :=
  Call (WritePage address src) :: buses_out
  ++ writeBytes_events page_unlock
  ++ writeBytes_events (page_data address src)
  ++ Delay 10 :: buses_release.

Definition erase_sequence : list (Z * Z) :=
  [ (0x5555, 0xAA); (0x2AAA, 0x55); (0x5555, 0x80);
    (0x5555, 0xAA); (0x2AAA, 0x55); (0x5555, 0x10) ].

Definition chipErase_events : list event :=
  Call ChipErase :: SerialPrintln "Erasing chip..." :: buses_out
  ++ writeBytes_events erase_sequence
  ++ Delay 50 :: buses_release.

Definition captureOwnership_events : list event :=
  [ Call CaptureOwnership;
    OrAssign rPORTD BUFFER_OE;
    OrAssign rDDRD FLASH_CE;
    OrAssign rPORTD (FLASH_CE .| FLASH_WE .| FLASH_OE);
    Assign rDDRA 0; Assign rDDRB 0; Assign rDDRC 0;
    Assign rPORTA 0; Assign rPORTB 0; Assign rPORTC 0 ].

Definition releaseOwnership_events : list event :=
  [ Call ReleaseOwnership;
    OrAssign rPORTD FLASH_WE;
    AndAssign rPORTD (Z.lnot FLASH_OE);
    AndAssign rDDRD (Z.lnot FLASH_CE);
    AndAssign rPORTD (Z.lnot FLASH_CE);
    Assign rDDRA 0; Assign rDDRB 0; Assign rDDRC 0;
    Assign rPORTA 0; Assign rPORTB 0; Assign rPORTC 0;
    AndAssign rPORTD (Z.lnot BUFFER_OE) ].

Definition setup_events : list event :=
  [ Assign rDDRA 0; Assign rDDRB 0; Assign rDDRC 0;
    Assign rDDRD (FLASH_CE .| FLASH_OE .| FLASH_WE .| BUFFER_OE);
    OrAssign rPORTD (FLASH_CE .| FLASH_OE .| FLASH_WE .| BUFFER_OE);
    SerialBegin 9600 ].

(** What [writePageHex] records once the page has been collected. *)
Definition writePageHex_events (page : Z) (buffer : list Z) : list event :=
  SerialPrint "Writing page " :: SerialPrintln (pretty page)
  :: writePage_events (to_uint16 (page * PAGE_SIZE)) buffer
  ++ releaseOwnership_events.

(** The first thing [loop] prints for every command. *)
Definition ready : event := SerialPrintln ("Ready" ++ newline).

(** [emits m es]: routine [m] always returns, having gone through exactly
    the events [es]. *)
Definition emits (m : M unit) (es : list event) : Prop :=
  forall w, m w = Done tt (replay es w).

(** The routine behind each recorded call. *)
Definition perform (f : routine) : M unit :=
  match f with
  | WriteByte address data => writeByte address data
  | ReadByte address => readByte address;; mret tt
  | WritePage address src => writePage address src
  | ChipErase => chipErase
  | CaptureOwnership => captureOwnership
  | ReleaseOwnership => releaseOwnership
  end.

(** ** Registers and chip along an event sequence *)

(** Register states: after all of [es], and after each event of [es]. *)
Definition run (es : list event) (m : mcu) : mcu :=
  fold_left (fun m e => mcu_step e m) es m.

Fixpoint states (m : mcu) (es : list event) : list mcu :=
  match es with
  | [] => []
  | e :: es' => mcu_step e m :: states (mcu_step e m) es'
  end.

(** The chip after the controller went through [es] from registers [m]. *)
Fixpoint chip_run (es : list event) (m : mcu) (c : flash) : flash :=
  match es with
  | [] => c
  | e :: es' =>
      chip_run es' (mcu_step e m) (flash_react e m (mcu_step e m) c)
  end.

(** What one [writeByte] does to the chip inside a write window: 1 us of
    strobe, the write cycle, 1 us of rest. *)
Definition pulse (a d : Z) (c : flash) : flash :=
  flash_tick 1 (flash_write (Some a) (Some d) (flash_tick 1 c)).

Definition pulses (ws : list (Z * Z)) (c : flash) : flash :=
  fold_left (fun c ad => pulse (fst ad) (to_byte (snd ad)) c) ws c.

(** The write cycles the chip sees for the bus writes [ws], and the
    bytes it loads. *)
Definition write_cycles (ws : list (Z * Z)) : list cycle :=
  map (fun ad => WriteCycle (Some (fst ad)) (Some (to_byte (snd ad)))) ws.

Definition loaded_bytes (ws : list (Z * Z)) : list (Z * Z) :=
  map (fun ad => (fst ad, to_byte (snd ad))) ws.

Definition addresses_ok (ws : list (Z * Z)) : Prop :=
  Forall (fun ad => is_uint16 (fst ad) = true) ws.

(** ** State predicates *)

(** [setup] makes OE, WE and the buffer enable outputs; no routine changes
    their direction afterwards. *)
Definition configured (m : mcu) : bool :=
  driven FLASH_OE m && driven FLASH_WE m && driven BUFFER_OE m.

Definition lines_high (m : mcu) : bool :=
  bit_of FLASH_CE (PORTD m) && bit_of FLASH_OE (PORTD m)
  && bit_of FLASH_WE (PORTD m).

(** Bus ownership.  The controller owns the bus when it drives chip
    enable and holds the external buffer disabled; the external master
    owns it when the buffer is enabled, chip enable is an input, and the
    address and data lines are inputs. *)
Definition controller_owns (m : mcu) : bool :=
  driven FLASH_CE m && driven BUFFER_OE m && bit_of BUFFER_OE (PORTD m).

Definition external_owns (m : mcu) : bool :=
  negb (driven FLASH_CE m) && asserted BUFFER_OE m
  && (DDRA m =? 0) && (DDRB m =? 0) && (DDRC m =? 0).

(** The state [releaseOwnership] leaves: the external master owns the
    bus, write enable is high, output enable is held low so that the
    master's reads pass, and chip enable has no pull-up. *)
Definition handed_over (m : mcu) : bool :=
  external_owns m && asserted FLASH_OE m && negb (asserted FLASH_WE m)
  && negb (bit_of FLASH_CE (PORTD m)).

(** A captured window at rest: the controller owns the bus and CE, OE and
    WE are driven high. *)
Definition captured (m : mcu) : bool :=
  configured m && controller_owns m && lines_high m.

(** A captured window with address and data buses in output mode, as
    [writeByte] assumes. *)
Definition write_window (m : mcu) : bool :=
  captured m && (DDRA m =? 255) && (DDRB m =? 255) && (DDRC m =? 255).

(** A captured window at rest with the data bus left to the chip. *)
Definition read_window (m : mcu) : bool := captured m && (DDRC m =? 0).

(** Registers at the end of a page write or chip erase: the buses are
    released and their latches cleared. *)
Definition released_buses (m : mcu) : bool :=
  (DDRA m =? 0) && (DDRB m =? 0) && (DDRC m =? 0)
  && (PORTA m =? 0) && (PORTB m =? 0) && (PORTC m =? 0).

(** Output enable and write enable are not both asserted. *)
Definition safe (m : mcu) : bool :=
  negb (asserted FLASH_OE m && asserted FLASH_WE m).

(** [keeps_safe es]: from a safe register state, every state on the way
    through [es] is safe. *)
Definition keeps_safe (es : list event) : Prop :=
  forall m, safe m = true ->
    Forall (fun m' => safe m' = true) (states m es) /\ safe (run es m) = true.

(** ** Reading a page back *)

(** Reading a list of addresses with [readByte], as the loop of
    [dumpPage] does, without the printing. *)
Fixpoint readBytes (addresses : list Z) : M (list Z) :=
  match addresses with
  | [] => mret []
  | a :: rest =>
      data ← readByte a;
      more ← readBytes rest;
      mret (data :: more)
  end.

(** The 128 addresses of a page write at [address], as [writePage]
    computes them, and the 128 consecutive addresses from [base]. *)
Definition page_addresses (address : Z) : list Z :=
  map (fun i => to_uint16 (address + i)) (indices (Z.to_nat PAGE_SIZE) 0).

Definition page_span (base : Z) : list Z :=
  map (fun i => base + i) (indices (Z.to_nat PAGE_SIZE) 0).

(** ** Serial input of a page *)

(** The page a page character selects. *)
Definition page_of (c : Z) : Z := to_byte (to_byte c - chr "0").

(** The byte a pair of characters decodes to. *)
Definition hex_byte (h l : Z) : Z :=
  to_byte (Z.shiftl (ascToNibble h) 4 .| ascToNibble l).

Definition decoded (pairs : list (Z * Z)) : list Z :=
  map (fun p => hex_byte (fst p) (snd p)) pairs.

(** The characters of a list of pairs, in the order they are sent. *)
Fixpoint hex_chars (pairs : list (Z * Z)) : list Z :=
  match pairs with
  | [] => []
  | (h, l) :: rest => h :: l :: hex_chars rest
  end.

(** A received character other than the sentinel. *)
Definition plain (c : Z) : bool := is_byte c && negb (c =? chr "*").

Definition plain_pairs (pairs : list (Z * Z)) : Prop :=
  Forall (fun p => plain (fst p) = true /\ plain (snd p) = true) pairs.

Definition zeros (n : nat) : list Z := replicate n 0.

(** The page image a terminated input leaves in the buffer. *)
Definition padded (pairs : list (Z * Z)) : list Z :=
  decoded pairs ++ zeros (Z.to_nat PAGE_SIZE - length pairs).

(** Ways a short input ends: the sentinel in the place of a high digit,
    or in the place of a low digit after one more character. *)
Definition ending (tail : list Z) : Prop :=
  tail = [chr "*"] \/ exists h, plain h = true /\ tail = [h; chr "*"].

(** An input on which the collecting loop finishes: plain pairs ended
    by the sentinel (in either place), or a full page of pairs. *)
Definition complete_input (pairs : list (Z * Z)) (tail : list Z) : Prop :=
  plain_pairs pairs
  /\ ((length pairs < Z.to_nat PAGE_SIZE)%nat /\ ending tail
      \/ length pairs = Z.to_nat PAGE_SIZE /\ tail = []).

(** The board with [input] left on the serial line. *)
Definition set_rx (input : list Z) (w : board) : board :=
  mkBoard (hw w) (chip w) input (log w).

(** ** Test benches *)

(** The board after [setup], and after [captureOwnership] on top of it. *)
Definition booted (input : list Z) : board := final (setup (reset input)).

Definition bench : board := final (captureOwnership (booted [])).

(** [bench] with the buses switched to output, as inside [writePage]. *)
Definition write_bench : board := replay buses_out bench.

Definition sample_page : list Z :=
  map (fun i => (7 * i + 3) mod 256) (indices (Z.to_nat PAGE_SIZE) 0).

(** ** Further definitions

    What the properties of the dispatcher, of [setup] and of whole
    commands are stated with. *)

(** The commands the dispatcher acts on. *)
Definition acts_on_bus (cmd : Z) : bool :=
  (cmd =? chr "w") || (cmd =? chr "d") || (cmd =? chr "e").

(** What [loop] prints after [ready] for a command that has no case of
    its own in the switch, and for the help command. *)
Definition help_text : list event :=
  [ SerialPrintln "wX... write hex data to page X, terminated with *";
    SerialPrintln "dX    dump page X";
    SerialPrintln "e     erase chip" ].

Definition unknown_text : list event :=
  [ SerialPrintln "Unknown command. Type ? for help" ].

(** Ways an input stops short of a sentinel: after a full pair, or after
    the high digit of a pair. *)
Definition cut_short (tail : list Z) : Prop :=
  tail = [] \/ exists h, plain h = true /\ tail = [h].

(** The text [dumpPage] prints for one byte: two hex digits and a
    space ([str] in the source). *)
Definition hex_text (data : Z) : string :=
  String (char_at hex (Z.shiftr data 4))
         (String (char_at hex (Z.land data 0xf)) " ").

Definition print_byte (data : Z) : event := SerialPrint (hex_text data).

(** The serial output among recorded events. *)
Definition printed (es : list event) : list event :=
  omap (fun e => match e with
                 | SerialPrint _ | SerialPrintln _ => Some e
                 | _ => None
                 end) es.

(** One row of a dump, and a list cut into [n] rows of sixteen. *)
Definition dump_row (bytes : list Z) : list event :=
  map print_byte bytes ++ [SerialPrintln " "].

Fixpoint rows_of (n : nat) (bytes : list Z) : list (list Z) :=
  match n with
  | O => []
  | S n' => firstn 16 bytes :: rows_of n' (skipn 16 bytes)
  end.

(** What a dump of [page] prints when the page holds [bytes]. *)
Definition dump_text (page : Z) (bytes : list Z) : list event :=
  SerialPrint "Reading page " :: SerialPrintln (pretty page)
  :: flat_map dump_row (rows_of 8 bytes) ++ [SerialPrintln " "].

(** What the loop of [dumpPage] prints for [bytes], entered with
    [rowLength] bytes already on the current row. *)
Fixpoint dump_lines (rowLength : Z) (bytes : list Z) : list event :=
  match bytes with
  | [] => []
  | data :: rest =>
      print_byte data
      :: if rowLength + 1 =? 16
         then SerialPrintln " " :: dump_lines 0 rest
         else dump_lines (rowLength + 1) rest
  end.

(** The states in which a command starts when every earlier command was
    a write or a dump: the captured window [setup] leaves, or handed
    over. *)
Definition at_rest (m : mcu) : bool :=
  captured m || (configured m && handed_over m).

(** The external buffer is held disabled. *)
Definition buffer_off (m : mcu) : bool := negb (asserted BUFFER_OE m).

(** The controller keeps off the shared lines: the external buffer is
    not enabled while the controller drives chip enable or a line of the
    address or data bus. *)
Definition isolated (m : mcu) : bool :=
  buffer_off m
  || (negb (driven FLASH_CE m)
      && (DDRA m =? 0) && (DDRB m =? 0) && (DDRC m =? 0)).

(** [keeps P es]: from a register state with [P], every state on the
    way through [es] has [P]. *)
Definition keeps (P : mcu -> bool) (es : list event) : Prop :=
  forall m, P m = true ->
    Forall (fun m' => P m' = true) (states m es) /\ P (run es m) = true.

(** A store to the direction register of port D. *)
Definition sets_direction (e : event) : bool :=
  match e with
  | Assign rDDRD _ | OrAssign rDDRD _ | AndAssign rDDRD _ => true
  | _ => false
  end.

(** The directions of output enable, write enable and buffer enable. *)
Definition direction (m : mcu) : bool * bool * bool :=
  (driven FLASH_OE m, driven FLASH_WE m, driven BUFFER_OE m).

(** Write enable is not asserted. *)
Definition write_idle (m : mcu) : bool := negb (asserted FLASH_WE m).

(** The recorded events other than serial output: calls, register
    stores, samples and delays. *)
Definition bus_events (es : list event) : list event :=
  omap (fun e => match e with
                 | SerialBegin _ | SerialPrint _ | SerialPrintln _ => None
                 | _ => Some e
                 end) es.

(** What the reads of [dumpPage] put on the recorder between the prints:
    one [readByte] for each pair of an address and the byte sampled
    there. *)
Definition reads_events (reads : list (Z * Z)) : list event :=
  flat_map (fun ad => readByte_events (fst ad) (snd ad)) reads.

(** The read cycles the chip sees for a list of addresses. *)
Definition read_cycles (addresses : list Z) : list cycle :=
  map (fun a => ReadCycle (Some a)) addresses.
(** * Properties *)

(** ** Replaying events *)

Lemma replay_app es1 es2 w : replay (es1 ++ es2) w = replay es2 (replay es1 w).
Proof. apply fold_left_app. Qed.

Lemma replay_cons e es w : replay (e :: es) w = replay es (record e w).
Proof. reflexivity. Qed.

Lemma log_replay es : forall w, log (replay es w) = log w ++ es.
Proof.
  induction es as [|e es IH]; intros w; simpl.
  - now rewrite app_nil_r.
  - rewrite IH. simpl. now rewrite <- app_assoc.
Qed.

Lemma rx_replay es : forall w, rx (replay es w) = rx w.
Proof. induction es as [|e es IH]; intros w; simpl; [|rewrite IH]; reflexivity. Qed.

Lemma hw_replay es : forall w, hw (replay es w) = run es (hw w).
Proof. induction es as [|e es IH]; intros w; simpl; [|rewrite IH]; reflexivity. Qed.

Lemma chip_replay es : forall w, chip (replay es w) = chip_run es (hw w) (chip w).
Proof. induction es as [|e es IH]; intros w; simpl; [|rewrite IH]; reflexivity. Qed.

Lemma hw_record e w : hw (record e w) = mcu_step e (hw w).
Proof. reflexivity. Qed.

Lemma log_record e w : log (record e w) = log w ++ [e].
Proof. reflexivity. Qed.

Lemma rx_record e w : rx (record e w) = rx w.
Proof. reflexivity. Qed.

Lemma mcu_step_print s m : mcu_step (SerialPrint s) m = m.
Proof. reflexivity. Qed.

Lemma mcu_step_println s m : mcu_step (SerialPrintln s) m = m.
Proof. reflexivity. Qed.

Lemma run_app es1 es2 m : run (es1 ++ es2) m = run es2 (run es1 m).
Proof. apply fold_left_app. Qed.

Lemma states_app es1 : forall es2 m,
  states m (es1 ++ es2) = states m es1 ++ states (run es1 m) es2.
Proof.
  induction es1 as [|e es1 IH]; intros es2 m; simpl; [|rewrite IH]; reflexivity.
Qed.

Lemma chip_run_app es1 : forall es2 m c,
  chip_run (es1 ++ es2) m c = chip_run es2 (run es1 m) (chip_run es1 m c).
Proof.
  induction es1 as [|e es1 IH]; intros es2 m c; simpl; [|rewrite IH]; reflexivity.
Qed.

(** ** Routines without input are event sequences *)

Lemma emits_emit e : emits (emit e) [e].
Proof. intros w. reflexivity. Qed.

Lemma emits_ret : emits (mret tt) [].
Proof. intros w. reflexivity. Qed.

Lemma emits_bind m k es1 es2 :
  emits m es1 -> emits k es2 -> emits (m;; k) (es1 ++ es2).
Proof.
  intros Hm Hk w. unfold mbind, M_bind, bind.
  rewrite Hm, Hk, replay_app. reflexivity.
Qed.

Lemma emits_for body evs :
  (forall i, emits (body i) (evs i)) ->
  forall n i, emits (for_loop n i body) (flat_map evs (indices n i)).
Proof.
  intros Hbody. induction n as [|n IH]; intros i; simpl.
  - apply emits_ret.
  - apply emits_bind; [apply Hbody | apply IH].
Qed.

Lemma writeByte_emits a d : emits (writeByte a d) (writeByte_events a d).
Proof. intros w. reflexivity. Qed.

Lemma writeBytes_events_app ws1 ws2 :
  writeBytes_events (ws1 ++ ws2) = writeBytes_events ws1 ++ writeBytes_events ws2.
Proof. apply flat_map_app. Qed.

Lemma flat_map_over_map {A B C} (f : B -> list C) (g : A -> B) (l : list A) :
  flat_map f (map g l) = flat_map (fun x => f (g x)) l.
Proof. induction l as [|x l IH]; simpl; [|rewrite IH]; reflexivity. Qed.

Lemma writePage_emits address src :
  emits (writePage address src) (writePage_events address src).
Proof.
  unfold writePage, writePage_events.
  apply (emits_bind _ _ [_]); [apply emits_emit|].
  do 3 (apply (emits_bind _ _ [_]); [apply emits_emit|]).
  do 3 (apply (emits_bind _ _ (writeByte_events _ _)); [apply writeByte_emits|]).
  unfold page_data, writeBytes_events. rewrite flat_map_over_map.
  apply emits_bind.
  - apply emits_for. intros i. apply writeByte_emits.
  - intros w. reflexivity.
Qed.

Lemma chipErase_emits : emits chipErase chipErase_events.
Proof. intros w. reflexivity. Qed.

Lemma captureOwnership_emits : emits captureOwnership captureOwnership_events.
Proof. intros w. reflexivity. Qed.

Lemma releaseOwnership_emits : emits releaseOwnership releaseOwnership_events.
Proof. intros w. reflexivity. Qed.

Lemma readByte_replay a w :
  let v := PINC (replay (readByte_setup a) w) in
  readByte a w = Done v (replay (readByte_events a v) w).
Proof. reflexivity. Qed.

(** ** Loop indices and recorded calls *)

Lemma in_indices n : forall i j,
  In j (indices n i) <-> i <= j < i + Z.of_nat n.
Proof.
  induction n as [|n IH]; intros i j; cbn [indices In].
  - lia.
  - rewrite IH. lia.
Qed.

Lemma length_indices n : forall i, length (indices n i) = n.
Proof. induction n as [|n IH]; intros i; cbn; [|rewrite IH]; reflexivity. Qed.

Lemma calls_app es1 es2 : calls (es1 ++ es2) = calls es1 ++ calls es2.
Proof. apply omap_app. Qed.

Lemma calls_writeBytes ws : calls (writeBytes_events ws) = writeByte_calls ws.
Proof.
  induction ws as [|[a d] ws IH]; [reflexivity|].
  change (writeBytes_events ((a, d) :: ws))
    with (writeByte_events a d ++ writeBytes_events ws).
  rewrite calls_app, IH. reflexivity.
Qed.

Lemma calls_writePage a src :
  calls (writePage_events a src)
  = WritePage a src :: writeByte_calls (page_unlock ++ page_data a src).
Proof.
  unfold writePage_events.
  change (Call (WritePage a src) :: ?l) with ([Call (WritePage a src)] ++ l).
  rewrite !calls_app, !calls_writeBytes.
  unfold writeByte_calls. rewrite map_app. cbn. now rewrite app_nil_r.
Qed.

(** ** Bits of the control port *)

Lemma bit_of_lor mask x y : bit_of mask (Z.lor x y) = bit_of mask x || bit_of mask y.
Proof. apply Z.lor_spec. Qed.

Lemma bit_of_land mask x y : bit_of mask (Z.land x y) = bit_of mask x && bit_of mask y.
Proof. apply Z.land_spec. Qed.

Lemma bit_of_to_byte mask x : line mask = true -> bit_of mask (to_byte x) = bit_of mask x.
Proof.
  unfold line, bit_of, to_byte. intros H. apply Z.ltb_lt in H.
  change 256 with (2 ^ 8). apply Z.mod_pow2_bits_low.
  pose proof (Z.log2_nonneg mask). lia.
Qed.

(** Evaluate the bits of constants, leave those of unknown registers. *)
Ltac eval_bits :=
  repeat match goal with
  | |- context [bit_of ?k ?c] =>
      let v := eval vm_compute in (bit_of k c) in
      match v with
      | true => change (bit_of k c) with true
      | false => change (bit_of k c) with false
      end
  end.

Ltac step_registers :=
  cbn [run states fold_left mcu_step set_reg get_reg
       DDRA DDRB DDRC DDRD PORTA PORTB PORTC PORTD].

Ltac bits :=
  step_registers;
  unfold write_window, captured, configured, controller_owns, external_owns,
         lines_high, safe, write_cycle, read_cycle, asserted, driven;
  cbn [DDRA DDRB DDRC DDRD PORTA PORTB PORTC PORTD];
  repeat (rewrite ?bit_of_to_byte by reflexivity;
          rewrite ?bit_of_lor, ?bit_of_land);
  eval_bits.

Ltac split_bits :=
  repeat match goal with
  | |- context [bit_of ?k ?x] => destruct (bit_of k x)
  end.

(** The two address bytes and the data byte are what the buses carry. *)
Lemma join_bytes a :
  is_uint16 a = true ->
  Z.lor (Z.shiftl (to_byte (Z.shiftr a 8)) 8) (to_byte a) = a.
Proof.
  unfold is_uint16, to_byte. intros H.
  apply andb_true_iff in H as [H0 H1].
  apply Z.leb_le in H0. apply Z.ltb_lt in H1.
  apply Z.bits_inj'. intros n Hn.
  rewrite Z.lor_spec. change 256 with (2 ^ 8).
  destruct (Z.lt_ge_cases n 8) as [Hlt|Hge].
  - rewrite Z.shiftl_spec_low by exact Hlt.
    rewrite Z.mod_pow2_bits_low by lia. reflexivity.
  - rewrite Z.shiftl_spec by lia.
    rewrite (Z.mod_pow2_bits_high a 8 n) by lia.
    rewrite orb_false_r.
    destruct (Z.lt_ge_cases n 16) as [Hlt|Hge'].
    + rewrite Z.mod_pow2_bits_low by lia.
      rewrite Z.shiftr_spec by lia. f_equal. lia.
    + rewrite Z.mod_pow2_bits_high by lia.
      symmetry. rewrite <- (Z.mod_small a (2 ^ 16)) by lia.
      apply Z.mod_pow2_bits_high. lia.
Qed.

Lemma to_byte_small d : is_byte d = true -> to_byte d = d.
Proof.
  unfold is_byte, to_byte. intros H.
  apply andb_true_iff in H as [H0 H1].
  apply Z.leb_le in H0. apply Z.ltb_lt in H1.
  apply Z.mod_small. lia.
Qed.

Lemma to_uint16_small a : is_uint16 a = true -> to_uint16 a = a.
Proof.
  unfold is_uint16, to_uint16. intros H.
  apply andb_true_iff in H as [H0 H1].
  apply Z.leb_le in H0. apply Z.ltb_lt in H1.
  apply Z.mod_small. lia.
Qed.

Lemma to_uint16_range z : is_uint16 (to_uint16 z) = true.
Proof.
  unfold is_uint16, to_uint16.
  pose proof (Z.mod_pos_bound z 65536 ltac:(lia)).
  apply andb_true_iff. split; [apply Z.leb_le | apply Z.ltb_lt]; lia.
Qed.

Lemma to_byte_range z : is_byte (to_byte z) = true.
Proof.
  unfold is_byte, to_byte.
  pose proof (Z.mod_pos_bound z 256 ltac:(lia)).
  apply andb_true_iff. split; [apply Z.leb_le | apply Z.ltb_lt]; lia.
Qed.

Ltac each_state tac :=
  repeat first [apply List.Forall_nil | apply List.Forall_cons; [tac|]].

Ltac decide_bits :=
  bits; split_bits; cbn [andb orb negb];
  first [reflexivity | intros; congruence].

(** ** Output enable and write enable exclude each other *)

Lemma keeps_safe_app es1 es2 :
  keeps_safe es1 -> keeps_safe es2 -> keeps_safe (es1 ++ es2).
Proof.
  intros H1 H2 m Hm. destruct (H1 m Hm) as [Ha Hb].
  destruct (H2 _ Hb) as [Hc Hd].
  rewrite states_app, run_app. split; [|exact Hd].
  apply Forall_app. split; assumption.
Qed.

Ltac keeps_safe_list :=
  intros m H; split; [cbn [states]; each_state ltac:(revert H; decide_bits)
                     | revert H; decide_bits].

Lemma keeps_safe_writeByte a d : keeps_safe (writeByte_events a d).
Proof. unfold writeByte_events. keeps_safe_list. Qed.

Lemma keeps_safe_readByte a v : keeps_safe (readByte_events a v).
Proof.
  unfold readByte_events, readByte_setup, readByte_finish. cbn [app].
  keeps_safe_list.
Qed.

Lemma keeps_safe_capture : keeps_safe captureOwnership_events.
Proof. unfold captureOwnership_events. keeps_safe_list. Qed.

Lemma keeps_safe_release : keeps_safe releaseOwnership_events.
Proof. unfold releaseOwnership_events. keeps_safe_list. Qed.

Lemma keeps_safe_buses_out : keeps_safe buses_out.
Proof. unfold buses_out. keeps_safe_list. Qed.

Lemma keeps_safe_buses_release : keeps_safe buses_release.
Proof. unfold buses_release. keeps_safe_list. Qed.

Lemma keeps_safe_one e :
  (forall m, safe (mcu_step e m) = safe m) -> keeps_safe [e].
Proof.
  intros He m H. cbn [states run fold_left].
  split; [constructor; [|constructor]|]; rewrite He; exact H.
Qed.

Lemma keeps_safe_writeBytes ws : keeps_safe (writeBytes_events ws).
Proof.
  induction ws as [|[a d] ws IH].
  - intros m H. split; [constructor | exact H].
  - apply (keeps_safe_app (writeByte_events a d));
      [apply keeps_safe_writeByte | exact IH].
Qed.

Lemma keeps_safe_writePage a src : keeps_safe (writePage_events a src).
Proof.
  unfold writePage_events.
  apply (keeps_safe_app [_]); [apply keeps_safe_one; reflexivity|].
  apply keeps_safe_app; [apply keeps_safe_buses_out|].
  apply keeps_safe_app; [apply keeps_safe_writeBytes|].
  apply keeps_safe_app; [apply keeps_safe_writeBytes|].
  apply (keeps_safe_app [_]); [apply keeps_safe_one; reflexivity|].
  apply keeps_safe_buses_release.
Qed.

Lemma keeps_safe_chipErase : keeps_safe chipErase_events.
Proof.
  unfold chipErase_events.
  apply (keeps_safe_app [_; _]).
  { intros m H. split; [repeat constructor|]; exact H. }
  apply keeps_safe_app; [apply keeps_safe_buses_out|].
  apply keeps_safe_app; [apply keeps_safe_writeBytes|].
  apply (keeps_safe_app [_]); [apply keeps_safe_one; reflexivity|].
  apply keeps_safe_buses_release.
Qed.

Lemma setup_emits : emits setup setup_events.
Proof. intros w. reflexivity. Qed.

(** [setup] ends in a captured window, whatever the registers held. *)
Lemma setup_captured m : captured (run setup_events m) = true.
Proof. unfold setup_events. decide_bits. Qed.

Lemma captured_safe m : captured m = true -> safe m = true.
Proof.
  unfold captured, lines_high. rewrite !andb_true_iff.
  intros [_ [[_ H1] H2]]. revert H1 H2. decide_bits.
Qed.

(** C5.  During [writeByte], [readByte], [writePage], [chipErase],
    [captureOwnership] and [releaseOwnership] the controller never asserts
    output enable and write enable together: entered in a state where the
    two are not both asserted, each routine returns, and after every one
    of its steps the two are still not both asserted. *)
Theorem oe_we_never_both_asserted (f : routine) (w : board) :
  safe (hw w) = true ->
  exists es w',
    perform f w = Done tt w'
    /\ log w' = log w ++ es
    /\ hw w' = run es (hw w)
    /\ Forall (fun m => safe m = true) (states (hw w) es).
Proof.
  intros H.
  assert (Hemit : forall m es, emits m es -> keeps_safe es ->
            exists es w', m w = Done tt w' /\ log w' = log w ++ es
              /\ hw w' = run es (hw w)
              /\ Forall (fun m => safe m = true) (states (hw w) es)).
  { intros m es Hm Hs. exists es, (replay es w).
    rewrite Hm, log_replay, hw_replay.
    repeat split. apply (Hs _ H). }
  destruct f as [a d|a|a src| | |]; cbn [perform].
  - apply (Hemit _ _ (writeByte_emits a d)), keeps_safe_writeByte.
  - pose (v := PINC (replay (readByte_setup a) w)).
    exists (readByte_events a v), (replay (readByte_events a v) w).
    rewrite log_replay, hw_replay. repeat split.
    apply (keeps_safe_readByte a v _ H).
  - apply (Hemit _ _ (writePage_emits a src)), keeps_safe_writePage.
  - apply (Hemit _ _ chipErase_emits), keeps_safe_chipErase.
  - apply (Hemit _ _ captureOwnership_emits), keeps_safe_capture.
  - apply (Hemit _ _ releaseOwnership_emits), keeps_safe_release.
Qed.

Lemma oe_we_never_both_asserted_witness :
  safe (hw bench) = true
  /\ exists es w',
       perform (WritePage 0x0180 sample_page) bench = Done tt w'
       /\ log w' = log bench ++ es
       /\ hw w' = run es (hw bench)
       /\ Forall (fun m => safe m = true) (states (hw bench) es).
Proof.
  split; [reflexivity|].
  apply (oe_we_never_both_asserted (WritePage 0x0180 sample_page) bench).
  reflexivity.
Defined.

(** The invariant is established by [setup]: it ends with the three
    lines high. *)
Lemma setup_safe m : safe (run setup_events m) = true.
Proof. apply captured_safe, setup_captured. Qed.

(** ** The chip during a sequence of bus writes *)

Lemma latched_tick us c : latched (flash_tick us c) = latched c.
Proof.
  unfold flash_tick. destruct (mode c) as [| | |ld idle| | | |idle]; try reflexivity.
  - destruct (idle + us <? 10000); reflexivity.
  - destruct (idle + us <? 50000); reflexivity.
Qed.

Lemma flash_write_tick_latched a d us c l :
  flash_write a d (flash_tick us (mkFlash (cells c) (mode c) l (cycles c)))
  = flash_write a d (flash_tick us c).
Proof.
  destruct c as [mem md l0 cy]. unfold flash_tick. cbn [mode cells latched cycles].
  destruct md as [| | |ld idle| | | |idle]; try reflexivity.
  - destruct (idle + us <? 10000); reflexivity.
  - destruct (idle + us <? 50000); reflexivity.
Qed.

Lemma write_window_bits m :
  write_window m = true ->
  bit_of FLASH_CE (DDRD m) = true /\ bit_of FLASH_OE (DDRD m) = true
  /\ bit_of FLASH_WE (DDRD m) = true /\ bit_of BUFFER_OE (DDRD m) = true
  /\ bit_of FLASH_CE (PORTD m) = true /\ bit_of FLASH_OE (PORTD m) = true
  /\ bit_of FLASH_WE (PORTD m) = true /\ bit_of BUFFER_OE (PORTD m) = true
  /\ DDRA m = 255 /\ DDRB m = 255 /\ DDRC m = 255.
Proof.
  unfold write_window, captured, configured, controller_owns, lines_high, driven.
  rewrite !andb_true_iff, !Z.eqb_eq. tauto.
Qed.

Lemma flash_edge_quiet before after c :
  write_cycle before = false -> write_cycle after = false ->
  read_cycle after = false ->
  flash_edge before after c = c.
Proof.
  intros H1 H2 H3. unfold flash_edge. rewrite H1, H2, H3, andb_false_r.
  reflexivity.
Qed.

Lemma flash_edge_strobe before after c :
  write_cycle before = false -> write_cycle after = true ->
  read_cycle after = false ->
  flash_edge before after c
  = mkFlash (cells c) (mode c) (address_bus after) (cycles c).
Proof.
  intros H1 H2 H3. unfold flash_edge. rewrite H1, H2, H3, andb_false_r.
  reflexivity.
Qed.

Lemma flash_edge_release before after c :
  write_cycle before = true -> write_cycle after = false ->
  read_cycle after = false ->
  flash_edge before after c = flash_write (latched c) (data_bus before) c.
Proof.
  intros H1 H2 H3. unfold flash_edge. rewrite H1, H2, H3, andb_false_r.
  reflexivity.
Qed.

Ltac use_bits :=
  repeat match goal with
  | H : bit_of ?k ?x = _ |- context [bit_of ?k ?x] => rewrite H
  end.

Ltac line_fact := bits; use_bits; split_bits; reflexivity.

Lemma to_byte_idem z : to_byte (to_byte z) = to_byte z.
Proof. unfold to_byte. apply Z.mod_mod. lia. Qed.

Lemma writeByte_chip a d m c :
  write_window m = true -> is_uint16 a = true ->
  chip_run (writeByte_events a d) m c = pulse a (to_byte d) c.
Proof.
  intros Hm Ha.
  destruct (write_window_bits m Hm)
    as (H1 & H2 & H3 & H4 & H5 & H6 & H7 & H8 & H9 & H10 & H11).
  unfold writeByte_events. cbn [chip_run flash_react elapsed_us].
  rewrite (flash_edge_quiet m) by line_fact.
  do 3 rewrite (flash_edge_quiet _ _ c) by line_fact.
  rewrite (flash_edge_strobe _ _ c) by line_fact.
  rewrite flash_edge_release by line_fact.
  rewrite latched_tick. cbn [latched].
  rewrite flash_write_tick_latched.
  unfold address_bus, data_bus. step_registers.
  rewrite H9, H10, H11. cbn [Z.eqb Pos.eqb andb].
  rewrite !to_byte_idem, join_bytes by exact Ha.
  reflexivity.
Qed.

Lemma writeByte_window a d m :
  write_window m = true -> write_window (run (writeByte_events a d) m) = true.
Proof.
  intros Hm.
  destruct (write_window_bits m Hm)
    as (H1 & H2 & H3 & H4 & H5 & H6 & H7 & H8 & H9 & H10 & H11).
  unfold writeByte_events. bits. use_bits.
  rewrite H9, H10, H11. reflexivity.
Qed.

Lemma writeBytes_chip ws : forall m c,
  write_window m = true -> addresses_ok ws ->
  chip_run (writeBytes_events ws) m c = pulses ws c
  /\ write_window (run (writeBytes_events ws) m) = true.
Proof.
  induction ws as [|[a d] ws IH]; intros m c Hm Hws.
  - split; [reflexivity | exact Hm].
  - inversion Hws as [|? ? Ha Hws']; subst. cbn [fst] in Ha.
    change (writeBytes_events ((a, d) :: ws))
      with (writeByte_events a d ++ writeBytes_events ws).
    rewrite chip_run_app, run_app, writeByte_chip by assumption.
    apply IH; [apply writeByte_window, Hm | exact Hws'].
Qed.

Lemma cycles_tick us c : cycles (flash_tick us c) = cycles c.
Proof.
  unfold flash_tick.
  destruct (mode c) as [| | |ld idle| | | |idle]; try reflexivity.
  - destruct (idle + us <? 10000); reflexivity.
  - destruct (idle + us <? 50000); reflexivity.
Qed.

Lemma cycles_pulses ws : forall c, cycles (pulses ws c) = cycles c ++ write_cycles ws.
Proof.
  induction ws as [|[a d] ws IH]; intros c; cbn [pulses fold_left write_cycles map].
  - now rewrite app_nil_r.
  - fold (pulses ws). rewrite IH. unfold pulse.
    rewrite cycles_tick. cbn [flash_write cycles]. rewrite cycles_tick.
    rewrite <- app_assoc. reflexivity.
Qed.

Lemma captured_bits m :
  captured m = true ->
  bit_of FLASH_CE (DDRD m) = true /\ bit_of FLASH_OE (DDRD m) = true
  /\ bit_of FLASH_WE (DDRD m) = true /\ bit_of BUFFER_OE (DDRD m) = true
  /\ bit_of FLASH_CE (PORTD m) = true /\ bit_of FLASH_OE (PORTD m) = true
  /\ bit_of FLASH_WE (PORTD m) = true /\ bit_of BUFFER_OE (PORTD m) = true.
Proof.
  unfold captured, configured, controller_owns, lines_high, driven.
  rewrite !andb_true_iff. tauto.
Qed.

Lemma buses_out_chip m c :
  captured m = true -> chip_run buses_out m c = c.
Proof.
  intros Hm.
  destruct (captured_bits m Hm) as (H1 & H2 & H3 & H4 & H5 & H6 & H7 & H8).
  unfold buses_out. cbn [chip_run flash_react].
  rewrite (flash_edge_quiet m) by line_fact.
  do 2 rewrite (flash_edge_quiet _ _ c) by line_fact.
  reflexivity.
Qed.

Lemma buses_out_window m :
  captured m = true -> write_window (run buses_out m) = true.
Proof.
  intros Hm.
  destruct (captured_bits m Hm) as (H1 & H2 & H3 & H4 & H5 & H6 & H7 & H8).
  unfold buses_out. bits. use_bits. reflexivity.
Qed.

Lemma buses_release_chip m c :
  write_window m = true -> chip_run buses_release m c = c.
Proof.
  intros Hm.
  destruct (write_window_bits m Hm)
    as (H1 & H2 & H3 & H4 & H5 & H6 & H7 & H8 & H9 & H10 & H11).
  unfold buses_release. cbn [chip_run flash_react].
  rewrite (flash_edge_quiet m) by line_fact.
  do 5 rewrite (flash_edge_quiet _ _ c) by line_fact.
  reflexivity.
Qed.

Lemma buses_release_captured m :
  write_window m = true ->
  captured (run buses_release m) = true
  /\ released_buses (run buses_release m) = true.
Proof.
  intros Hm.
  destruct (write_window_bits m Hm)
    as (H1 & H2 & H3 & H4 & H5 & H6 & H7 & H8 & H9 & H10 & H11).
  unfold buses_release. split.
  - bits. use_bits. reflexivity.
  - reflexivity.
Qed.

Lemma run_quiet e m :
  match e with Assign _ _ | OrAssign _ _ | AndAssign _ _ => False | _ => True end ->
  mcu_step e m = m.
Proof. destruct e; simpl; intros H; (contradiction || reflexivity). Qed.

(** The chip through the unlock sequence, the page load and the pause. *)
Lemma unlock_page c :
  mode c = Ready ->
  pulses page_unlock c
  = mkFlash (cells c) (PageLoad [] 1) None (cycles c ++ write_cycles page_unlock).
Proof.
  destruct c as [mem md lt cy]. cbn [mode]. intros ->.
  unfold page_unlock, pulses, pulse, write_cycles.
  cbn [fold_left map fst snd].
  change (to_byte 170) with 170. change (to_byte 85) with 85.
  change (to_byte 160) with 160.
  cbn. rewrite <- !app_assoc. reflexivity.
Qed.

Lemma pulse_load a d mem ld lt cy :
  pulse a d (mkFlash mem (PageLoad ld 1) lt cy)
  = mkFlash mem (PageLoad (ld ++ [(a, d)]) 1) None
            (cy ++ [WriteCycle (Some a) (Some d)]).
Proof. reflexivity. Qed.

Lemma load_page ws : forall mem ld cy,
  pulses ws (mkFlash mem (PageLoad ld 1) None cy)
  = mkFlash mem (PageLoad (ld ++ map (fun ad => (fst ad, to_byte (snd ad))) ws) 1)
            None (cy ++ write_cycles ws).
Proof.
  induction ws as [|[a d] ws IH]; intros mem ld cy.
  - cbn [pulses fold_left map write_cycles]. now rewrite !app_nil_r.
  - change (pulses ((a, d) :: ws) (mkFlash mem (PageLoad ld 1) None cy))
      with (pulses ws (pulse a (to_byte d) (mkFlash mem (PageLoad ld 1) None cy))).
    rewrite pulse_load, IH. cbn [map write_cycles fst snd].
    rewrite <- !app_assoc. reflexivity.
Qed.

Lemma commit_page mem ld lt cy :
  flash_tick (elapsed_us (Delay 10)) (mkFlash mem (PageLoad ld 1) lt cy)
  = mkFlash (program ld mem) Ready lt cy.
Proof. reflexivity. Qed.

Lemma page_data_ok a src : addresses_ok (page_data a src).
Proof.
  unfold addresses_ok, page_data. apply Forall_map, Forall_forall.
  intros i _. apply to_uint16_range.
Qed.

Lemma page_unlock_ok : addresses_ok page_unlock.
Proof. repeat constructor. Qed.

Lemma writeBytes_window ws : forall m,
  write_window m = true -> write_window (run (writeBytes_events ws) m) = true.
Proof.
  induction ws as [|[a d] ws IH]; intros m Hm; [exact Hm|].
  change (writeBytes_events ((a, d) :: ws))
    with (writeByte_events a d ++ writeBytes_events ws).
  rewrite run_app. apply IH, writeByte_window, Hm.
Qed.

Lemma chip_run_cons e es m c :
  chip_run (e :: es) m c
  = chip_run es (mcu_step e m) (flash_react e m (mcu_step e m) c).
Proof. reflexivity. Qed.

Lemma run_cons e es m : run (e :: es) m = run es (mcu_step e m).
Proof. reflexivity. Qed.

Lemma sequence_run ws pause m :
  captured m = true ->
  captured (run (sequence_events ws pause) m) = true
  /\ released_buses (run (sequence_events ws pause) m) = true.
Proof.
  intros Hm. unfold sequence_events.
  rewrite !run_app, run_cons.
  change (mcu_step (Delay pause) ?x) with x.
  apply buses_release_captured, writeBytes_window, buses_out_window, Hm.
Qed.

Lemma sequence_chip ws pause m c :
  captured m = true -> addresses_ok ws ->
  chip_run (sequence_events ws pause) m c
  = flash_tick (1000 * pause) (pulses ws c).
Proof.
  intros Hm Hws. unfold sequence_events.
  rewrite !chip_run_app, buses_out_chip by exact Hm.
  destruct (writeBytes_chip ws _ c (buses_out_window m Hm) Hws) as [-> Hw].
  rewrite chip_run_cons.
  change (mcu_step (Delay pause) ?x) with x.
  rewrite buses_release_chip by exact Hw. reflexivity.
Qed.

Lemma writePage_sequence a src :
  writePage_events a src
  = Call (WritePage a src)
    :: sequence_events (page_unlock ++ page_data a src) 10.
Proof.
  unfold writePage_events, sequence_events.
  now rewrite writeBytes_events_app, <- !app_assoc.
Qed.

Lemma chipErase_sequence :
  chipErase_events
  = Call ChipErase :: SerialPrintln "Erasing chip..."
    :: sequence_events erase_sequence 50.
Proof. unfold chipErase_events, sequence_events. reflexivity. Qed.

Lemma pulses_app ws1 ws2 c : pulses (ws1 ++ ws2) c = pulses ws2 (pulses ws1 c).
Proof. apply fold_left_app. Qed.

(** Registers and chip after the events of [writePage], entered in a
    captured window. *)
Lemma writePage_run a src m :
  captured m = true ->
  captured (run (writePage_events a src) m) = true
  /\ released_buses (run (writePage_events a src) m) = true.
Proof. rewrite writePage_sequence, run_cons. apply sequence_run. Qed.

Lemma writePage_cycles a src m c :
  captured m = true ->
  cycles (chip_run (writePage_events a src) m c)
  = cycles c ++ write_cycles (page_unlock ++ page_data a src).
Proof.
  intros Hm. rewrite writePage_sequence.
  rewrite chip_run_cons.
  change (mcu_step (Call (WritePage a src)) m) with m.
  change (flash_react (Call (WritePage a src)) m m c) with c.
  rewrite sequence_chip, cycles_tick, cycles_pulses; [reflexivity|exact Hm|].
  apply Forall_app. split; [apply page_unlock_ok | apply page_data_ok].
Qed.

Lemma writePage_chip a src m c :
  captured m = true -> mode c = Ready ->
  chip_run (writePage_events a src) m c
  = mkFlash (program (loaded_bytes (page_data a src)) (cells c)) Ready None
            (cycles c ++ write_cycles (page_unlock ++ page_data a src)).
Proof.
  intros Hm Hc. rewrite writePage_sequence.
  rewrite chip_run_cons.
  change (mcu_step (Call (WritePage a src)) m) with m.
  change (flash_react (Call (WritePage a src)) m m c) with c.
  rewrite sequence_chip; [|exact Hm|].
  2: { apply Forall_app. split; [apply page_unlock_ok | apply page_data_ok]. }
  rewrite pulses_app, unlock_page, load_page by exact Hc.
  unfold write_cycles. rewrite map_app, <- app_assoc.
  reflexivity.
Qed.

(** ** One write cycle *)

(** C4.  [writeByte a d] puts [a] on the address ports and [d] on the
    data port while CE, OE and WE are high, takes CE and WE low with one
    store (OE stays high), waits 1 us, takes CE, OE and WE high again and
    waits 1 us.  In a captured window with the buses in output mode the
    chip sees exactly one write cycle, of [d] at [a]. *)
Theorem writeByte_cycle (a d : Z) (w : board) :
  is_uint16 a = true -> is_byte d = true ->
  let strobe := AndAssign rPORTD (Z.lnot (FLASH_WE .| FLASH_CE)) in
  let raise := OrAssign rPORTD (FLASH_CE .| FLASH_OE .| FLASH_WE) in
  let loaded := run [raise; Assign rPORTA (to_byte a);
                     Assign rPORTB (to_byte (Z.shiftr a 8));
                     Assign rPORTC (to_byte d)] (hw w) in
  let held := mcu_step strobe loaded in
  exists w',
    writeByte a d w = Done tt w'
    /\ log w' = log w ++ [ Call (WriteByte a d);
                           raise;
                           Assign rPORTA (to_byte a);
                           Assign rPORTB (to_byte (Z.shiftr a 8));
                           Assign rPORTC (to_byte d);
                           strobe;
                           DelayMicroseconds 1;
                           raise;
                           DelayMicroseconds 1 ]
    /\ hw w' = mcu_step raise held
    (* address and data on the ports, all three lines high *)
    /\ Z.lor (Z.shiftl (PORTB loaded) 8) (PORTA loaded) = a
    /\ PORTC loaded = d
    /\ lines_high loaded = true
    (* the strobe: CE and WE low together, OE high, ports unchanged *)
    /\ bit_of FLASH_CE (PORTD held) = false
    /\ bit_of FLASH_WE (PORTD held) = false
    /\ bit_of FLASH_OE (PORTD held) = true
    /\ (PORTA held, PORTB held, PORTC held)
       = (PORTA loaded, PORTB loaded, PORTC loaded)
    (* both waits are at least one microsecond *)
    /\ 1 <= elapsed_us (DelayMicroseconds 1)
    (* afterwards all three lines are high again *)
    /\ lines_high (hw w') = true
    (* as the chip sees it *)
    /\ (write_window (hw w) = true ->
        write_cycle loaded = false
        /\ write_cycle held = true
        /\ address_bus held = Some a
        /\ data_bus held = Some d
        /\ write_cycle (hw w') = false
        /\ write_window (hw w') = true
        /\ cycles (chip w')
           = cycles (chip w) ++ [WriteCycle (Some a) (Some d)]).
Proof.
  intros Ha Hd strobe raise loaded held.
  subst held loaded strobe raise.
  exists (replay (writeByte_events a d) w).
  split; [apply writeByte_emits|].
  rewrite log_replay, hw_replay, chip_replay.
  split; [reflexivity|]. split; [reflexivity|].
  split. { step_registers. rewrite !to_byte_idem. apply join_bytes, Ha. }
  split. { step_registers. rewrite to_byte_idem. apply to_byte_small, Hd. }
  split. { line_fact. }
  split. { line_fact. }
  split. { line_fact. }
  split. { line_fact. }
  split; [reflexivity|].
  split. { cbn. lia. }
  split. { unfold writeByte_events. line_fact. }
  intros Hw.
  destruct (write_window_bits (hw w) Hw)
    as (H1 & H2 & H3 & H4 & H5 & H6 & H7 & H8 & H9 & H10 & H11).
  split. { line_fact. }
  split. { line_fact. }
  split.
  { unfold address_bus. step_registers.
    rewrite H9, H10. cbn [Z.eqb Pos.eqb andb].
    rewrite !to_byte_idem, join_bytes by exact Ha. reflexivity. }
  split.
  { unfold data_bus. step_registers.
    rewrite H11. cbn [Z.eqb Pos.eqb].
    rewrite to_byte_idem, to_byte_small by exact Hd. reflexivity. }
  split. { unfold writeByte_events. line_fact. }
  split. { apply writeByte_window, Hw. }
  rewrite writeByte_chip by assumption.
  unfold pulse. rewrite cycles_tick. cbn [flash_write cycles].
  rewrite cycles_tick, to_byte_small by exact Hd. reflexivity.
Qed.

Lemma writeByte_cycle_witness :
  is_uint16 0x5555 = true /\ is_byte 0xAA = true
  /\ write_window (hw write_bench) = true
  /\ exists w',
       writeByte 0x5555 0xAA write_bench = Done tt w'
       /\ cycles (chip w') = [WriteCycle (Some 0x5555) (Some 0xAA)]
       /\ mode (chip w') = Unlock1.
Proof.
  split; [reflexivity|]. split; [reflexivity|]. split; [reflexivity|].
  destruct (writeByte_cycle 0x5555 0xAA write_bench eq_refl eq_refl)
    as (w' & Hrun & _ & _ & _ & _ & _ & _ & _ & _ & _ & _ & _ & Hseen).
  destruct (Hseen eq_refl) as (_ & _ & _ & _ & _ & _ & Hcycles).
  exists w'. split; [exact Hrun|]. split; [exact Hcycles|].
  assert (Hw : w' = replay (writeByte_events 0x5555 0xAA) write_bench)
    by (rewrite writeByte_emits in Hrun; congruence).
  rewrite Hw. reflexivity.
Defined.

(** ** The page write sequence *)

Lemma chipErase_cycles m c :
  captured m = true ->
  cycles (chip_run chipErase_events m c)
  = cycles c ++ write_cycles erase_sequence.
Proof.
  intros Hm. rewrite chipErase_sequence, !chip_run_cons.
  change (mcu_step (Call ChipErase) m) with m.
  change (flash_react (Call ChipErase) m m c) with c.
  change (mcu_step (SerialPrintln "Erasing chip...") m) with m.
  change (flash_react (SerialPrintln "Erasing chip...") m m c) with c.
  rewrite sequence_chip, cycles_tick, cycles_pulses;
    [reflexivity | exact Hm | repeat constructor].
Qed.

Lemma chipErase_chip m c :
  captured m = true -> mode c = Ready ->
  chip_run chipErase_events m c
  = mkFlash erased Ready None (cycles c ++ write_cycles erase_sequence).
Proof.
  intros Hm Hc. rewrite chipErase_sequence, !chip_run_cons.
  change (mcu_step (Call ChipErase) m) with m.
  change (flash_react (Call ChipErase) m m c) with c.
  change (mcu_step (SerialPrintln "Erasing chip...") m) with m.
  change (flash_react (SerialPrintln "Erasing chip...") m m c) with c.
  rewrite sequence_chip; [|exact Hm|repeat constructor].
  destruct c as [mem md lt cy]. cbn [mode] in Hc. subst md.
  unfold erase_sequence, pulses, pulse, write_cycles.
  cbn [fold_left map fst snd].
  change (to_byte 170) with 170. change (to_byte 85) with 85.
  change (to_byte 128) with 128. change (to_byte 16) with 16.
  cbn. rewrite <- !app_assoc. reflexivity.
Qed.

(** C2.  [writePage] goes through exactly these events: buses to output,
    the three unlock writes, the 128 data writes at [address + i] (in
    16-bit arithmetic) with [src[i]] for i = 0 .. 127 in that order, a
    10 ms delay, and the release of the buses.  In a captured window the
    chip sees exactly these 131 write cycles and nothing else. *)
Theorem writePage_sequence_exact (address : Z) (src : list Z) (w : board) :
  let unlock := [ (0x5555, 0xAA); (0x2AAA, 0x55); (0x5555, 0xA0) ] in
  let data :=
    map (fun i => (to_uint16 (address + i), index src i))
        (indices (Z.to_nat PAGE_SIZE) 0) in
  exists w',
    writePage address src w = Done tt w'
    /\ log w' = log w
                ++ Call (WritePage address src)
                   :: [ Assign rDDRA 255; Assign rDDRB 255; Assign rDDRC 255 ]
                ++ writeBytes_events unlock
                ++ writeBytes_events data
                ++ Delay 10
                   :: [ Assign rDDRA 0; Assign rDDRB 0; Assign rDDRC 0;
                        Assign rPORTA 0; Assign rPORTB 0; Assign rPORTC 0 ]
    /\ calls (writePage_events address src)
       = WritePage address src :: writeByte_calls (unlock ++ data)
    /\ length data = 128%nat
    /\ 10000 <= elapsed_us (Delay 10)
    /\ (0 <= address -> address + 127 < 65536 ->
        map fst data = map (fun i => address + i)
                           (indices (Z.to_nat PAGE_SIZE) 0))
    /\ (captured (hw w) = true ->
        cycles (chip w') = cycles (chip w) ++ write_cycles (unlock ++ data)).
Proof.
  intros unlock data.
  exists (replay (writePage_events address src) w).
  split; [apply writePage_emits|].
  rewrite log_replay, chip_replay.
  split; [reflexivity|].
  split; [apply calls_writePage|].
  split. { unfold data. now rewrite length_map, length_indices. }
  split. { cbn. lia. }
  split.
  { intros H0 H1. unfold data. rewrite map_map. cbn [fst].
    apply map_ext_in. intros i Hi. apply in_indices in Hi.
    unfold to_uint16. apply Z.mod_small.
    change (Z.of_nat (Z.to_nat PAGE_SIZE)) with 128 in Hi. lia. }
  intros Hm. apply (writePage_cycles address src (hw w) (chip w) Hm).
Qed.

Lemma writePage_sequence_exact_witness :
  captured (hw bench) = true
  /\ exists w',
       writePage 0x0180 sample_page bench = Done tt w'
       /\ cycles (chip w')
          = write_cycles ([ (0x5555, 0xAA); (0x2AAA, 0x55); (0x5555, 0xA0) ]
                            ++ map (fun i => (0x0180 + i, (7 * i + 3) mod 256))
                                   (indices 128 0)).
Proof.
  split; [reflexivity|].
  destruct (writePage_sequence_exact 0x0180 sample_page bench)
    as (w' & Hrun & _ & _ & _ & _ & _ & Hseen).
  exists w'. split; [exact Hrun|].
  rewrite (Hseen eq_refl). vm_compute. reflexivity.
Defined.

(** ** The chip erase sequence *)

(** C3.  [chipErase] goes through exactly these events, whatever the
    board: the message, buses to output, the six writes 0xAA, 0x55, 0x80,
    0xAA, 0x55, 0x10 at 0x5555, 0x2AAA, 0x5555, 0x5555, 0x2AAA, 0x5555,
    a 50 ms delay, and the release of the buses.  It takes no argument
    and no recorded event depends on the board it starts from.  In a
    captured window the chip sees exactly the six write cycles. *)
Theorem chipErase_sequence_exact (w : board) :
  let sequence := [ (0x5555, 0xAA); (0x2AAA, 0x55); (0x5555, 0x80);
                    (0x5555, 0xAA); (0x2AAA, 0x55); (0x5555, 0x10) ] in
  exists w',
    chipErase w = Done tt w'
    /\ log w' = log w
                ++ Call ChipErase :: SerialPrintln "Erasing chip..."
                   :: [ Assign rDDRA 255; Assign rDDRB 255; Assign rDDRC 255 ]
                ++ writeBytes_events sequence
                ++ Delay 50
                   :: [ Assign rDDRA 0; Assign rDDRB 0; Assign rDDRC 0;
                        Assign rPORTA 0; Assign rPORTB 0; Assign rPORTC 0 ]
    /\ calls chipErase_events = ChipErase :: writeByte_calls sequence
    /\ 50000 <= elapsed_us (Delay 50)
    /\ (captured (hw w) = true ->
        cycles (chip w') = cycles (chip w) ++ write_cycles sequence)
    /\ (captured (hw w) = true -> mode (chip w) = Ready ->
        cells (chip w') = erased /\ mode (chip w') = Ready).
Proof.
  intros sequence.
  exists (replay chipErase_events w).
  split; [apply chipErase_emits|].
  rewrite log_replay, chip_replay.
  split; [reflexivity|]. split; [reflexivity|].
  split. { cbn. lia. }
  split.
  - intros Hm. apply (chipErase_cycles (hw w) (chip w) Hm).
  - intros Hm Hc. rewrite (chipErase_chip (hw w) (chip w) Hm Hc).
    split; reflexivity.
Qed.

Lemma chipErase_sequence_exact_witness :
  captured (hw bench) = true /\ mode (chip bench) = Ready
  /\ exists w',
       chipErase bench = Done tt w'
       /\ cycles (chip w')
          = write_cycles [ (0x5555, 0xAA); (0x2AAA, 0x55); (0x5555, 0x80);
                           (0x5555, 0xAA); (0x2AAA, 0x55); (0x5555, 0x10) ]
       /\ cells (chip w') = erased.
Proof.
  split; [reflexivity|]. split; [reflexivity|].
  destruct (chipErase_sequence_exact bench)
    as (w' & Hrun & _ & _ & _ & Hseen & Hdone).
  exists w'. split; [exact Hrun|].
  split; [exact (Hseen eq_refl) | exact (proj1 (Hdone eq_refl eq_refl))].
Defined.

(** ** Reading *)

Lemma read_window_bits m :
  read_window m = true ->
  bit_of FLASH_CE (DDRD m) = true /\ bit_of FLASH_OE (DDRD m) = true
  /\ bit_of FLASH_WE (DDRD m) = true /\ bit_of BUFFER_OE (DDRD m) = true
  /\ bit_of FLASH_CE (PORTD m) = true /\ bit_of FLASH_OE (PORTD m) = true
  /\ bit_of FLASH_WE (PORTD m) = true /\ bit_of BUFFER_OE (PORTD m) = true
  /\ DDRC m = 0.
Proof.
  unfold read_window. rewrite andb_true_iff, Z.eqb_eq. intros [H ->].
  pose proof (captured_bits m H). tauto.
Qed.

Lemma flash_edge_read before after c :
  write_cycle before = false -> write_cycle after = false ->
  read_cycle before = false -> read_cycle after = true ->
  flash_edge before after c
  = mkFlash (cells c) (mode c) (latched c)
            (cycles c ++ [ReadCycle (address_bus after)]).
Proof.
  intros H1 H2 H3 H4. unfold flash_edge. rewrite H1, H2, H3, H4. reflexivity.
Qed.

Lemma flash_tick_ready us c : mode c = Ready -> flash_tick us c = c.
Proof. unfold flash_tick. now intros ->. Qed.

Lemma readByte_setup_chip a m c :
  read_window m = true -> is_uint16 a = true -> mode c = Ready ->
  chip_run (readByte_setup a) m c
  = mkFlash (cells c) Ready (latched c) (cycles c ++ [ReadCycle (Some a)]).
Proof.
  intros Hm Ha Hc.
  destruct (read_window_bits m Hm) as (H1 & H2 & H3 & H4 & H5 & H6 & H7 & H8 & H9).
  unfold readByte_setup. rewrite !chip_run_cons.
  cbn [flash_react elapsed_us chip_run].
  change (mcu_step (Call (ReadByte a)) m) with m.
  rewrite (flash_edge_quiet m) by line_fact.
  do 4 rewrite (flash_edge_quiet _ _ c) by line_fact.
  rewrite (flash_tick_ready _ c) by exact Hc.
  rewrite flash_edge_read by line_fact.
  rewrite flash_tick_ready by exact Hc.
  unfold address_bus. step_registers. cbn [Z.eqb Pos.eqb andb to_byte].
  change (255 mod 256) with 255. cbn [Z.eqb Pos.eqb andb].
  rewrite !to_byte_idem, join_bytes by exact Ha. rewrite Hc.
  reflexivity.
Qed.

Lemma readByte_setup_pins a m :
  read_window m = true -> is_uint16 a = true ->
  let m' := run (readByte_setup a) m in
  read_cycle m' = true /\ bit_of FLASH_WE (PORTD m') = true
  /\ address_bus m' = Some a /\ DDRC m' = 0.
Proof.
  intros Hm Ha.
  destruct (read_window_bits m Hm) as (H1 & H2 & H3 & H4 & H5 & H6 & H7 & H8 & H9).
  unfold readByte_setup. cbn zeta.
  split; [line_fact|]. split; [line_fact|]. split.
  - unfold address_bus. step_registers. change (to_byte 255) with 255.
    cbn [Z.eqb Pos.eqb andb].
    rewrite !to_byte_idem, join_bytes by exact Ha. reflexivity.
  - step_registers. exact H9.
Qed.

Lemma readByte_finish_chip v m c :
  read_cycle m = true ->
  bit_of FLASH_WE (PORTD m) = true ->
  chip_run (Sample v :: readByte_finish) m c = c.
Proof.
  intros Hm Hwe. unfold read_cycle, asserted, driven in Hm.
  rewrite !andb_true_iff, !negb_true_iff in Hm.
  destruct Hm as [[[H1 H2] [H3 H4]] H5].
  unfold readByte_finish. rewrite !chip_run_cons.
  cbn [flash_react chip_run]. change (mcu_step (Sample v) m) with m.
  rewrite (flash_edge_quiet m) by line_fact.
  do 4 rewrite (flash_edge_quiet _ _ c) by line_fact.
  reflexivity.
Qed.

Lemma readByte_run a v m :
  read_window m = true -> read_window (run (readByte_events a v) m) = true.
Proof.
  intros Hm.
  destruct (read_window_bits m Hm) as (H1 & H2 & H3 & H4 & H5 & H6 & H7 & H8 & H9).
  unfold readByte_events, readByte_setup, readByte_finish. cbn [app].
  unfold read_window. bits. use_bits. rewrite H9. reflexivity.
Qed.

(** [readByte] in a read window returns the addressed cell and leaves
    the window and the chip's contents as they were. *)
Lemma readByte_board a w :
  read_window (hw w) = true -> is_uint16 a = true -> mode (chip w) = Ready ->
  exists w',
    readByte a w = Done (cells (chip w) a) w'
    /\ read_window (hw w') = true
    /\ cells (chip w') = cells (chip w)
    /\ mode (chip w') = Ready
    /\ cycles (chip w') = cycles (chip w) ++ [ReadCycle (Some a)]
    /\ log w' = log w ++ readByte_events a (cells (chip w) a)
    /\ rx w' = rx w.
Proof.
  intros Hm Ha Hc.
  destruct (readByte_setup_pins a (hw w) Hm Ha) as (Hrd & Hwe & Hab & Hdc).
  pose proof (readByte_setup_chip a (hw w) (chip w) Hm Ha Hc) as Hchip.
  assert (Hv : PINC (replay (readByte_setup a) w) = cells (chip w) a).
  { unfold PINC, flash_out. rewrite hw_replay, chip_replay.
    rewrite Hdc, Hrd, Hab, Hchip. reflexivity. }
  pose proof (readByte_replay a w) as Hr. cbn zeta in Hr. rewrite Hv in Hr.
  eexists. split; [exact Hr|].
  rewrite hw_replay, chip_replay, log_replay, rx_replay.
  split; [apply readByte_run, Hm|].
  unfold readByte_events. rewrite chip_run_app.
  rewrite readByte_finish_chip, Hchip by assumption.
  repeat split.
Qed.

Lemma readBytes_board addresses : forall w,
  read_window (hw w) = true -> mode (chip w) = Ready ->
  Forall (fun a => is_uint16 a = true) addresses ->
  exists w',
    readBytes addresses w = Done (map (cells (chip w)) addresses) w'
    /\ read_window (hw w') = true
    /\ cells (chip w') = cells (chip w)
    /\ mode (chip w') = Ready
    /\ cycles (chip w')
       = cycles (chip w) ++ map (fun a => ReadCycle (Some a)) addresses.
Proof.
  induction addresses as [|a rest IH]; intros w Hm Hc Has.
  - exists w. cbn [map]. rewrite app_nil_r. repeat split; assumption.
  - inversion Has as [|? ? Ha Hrest]; subst.
    destruct (readByte_board a w Hm Ha Hc)
      as (w1 & Hr & Hm1 & Hcells1 & Hc1 & Hcy1 & _ & _).
    destruct (IH w1 Hm1 Hc1 Hrest) as (w2 & Hr2 & Hm2 & Hcells2 & Hc2 & Hcy2).
    exists w2. cbn [readBytes]. unfold mbind, M_bind, bind.
    rewrite Hr, Hr2, Hcells1. cbn [map].
    repeat split; try assumption.
    + congruence.
    + rewrite Hcy2, Hcy1, <- app_assoc. reflexivity.
Qed.

(** ** Write, then read back *)

Lemma program_cons a d ws mem :
  program ((a, d) :: ws) mem = program ws (store a d mem).
Proof. reflexivity. Qed.

Lemma program_other ws : forall mem x,
  ~ In x (map fst ws) -> program ws mem x = mem x.
Proof.
  induction ws as [|[a d] ws IH]; intros mem x Hx; [reflexivity|].
  rewrite program_cons, IH.
  - unfold store. destruct (Z.eqb_spec x a) as [->|]; [|reflexivity].
    exfalso. apply Hx. now left.
  - intros H. apply Hx. now right.
Qed.

Lemma program_read ws : forall mem,
  List.NoDup (map fst ws) ->
  map (program ws mem) (map fst ws) = map snd ws.
Proof.
  induction ws as [|[a d] ws IH]; intros mem Hnd; [reflexivity|].
  cbn [map fst snd] in *. apply List.NoDup_cons_iff in Hnd as [Ha Hnd].
  rewrite program_cons. f_equal.
  - rewrite program_other by exact Ha. unfold store. now rewrite Z.eqb_refl.
  - apply IH, Hnd.
Qed.

Lemma to_uint16_apart a i j :
  i < j < i + 65536 -> to_uint16 (a + i) <> to_uint16 (a + j).
Proof.
  unfold to_uint16. intros Hij Heq.
  pose proof (Z.div_mod (a + i) 65536 ltac:(lia)).
  pose proof (Z.div_mod (a + j) 65536 ltac:(lia)).
  lia.
Qed.

Lemma NoDup_addresses a n : forall i,
  Z.of_nat n <= 65536 ->
  List.NoDup (map (fun i => to_uint16 (a + i)) (indices n i)).
Proof.
  induction n as [|n IH]; intros i Hn; cbn [indices map].
  - constructor.
  - constructor; [|apply IH; lia].
    rewrite in_map_iff. intros (j & Hj & Hin).
    apply in_indices in Hin.
    apply (to_uint16_apart a i j); [lia | congruence].
Qed.

Lemma map_index src : forall pre,
  map (index (pre ++ src)) (indices (length src) (Z.of_nat (length pre))) = src.
Proof.
  induction src as [|x src IH]; intros pre; [reflexivity|].
  cbn [length indices map]. f_equal.
  - unfold index. rewrite Nat2Z.id, nth_middle. reflexivity.
  - replace (Z.of_nat (length pre) + 1) with (Z.of_nat (length (pre ++ [x])))
      by (rewrite length_app; cbn [length]; lia).
    replace (pre ++ x :: src) with ((pre ++ [x]) ++ src)
      by (now rewrite <- app_assoc).
    apply IH.
Qed.

Lemma map_index_all src : map (index src) (indices (length src) 0) = src.
Proof. apply (map_index src []). Qed.

Lemma map_to_byte_small src :
  Forall (fun d => is_byte d = true) src -> map to_byte src = src.
Proof.
  induction 1 as [|d src Hd _ IH]; cbn [map]; [reflexivity|].
  now rewrite IH, to_byte_small.
Qed.

(** C9.  Write then read back: in a captured window with the chip ready
    for a command, [writePage] of 128 bytes at any base address followed
    by [readByte] of the 128 addresses base+0 .. base+127 (in the 16-bit
    address arithmetic of the sketch) returns the bytes written. *)
Theorem page_round_trip (address : Z) (src : list Z) (w : board) :
  captured (hw w) = true ->
  mode (chip w) = Ready ->
  is_uint16 address = true ->
  length src = Z.to_nat PAGE_SIZE ->
  Forall (fun d => is_byte d = true) src ->
  exists w',
    (writePage address src;; readBytes (page_addresses address)) w
    = Done src w'.
Proof.
  intros Hm Hc Ha Hlen Hsrc.
  unfold mbind, M_bind, bind. rewrite writePage_emits.
  set (w1 := replay (writePage_events address src) w).
  destruct (writePage_run address src (hw w) Hm) as [Hcap Hrel].
  assert (Hrw : read_window (hw w1) = true).
  { unfold w1. rewrite hw_replay. unfold read_window.
    rewrite Hcap. unfold released_buses in Hrel.
    rewrite !andb_true_iff in Hrel. tauto. }
  assert (Hchip : chip w1 = _) by
    (unfold w1; rewrite chip_replay; apply (writePage_chip _ _ _ _ Hm Hc)).
  assert (Hready : mode (chip w1) = Ready) by now rewrite Hchip.
  destruct (readBytes_board (page_addresses address) w1 Hrw Hready)
    as (w2 & Hr & _).
  { unfold page_addresses. apply Forall_map, Forall_forall.
    intros i _. apply to_uint16_range. }
  exists w2. rewrite Hr. f_equal.
  rewrite Hchip. cbn [cells].
  assert (Hfst : page_addresses address
                 = map fst (loaded_bytes (page_data address src))).
  { unfold page_addresses, loaded_bytes, page_data. rewrite !map_map. reflexivity. }
  rewrite Hfst, program_read.
  - unfold loaded_bytes, page_data. rewrite !map_map. cbn [snd].
    rewrite <- (map_map (index src) to_byte), <- Hlen, map_index_all.
    apply map_to_byte_small, Hsrc.
  - rewrite <- Hfst. apply NoDup_addresses. unfold PAGE_SIZE. lia.
Qed.

Lemma sample_page_bytes : Forall (fun d => is_byte d = true) sample_page.
Proof.
  unfold sample_page. apply Forall_map, Forall_forall. intros i _.
  apply (to_byte_range (7 * i + 3)).
Qed.

Lemma page_round_trip_witness :
  captured (hw bench) = true /\ mode (chip bench) = Ready
  /\ is_uint16 0x0180 = true
  /\ length sample_page = Z.to_nat PAGE_SIZE
  /\ exists w',
       (writePage 0x0180 sample_page;; readBytes (page_addresses 0x0180)) bench
       = Done sample_page w'.
Proof.
  split; [reflexivity|]. split; [reflexivity|]. split; [reflexivity|].
  split; [reflexivity|].
  apply (page_round_trip 0x0180 sample_page bench);
    try reflexivity.
  apply sample_page_bytes.
Defined.

(** ** Decoding hex digits *)

(** C8.  [ascToNibble] maps '0'..'9' to 0..9, 'a'..'f' and 'A'..'F' to
    10..15, and every other byte to 0. *)
Theorem ascToNibble_spec (v : Z) :
  (chr "0" <= v <= chr "9" -> ascToNibble v = v - chr "0")
  /\ (chr "a" <= v <= chr "f" -> ascToNibble v = v - chr "a" + 10)
  /\ (chr "A" <= v <= chr "F" -> ascToNibble v = v - chr "A" + 10)
  /\ (~ chr "0" <= v <= chr "9" -> ~ chr "a" <= v <= chr "f" ->
      ~ chr "A" <= v <= chr "F" -> ascToNibble v = 0)
  /\ 0 <= ascToNibble v <= 15.
Proof.
  unfold ascToNibble, to_byte.
  change (chr "0") with 48. change (chr "9") with 57.
  change (chr "a") with 97. change (chr "f") with 102.
  change (chr "A") with 65. change (chr "F") with 70.
  destruct (Z.geb_spec v 48), (Z.leb_spec v 57), (Z.geb_spec v 97),
    (Z.leb_spec v 102), (Z.geb_spec v 65), (Z.leb_spec v 70);
    cbn [andb];
    repeat split; intros; try lia; try (rewrite Z.mod_small; lia).
Qed.

Lemma ascToNibble_spec_witness :
  ascToNibble (chr "7") = 7 /\ ascToNibble (chr "c") = 12
  /\ ascToNibble (chr "E") = 14 /\ ascToNibble (chr "g") = 0.
Proof.
  split; [|split; [|split]].
  - apply (proj1 (ascToNibble_spec (chr "7"))). vm_compute. split; discriminate.
  - apply (proj1 (proj2 (ascToNibble_spec (chr "c")))).
    vm_compute. split; discriminate.
  - apply (proj1 (proj2 (proj2 (ascToNibble_spec (chr "E"))))).
    vm_compute. split; discriminate.
  - apply (proj1 (proj2 (proj2 (proj2 (ascToNibble_spec (chr "g"))))));
      vm_compute; intros [H1 H2]; (now apply H1 || now apply H2).
Defined.

(** ** Collecting a page from the serial line *)

Lemma plain_byte c : plain c = true -> to_byte c = c /\ (c =? chr "*") = false.
Proof.
  unfold plain. rewrite andb_true_iff, negb_true_iff. intros [Hb Hs].
  split; [apply to_byte_small, Hb | exact Hs].
Qed.

Lemma readSerial_next c input w :
  rx w = c :: input -> readSerial w = Done (to_byte c) (set_rx input w).
Proof. unfold readSerial. now intros ->. Qed.

Lemma readSerial_none w : rx w = [] -> readSerial w = Blocked w.
Proof. unfold readSerial. now intros ->. Qed.

Lemma collect_step fuel i buffer h l input w :
  (i <? PAGE_SIZE) = true -> plain h = true -> plain l = true ->
  rx w = h :: l :: input ->
  collect (S fuel) i buffer w
  = collect fuel (to_byte (i + 1))
            (<[Z.to_nat i := hex_byte h l]> buffer) (set_rx input w).
Proof.
  intros Hi Hh Hl Hrx.
  destruct (plain_byte h Hh) as [Hhb Hhs], (plain_byte l Hl) as [Hlb Hls].
  cbn [collect]. rewrite Hi. unfold mbind, M_bind, bind.
  rewrite (readSerial_next h (l :: input) w Hrx), Hhb, Hhs.
  rewrite (readSerial_next l input (set_rx (l :: input) w) eq_refl), Hlb, Hls.
  reflexivity.
Qed.

Lemma collect_pairs pairs : forall done fuel input w,
  plain_pairs pairs ->
  (length done + length pairs <= Z.to_nat PAGE_SIZE)%nat ->
  rx w = hex_chars pairs ++ input ->
  collect (length pairs + fuel) (Z.of_nat (length done))
          (done ++ zeros (Z.to_nat PAGE_SIZE - length done)) w
  = collect fuel (Z.of_nat (length done + length pairs))
            ((done ++ decoded pairs)
               ++ zeros (Z.to_nat PAGE_SIZE - (length done + length pairs)))
            (set_rx input w).
Proof.
  induction pairs as [|[h l] pairs IH]; intros done fuel input w Hp Hlen Hrx.
  - cbn [length decoded map hex_chars app] in *.
    rewrite Nat.add_0_r, app_nil_r.
    destruct w as [m c r lg]. cbn in Hrx. subst r. reflexivity.
  - inversion Hp as [|? ? [Hh Hl] Hp']; subst. cbn [fst snd] in Hh, Hl.
    cbn [length hex_chars] in *.
    change (S (length pairs) + fuel)%nat with (S (length pairs + fuel)).
    change (Z.to_nat PAGE_SIZE) with 128%nat in *.
    rewrite (collect_step _ _ _ h l (hex_chars pairs ++ input)); try assumption.
    2: { apply Z.ltb_lt. unfold PAGE_SIZE. lia. }
    rewrite Nat2Z.id.
    replace (to_byte (Z.of_nat (length done) + 1))
      with (Z.of_nat (length (done ++ [hex_byte h l]))).
    2: { rewrite length_app. cbn [length]. unfold to_byte.
         rewrite Z.mod_small; lia. }
    replace (<[length done := hex_byte h l]>
               (done ++ zeros (128 - length done)))
      with ((done ++ [hex_byte h l])
              ++ zeros (128 - length (done ++ [hex_byte h l]))).
    2: { rewrite length_app. cbn [length].
         replace (128 - length done)%nat with (S (128 - (length done + 1)))
           by lia.
         unfold zeros. cbn [replicate].
         rewrite insert_app_r_alt, Nat.sub_diag by lia.
         cbn. now rewrite <- app_assoc. }
    rewrite (IH (done ++ [hex_byte h l]) fuel input (set_rx _ w)); try assumption.
    + rewrite length_app. cbn [length decoded map fst snd].
      replace (length done + 1 + length pairs)%nat
        with (length done + S (length pairs))%nat by lia.
      rewrite <- !app_assoc. reflexivity.
    + rewrite length_app. cbn [length]. lia.
    + reflexivity.
Qed.

Lemma collect_sentinel fuel i buffer rest w :
  (i <? PAGE_SIZE) = true -> rx w = chr "*" :: rest ->
  collect (S fuel) i buffer w = Done buffer (set_rx rest w).
Proof.
  intros Hi Hrx. cbn [collect]. rewrite Hi. unfold mbind, M_bind, bind.
  rewrite (readSerial_next _ rest w Hrx). reflexivity.
Qed.

Lemma collect_half fuel i buffer h rest w :
  (i <? PAGE_SIZE) = true -> plain h = true -> rx w = h :: chr "*" :: rest ->
  collect (S fuel) i buffer w = Done buffer (set_rx rest w).
Proof.
  intros Hi Hh Hrx. destruct (plain_byte h Hh) as [Hhb Hhs].
  cbn [collect]. rewrite Hi. unfold mbind, M_bind, bind.
  rewrite (readSerial_next h _ w Hrx), Hhb, Hhs.
  rewrite (readSerial_next _ rest (set_rx _ w) eq_refl). reflexivity.
Qed.

Lemma collect_full fuel buffer w :
  collect fuel PAGE_SIZE buffer w = Done buffer w.
Proof. destruct fuel; reflexivity. Qed.

Lemma collect_starved fuel i buffer w :
  (i <? PAGE_SIZE) = true -> rx w = [] ->
  collect (S fuel) i buffer w = Blocked w.
Proof.
  intros Hi Hrx. cbn [collect]. rewrite Hi. unfold mbind, M_bind, bind.
  now rewrite (readSerial_none w Hrx).
Qed.

Lemma writePageHex_collect page w :
  writePageHex page w
  = match collect (S (Z.to_nat PAGE_SIZE)) 0 (zeros (Z.to_nat PAGE_SIZE))
            (replay captureOwnership_events w) with
    | Done buffer w' => Done tt (replay (writePageHex_events page buffer) w')
    | Blocked w' => Blocked w'
    end.
Proof.
  unfold writePageHex, mbind, M_bind, bind. rewrite captureOwnership_emits.
  fold (zeros (Z.to_nat PAGE_SIZE)).
  destruct (collect _ _ _ _) as [buffer w'|w']; [|reflexivity].
  unfold Serial_print, Serial_println, emit.
  rewrite writePage_emits, releaseOwnership_emits.
  unfold writePageHex_events.
  rewrite !replay_cons, replay_app. reflexivity.
Qed.

Lemma calls_writePageHex page buffer :
  calls (writePageHex_events page buffer)
  = WritePage (to_uint16 (page * PAGE_SIZE)) buffer
    :: writeByte_calls (page_unlock
                          ++ page_data (to_uint16 (page * PAGE_SIZE)) buffer)
    ++ [ReleaseOwnership].
Proof.
  unfold writePageHex_events.
  change (SerialPrint ?a :: SerialPrintln ?b :: ?l)
    with ([SerialPrint a; SerialPrintln b] ++ l).
  rewrite !calls_app, calls_writePage. reflexivity.
Qed.

Lemma page_data_bytes a buffer :
  length buffer = Z.to_nat PAGE_SIZE -> map snd (page_data a buffer) = buffer.
Proof.
  intros Hlen. unfold page_data. rewrite map_map. cbn [snd].
  rewrite <- Hlen. apply map_index_all.
Qed.

Lemma length_padded pairs :
  (length pairs <= Z.to_nat PAGE_SIZE)%nat ->
  length (decoded pairs ++ zeros (Z.to_nat PAGE_SIZE - length pairs))
  = Z.to_nat PAGE_SIZE.
Proof.
  intros H. unfold decoded, zeros.
  rewrite length_app, length_map, length_replicate. lia.
Qed.

Lemma collect_short pairs tail rest w :
  plain_pairs pairs -> (length pairs < Z.to_nat PAGE_SIZE)%nat ->
  ending tail -> rx w = hex_chars pairs ++ tail ++ rest ->
  collect (S (Z.to_nat PAGE_SIZE)) 0 (zeros (Z.to_nat PAGE_SIZE)) w
  = Done (padded pairs) (set_rx rest w).
Proof.
  intros Hp Hlen Hend Hrx.
  pose proof (collect_pairs pairs [] (S (Z.to_nat PAGE_SIZE) - length pairs)
                (tail ++ rest) w Hp) as H.
  cbn [length app Nat.add] in H. change (Z.of_nat 0) with 0 in H.
  rewrite Nat.sub_0_r in H.
  replace (length pairs + (S (Z.to_nat PAGE_SIZE) - length pairs))%nat
    with (S (Z.to_nat PAGE_SIZE)) in H by lia.
  rewrite H; [|lia|exact Hrx]. clear H.
  replace (S (Z.to_nat PAGE_SIZE) - length pairs)%nat
    with (S (Z.to_nat PAGE_SIZE - length pairs)) by lia.
  assert (Hi : (Z.of_nat (length pairs) <? PAGE_SIZE) = true).
  { apply Z.ltb_lt. change (Z.to_nat PAGE_SIZE) with 128%nat in Hlen.
    unfold PAGE_SIZE. lia. }
  destruct Hend as [->|(h & Hh & ->)].
  - rewrite (collect_sentinel _ _ _ rest) by (assumption || reflexivity).
    reflexivity.
  - rewrite (collect_half _ _ _ h rest) by (assumption || reflexivity).
    reflexivity.
Qed.

Lemma writePageHex_short page pairs tail rest w :
  plain_pairs pairs -> (length pairs < Z.to_nat PAGE_SIZE)%nat ->
  ending tail -> rx w = hex_chars pairs ++ tail ++ rest ->
  writePageHex page w
  = Done tt (replay (writePageHex_events page (padded pairs))
                    (set_rx rest (replay captureOwnership_events w))).
Proof.
  intros Hp Hlen Hend Hrx. rewrite writePageHex_collect.
  rewrite (collect_short pairs tail rest)
    by (assumption || now rewrite rx_replay).
  reflexivity.
Qed.

Lemma index_padded pairs :
  index (padded pairs) (Z.of_nat (length pairs)) = 0.
Proof.
  unfold index, padded. rewrite Nat2Z.id, app_nth2.
  - unfold decoded, zeros. rewrite length_map, Nat.sub_diag.
    destruct (Z.to_nat PAGE_SIZE - length pairs)%nat; reflexivity.
  - unfold decoded. rewrite length_map. lia.
Qed.

(** C7.  Fewer than 128 hex pairs before the sentinel: the buffer handed
    to [writePage] holds the decoded bytes in order followed by zeros, and
    all 128 bytes are written. *)
Theorem short_input_zero_padded (page : Z) (pairs : list (Z * Z))
    (rest : list Z) (w : board) :
  plain_pairs pairs ->
  (length pairs < Z.to_nat PAGE_SIZE)%nat ->
  rx w = hex_chars pairs ++ chr "*" :: rest ->
  let buffer := decoded pairs ++ zeros (Z.to_nat PAGE_SIZE - length pairs) in
  let base := to_uint16 (page * PAGE_SIZE) in
  exists w',
    writePageHex page w = Done tt w'
    /\ rx w' = rest
    /\ log w' = log w ++ captureOwnership_events
                      ++ writePageHex_events page buffer
    /\ calls (captureOwnership_events ++ writePageHex_events page buffer)
       = CaptureOwnership :: WritePage base buffer
         :: writeByte_calls (page_unlock ++ page_data base buffer)
         ++ [ReleaseOwnership]
    /\ length buffer = Z.to_nat PAGE_SIZE
    /\ map snd (page_data base buffer) = buffer.
Proof.
  intros Hp Hlen Hrx buffer base.
  eexists. split.
  { apply (writePageHex_short page pairs [chr "*"] rest w Hp Hlen);
      [now left | exact Hrx]. }
  rewrite rx_replay, log_replay. cbn [set_rx rx log].
  rewrite log_replay, <- app_assoc.
  assert (Hb : length buffer = Z.to_nat PAGE_SIZE)
    by (apply length_padded; lia).
  split; [reflexivity|]. split; [reflexivity|]. split.
  { rewrite calls_app, calls_writePageHex. reflexivity. }
  split; [exact Hb | apply page_data_bytes, Hb].
Qed.

Lemma short_input_zero_padded_witness :
  let w0 := reset (bytes_of "DEADBEEF*") in
  exists w',
    writePageHex 3 w0 = Done tt w'
    /\ rx w' = []
    /\ In (Call (WritePage 0x0180 ([0xDE; 0xAD; 0xBE; 0xEF] ++ zeros 124)))
          (log w').
Proof.
  destruct (short_input_zero_padded 3
              [(chr "D", chr "E"); (chr "A", chr "D");
               (chr "B", chr "E"); (chr "E", chr "F")]
              [] (reset (bytes_of "DEADBEEF*")))
    as (w' & Hrun & Hrx & Hlog & _).
  - repeat constructor.
  - vm_compute. lia.
  - reflexivity.
  - exists w'. split; [exact Hrun|]. split; [exact Hrx|].
    rewrite Hlog. apply in_or_app. right.
    apply in_or_app. right. right. right. left. reflexivity.
Defined.

(** C10.  When the sentinel arrives in the place of a low digit, the
    high digit read just before it is dropped: collection stops there,
    the buffer position of the broken pair stays zero, and the page is
    written as if the sentinel had come right after the last full pair. *)
Theorem sentinel_in_low_nibble (page : Z) (pairs : list (Z * Z)) (h : Z)
    (rest : list Z) (w : board) :
  plain_pairs pairs ->
  (length pairs < Z.to_nat PAGE_SIZE)%nat ->
  plain h = true ->
  rx w = hex_chars pairs ++ h :: chr "*" :: rest ->
  let buffer := decoded pairs ++ zeros (Z.to_nat PAGE_SIZE - length pairs) in
  collect (S (Z.to_nat PAGE_SIZE)) 0 (zeros (Z.to_nat PAGE_SIZE)) w
  = Done buffer (set_rx rest w)
  /\ index buffer (Z.of_nat (length pairs)) = 0
  /\ exists w',
       writePageHex page w = Done tt w'
       /\ rx w' = rest
       /\ log w' = log w ++ captureOwnership_events
                         ++ writePageHex_events page buffer.
Proof.
  intros Hp Hlen Hh Hrx buffer.
  assert (Hend : ending [h; chr "*"]) by (right; now exists h).
  split; [apply (collect_short pairs [h; chr "*"] rest w Hp Hlen Hend Hrx)|].
  split; [apply index_padded|].
  eexists. split.
  { apply (writePageHex_short page pairs [h; chr "*"] rest w Hp Hlen Hend Hrx). }
  rewrite rx_replay, log_replay. cbn [set_rx rx log].
  rewrite log_replay, <- app_assoc. split; reflexivity.
Qed.

Lemma sentinel_in_low_nibble_witness :
  let w0 := reset (bytes_of "DEA*") in
  collect (S (Z.to_nat PAGE_SIZE)) 0 (zeros (Z.to_nat PAGE_SIZE)) w0
  = Done (0xDE :: zeros 127) (set_rx [] w0)
  /\ index (0xDE :: zeros 127) 1 = 0.
Proof.
  destruct (sentinel_in_low_nibble 3 [(chr "D", chr "E")] (chr "A") []
              (reset (bytes_of "DEA*")))
    as (Hcollect & Hzero & _).
  - repeat constructor.
  - vm_compute. lia.
  - reflexivity.
  - reflexivity.
  - split; [exact Hcollect | exact Hzero].
Defined.

(** ** Page addresses *)

Lemma page_of_range c : 0 <= page_of c < 256.
Proof. unfold page_of, to_byte. apply Z.mod_pos_bound. lia. Qed.

Lemma page_base_small p i :
  0 <= p < 256 -> 0 <= i < PAGE_SIZE ->
  to_uint16 (p * PAGE_SIZE + i) = p * PAGE_SIZE + i.
Proof.
  unfold to_uint16, PAGE_SIZE. intros Hp Hi. apply Z.mod_small. lia.
Qed.

Lemma page_base_uint16 p :
  0 <= p < 256 -> to_uint16 (p * PAGE_SIZE) = p * PAGE_SIZE.
Proof.
  intros Hp. rewrite <- (Z.add_0_r (p * PAGE_SIZE)) at 1.
  rewrite page_base_small; unfold PAGE_SIZE; lia.
Qed.

Lemma page_addresses_span p :
  0 <= p < 256 -> page_addresses (p * PAGE_SIZE) = page_span (p * PAGE_SIZE).
Proof.
  intros Hp. unfold page_addresses, page_span.
  apply map_ext_in. intros i Hi. apply in_indices in Hi.
  apply page_base_small; [exact Hp | unfold PAGE_SIZE in *; lia].
Qed.

Lemma page_data_span p buffer :
  0 <= p < 256 ->
  map fst (page_data (p * PAGE_SIZE) buffer) = page_span (p * PAGE_SIZE).
Proof.
  intros Hp. rewrite <- page_addresses_span by exact Hp.
  unfold page_data, page_addresses. rewrite map_map. reflexivity.
Qed.

(** ** Dumping a page *)

Lemma dump_calls page n : forall i rowLength w,
  exists w' es,
    dump n i rowLength page w = Done tt w'
    /\ log w' = log w ++ es
    /\ DDRD (hw w') = DDRD (hw w)
    /\ rx w' = rx w
    /\ calls es
       = map (fun j => ReadByte (to_uint16 (page * PAGE_SIZE + j)))
             (indices n i).
Proof.
  induction n as [|n IH]; intros i rowLength w.
  - exists w, []. cbn. rewrite app_nil_r. repeat split.
  - cbn [dump]. unfold mbind, M_bind, bind.
    rewrite readByte_replay. cbn zeta.
    set (a := to_uint16 (page * PAGE_SIZE + i)).
    set (v := PINC (replay (readByte_setup a) w)).
    set (w1 := replay (readByte_events a v) w).
    unfold Serial_print, Serial_println, emit.
    set (s := SerialPrint _).
    assert (Hcalls : calls (readByte_events a v) = [ReadByte a]) by reflexivity.
    assert (Hdir : DDRD (hw w1) = DDRD (hw w))
      by (unfold w1; rewrite hw_replay; reflexivity).
    destruct (rowLength + 1 =? 16).
    + destruct (IH (i + 1) 0 (record (SerialPrintln " ") (record s w1)))
        as (w2 & es & Hd & Hlog & Hhw & Hrx & Hc).
      exists w2, (readByte_events a v ++ [s; SerialPrintln " "] ++ es).
      rewrite Hd, Hlog, Hhw, Hrx. subst s. cbn [record log hw rx mcu_step].
      rewrite Hdir. unfold w1. rewrite log_replay, rx_replay.
      rewrite !calls_app, Hcalls, Hc, <- !app_assoc.
      repeat split.
    + destruct (IH (i + 1) (rowLength + 1) (record s w1))
        as (w2 & es & Hd & Hlog & Hhw & Hrx & Hc).
      exists w2, (readByte_events a v ++ [s] ++ es).
      rewrite Hd, Hlog, Hhw, Hrx. subst s. cbn [record log hw rx mcu_step].
      rewrite Hdir. unfold w1. rewrite log_replay, rx_replay.
      rewrite !calls_app, Hcalls, Hc, <- !app_assoc.
      repeat split.
Qed.

(** ** Bus ownership *)

Lemma capture_captured m :
  configured m = true -> captured (run captureOwnership_events m) = true.
Proof.
  unfold configured, driven. rewrite !andb_true_iff. intros [[H1 H2] H3].
  unfold captureOwnership_events. line_fact.
Qed.

Lemma capture_configured m :
  configured (run captureOwnership_events m) = configured m.
Proof. unfold captureOwnership_events. bits. now rewrite !orb_false_r. Qed.

Lemma release_handed_over m :
  configured m = true -> handed_over (run releaseOwnership_events m) = true.
Proof.
  unfold configured, driven. rewrite !andb_true_iff. intros [[H1 H2] H3].
  unfold releaseOwnership_events, handed_over. line_fact.
Qed.

Lemma handed_over_external m : handed_over m = true -> external_owns m = true.
Proof. unfold handed_over. rewrite !andb_true_iff. tauto. Qed.

Lemma dump_window title page n w :
  exists w' es,
    (captureOwnership;;
     Serial_print "Reading page ";;
     Serial_println title;;
     dump n 0 0 page;;
     Serial_println " ";;
     releaseOwnership) w = Done tt w'
    /\ log w' = log w ++ es
    /\ rx w' = rx w
    /\ calls es
       = CaptureOwnership
         :: map (fun j => ReadByte (to_uint16 (page * PAGE_SIZE + j)))
                (indices n 0)
         ++ [ReleaseOwnership]
    /\ (configured (hw w) = true -> handed_over (hw w') = true).
Proof.
  unfold mbind, M_bind, bind. rewrite captureOwnership_emits.
  unfold Serial_print, Serial_println, emit.
  set (w1 := record _ (record _ (replay captureOwnership_events w))).
  destruct (dump_calls page n 0 0 w1)
    as (w2 & es & Hd & Hlog & Hdir & Hrx & Hc).
  rewrite Hd, releaseOwnership_emits.
  assert (Hlog1 : log w1 = log w ++ captureOwnership_events
            ++ [SerialPrint "Reading page "; SerialPrintln title]).
  { unfold w1. rewrite !log_record, log_replay, <- !app_assoc. reflexivity. }
  assert (Hrx1 : rx w1 = rx w).
  { unfold w1. rewrite !rx_record. apply rx_replay. }
  assert (Hhw1 : hw w1 = run captureOwnership_events (hw w)).
  { unfold w1.
    rewrite !hw_record, mcu_step_println, mcu_step_print. apply hw_replay. }
  clearbody w1.
  eexists. exists (captureOwnership_events
            ++ ([SerialPrint "Reading page "; SerialPrintln title]
                  ++ es ++ [SerialPrintln " "])
            ++ releaseOwnership_events).
  split; [reflexivity|].
  rewrite log_replay, hw_replay, rx_replay.
  rewrite log_record, rx_record, hw_record, mcu_step_println.
  rewrite Hlog, Hrx, Hlog1, Hrx1.
  rewrite !calls_app, Hc, <- !app_assoc.
  split; [reflexivity|]. split; [reflexivity|]. split; [reflexivity|].
  intros Hcfg. apply release_handed_over.
  assert (Hb : configured (hw w2) = configured (hw w1))
    by (unfold configured, driven; now rewrite Hdir).
  rewrite Hb, Hhw1, capture_configured. exact Hcfg.
Qed.

Lemma dumpPage_board page w :
  exists w' es,
    dumpPage page w = Done tt w'
    /\ log w' = log w ++ es
    /\ rx w' = rx w
    /\ calls es
       = CaptureOwnership
         :: map (fun j => ReadByte (to_uint16 (page * PAGE_SIZE + j)))
                (indices (Z.to_nat PAGE_SIZE) 0)
         ++ [ReleaseOwnership]
    /\ (configured (hw w) = true -> handed_over (hw w') = true).
Proof. exact (dump_window (pretty page) page (Z.to_nat PAGE_SIZE) w). Qed.

(** ** The command dispatcher *)

Lemma collect_complete pairs tail rest w :
  complete_input pairs tail -> rx w = hex_chars pairs ++ tail ++ rest ->
  collect (S (Z.to_nat PAGE_SIZE)) 0 (zeros (Z.to_nat PAGE_SIZE)) w
  = Done (padded pairs) (set_rx rest w).
Proof.
  intros [Hp [[Hlen Hend]|[Hlen ->]]] Hrx.
  - apply (collect_short pairs tail rest w Hp Hlen Hend Hrx).
  - pose proof (collect_pairs pairs [] 1 rest w Hp) as H.
    cbn [length app Nat.add] in H. change (Z.of_nat 0) with 0 in H.
    rewrite Nat.sub_0_r, Hlen in H.
    replace (Z.to_nat PAGE_SIZE + 1)%nat with (S (Z.to_nat PAGE_SIZE)) in H
      by lia.
    rewrite H; [|lia|exact Hrx].
    unfold padded. rewrite Hlen. reflexivity.
Qed.

Lemma writePageHex_complete page pairs tail rest w :
  complete_input pairs tail -> rx w = hex_chars pairs ++ tail ++ rest ->
  writePageHex page w
  = Done tt (replay (writePageHex_events page (padded pairs))
                    (set_rx rest (replay captureOwnership_events w))).
Proof.
  intros Hin Hrx. rewrite writePageHex_collect.
  rewrite (collect_complete pairs tail rest)
    by (assumption || now rewrite rx_replay).
  reflexivity.
Qed.

Lemma loop_write c input w :
  rx w = chr "w" :: c :: input ->
  loop w = writePageHex (page_of c) (set_rx input (record ready w)).
Proof.
  intros Hrx. unfold loop, mbind, M_bind, bind.
  rewrite (readSerial_next _ _ w Hrx).
  change (to_byte (chr "w") =? chr "w") with true. cbn match.
  unfold Serial_println, emit.
  rewrite (readSerial_next c input (record _ (set_rx _ w)) eq_refl).
  reflexivity.
Qed.

Lemma loop_dump c input w :
  rx w = chr "d" :: c :: input ->
  loop w = dumpPage (page_of c) (set_rx input (record ready w)).
Proof.
  intros Hrx. unfold loop, mbind, M_bind, bind.
  rewrite (readSerial_next _ _ w Hrx).
  change (to_byte (chr "d") =? chr "w") with false.
  change (to_byte (chr "d") =? chr "d") with true. cbn match.
  unfold Serial_println, emit.
  rewrite (readSerial_next c input (record _ (set_rx _ w)) eq_refl).
  reflexivity.
Qed.

Lemma loop_erase rest w :
  rx w = chr "e" :: rest ->
  loop w = chipErase (set_rx rest (record ready w)).
Proof.
  intros Hrx. unfold loop, mbind, M_bind, bind.
  rewrite (readSerial_next _ _ w Hrx).
  change (to_byte (chr "e") =? chr "w") with false.
  change (to_byte (chr "e") =? chr "d") with false.
  change (to_byte (chr "e") =? chr "e") with true. cbn match.
  reflexivity.
Qed.

(** ** Commands that hand the bus back *)

Lemma hw_set_rx input w : hw (set_rx input w) = hw w.
Proof. reflexivity. Qed.

Lemma log_set_rx input w : log (set_rx input w) = log w.
Proof. reflexivity. Qed.

Lemma mcu_step_ready m : mcu_step ready m = m.
Proof. reflexivity. Qed.

Lemma captured_configured m : captured m = true -> configured m = true.
Proof. unfold captured. rewrite !andb_true_iff. tauto. Qed.

Lemma writePageHex_handover page buffer m :
  captured m = true ->
  handed_over (run (writePageHex_events page buffer) m) = true.
Proof.
  intros Hcap. unfold writePageHex_events.
  rewrite run_cons, mcu_step_print, run_cons, mcu_step_println, run_app.
  apply release_handed_over, captured_configured.
  exact (proj1 (writePage_run (to_uint16 (page * PAGE_SIZE)) buffer m Hcap)).
Qed.

(** A completed write command captures the bus first, releases it last,
    and hands the bus back to the external master. *)
Lemma write_command_ownership (c : Z) (pairs : list (Z * Z))
    (tail rest : list Z) (w : board) :
  configured (hw w) = true ->
  complete_input pairs tail ->
  rx w = chr "w" :: c :: hex_chars pairs ++ tail ++ rest ->
  let base := page_of c * PAGE_SIZE in
  exists w' es,
    loop w = Done tt w'
    /\ log w' = log w ++ ready :: es
    /\ calls es
       = CaptureOwnership :: WritePage base (padded pairs)
         :: writeByte_calls (page_unlock ++ page_data base (padded pairs))
         ++ [ReleaseOwnership]
    /\ handed_over (hw w') = true.
Proof.
  intros Hcfg Hin Hrx base.
  pose proof (page_of_range c) as Hp.
  rewrite (loop_write c _ w Hrx).
  rewrite (writePageHex_complete _ pairs tail rest) by (exact Hin || reflexivity).
  eexists. exists (captureOwnership_events
                     ++ writePageHex_events (page_of c) (padded pairs)).
  split; [reflexivity|].
  rewrite log_replay, hw_replay, log_set_rx, hw_set_rx.
  rewrite log_replay, hw_replay, log_set_rx, hw_set_rx.
  rewrite log_record, hw_record, mcu_step_ready, <- !app_assoc.
  split; [reflexivity|]. split.
  { rewrite calls_app, calls_writePageHex, page_base_uint16 by exact Hp.
    reflexivity. }
  apply writePageHex_handover, capture_captured, Hcfg.
Qed.

(** So does a dump command. *)
Lemma dump_command_ownership (c : Z) (rest : list Z) (w : board) :
  configured (hw w) = true ->
  rx w = chr "d" :: c :: rest ->
  exists w' es,
    loop w = Done tt w'
    /\ log w' = log w ++ ready :: es
    /\ calls es
       = CaptureOwnership
         :: map ReadByte (page_span (page_of c * PAGE_SIZE))
         ++ [ReleaseOwnership]
    /\ handed_over (hw w') = true.
Proof.
  intros Hcfg Hrx. pose proof (page_of_range c) as Hp.
  rewrite (loop_dump c _ w Hrx).
  destruct (dumpPage_board (page_of c) (set_rx rest (record ready w)))
    as (w' & es & Hd & Hlog & _ & Hc & Hown).
  exists w', es. rewrite Hd, Hlog, log_set_rx, log_record, <- app_assoc.
  split; [reflexivity|]. split; [reflexivity|]. split.
  - rewrite Hc, <- page_addresses_span by exact Hp.
    unfold page_addresses. rewrite map_map. reflexivity.
  - apply Hown.
    rewrite hw_set_rx, hw_record, mcu_step_ready. exact Hcfg.
Qed.

(** ** The erase command *)

Lemma calls_chipErase :
  calls chipErase_events = ChipErase :: writeByte_calls erase_sequence.
Proof. reflexivity. Qed.

Lemma chipErase_direction m :
  DDRD (run chipErase_events m) = DDRD m.
Proof. reflexivity. Qed.

Lemma chipErase_buffer m :
  bit_of BUFFER_OE (PORTD (run chipErase_events m))
  = bit_of BUFFER_OE (PORTD m).
Proof.
  rewrite chipErase_sequence, !run_cons.
  change (mcu_step (SerialPrintln _) (mcu_step (Call ChipErase) m)) with m.
  unfold sequence_events, buses_out, buses_release, erase_sequence,
    writeBytes_events, writeByte_events.
  cbn [flat_map app fst snd]. bits.
  now rewrite !orb_false_r, !andb_true_r.
Qed.

(** C1 (the erase command).  On the command 'e' the dispatcher runs
    [chipErase] only: the six bus writes are made without
    [captureOwnership] before them and without [releaseOwnership] after
    them, the buffer enable and the direction of chip enable are left as
    the command found them, and a board that the controller owned before
    the command is not handed back to the external master. *)
Theorem erase_command_skips_ownership (rest : list Z) (w : board) :
  rx w = chr "e" :: rest ->
  exists w',
    loop w = Done tt w'
    /\ rx w' = rest
    /\ log w' = log w ++ ready :: chipErase_events
    /\ calls (ready :: chipErase_events)
       = ChipErase :: writeByte_calls erase_sequence
    /\ ~ In CaptureOwnership (calls (ready :: chipErase_events))
    /\ ~ In ReleaseOwnership (calls (ready :: chipErase_events))
    /\ controller_owns (hw w') = controller_owns (hw w)
    /\ (controller_owns (hw w) = true -> external_owns (hw w') = false).
Proof.
  intros Hrx. rewrite (loop_erase rest w Hrx), chipErase_emits.
  eexists. split; [reflexivity|].
  rewrite rx_replay, log_replay, hw_replay. cbn [set_rx record log rx hw].
  change (mcu_step ready (hw w)) with (hw w).
  rewrite <- app_assoc.
  split; [reflexivity|]. split; [reflexivity|]. split; [reflexivity|].
  split. { cbn. intuition discriminate. }
  split. { cbn. intuition discriminate. }
  assert (Hown : controller_owns (run chipErase_events (hw w))
                 = controller_owns (hw w)).
  { unfold controller_owns, driven.
    now rewrite chipErase_direction, chipErase_buffer. }
  split; [exact Hown|].
  intros H. rewrite <- Hown in H. revert H.
  unfold controller_owns, external_owns.
  destruct (driven FLASH_CE (run chipErase_events (hw w))); [reflexivity|].
  discriminate.
Qed.

Lemma erase_command_skips_ownership_witness :
  let w0 := final (setup (reset (bytes_of "e"))) in
  rx w0 = chr "e" :: []
  /\ controller_owns (hw w0) = true
  /\ exists w',
      loop w0 = Done tt w'
      /\ rx w' = []
      /\ log w' = log w0 ++ ready :: chipErase_events
      /\ calls (ready :: chipErase_events)
         = ChipErase :: writeByte_calls erase_sequence
      /\ ~ In CaptureOwnership (calls (ready :: chipErase_events))
      /\ ~ In ReleaseOwnership (calls (ready :: chipErase_events))
      /\ controller_owns (hw w') = controller_owns (hw w0)
      /\ (controller_owns (hw w0) = true -> external_owns (hw w') = false).
Proof.
  split; [reflexivity|]. split; [reflexivity|].
  apply (erase_command_skips_ownership []
           (final (setup (reset (bytes_of "e"))))).
  reflexivity.
Defined.

(** ** What the missing capture costs *)

(** Right after [setup] the controller still holds the bus, and an erase
    command erases the chip. *)
Lemma erase_after_boot :
  let r := (setup;; loop) (power_up zeroed "e") in
  completed r = true
  /\ cycles (chip (final r)) = write_cycles erase_sequence
  /\ cells (chip (final r)) = erased.
Proof. vm_compute. repeat split. Qed.

(** After a dump has released the bus, chip enable is an input: the
    same command makes its six [writeByte] calls without driving chip
    enable, so that in the chip model, which sees the controller's lines
    only, no write cycle is recorded and nothing is erased; and it leaves
    output enable driven high, which [releaseOwnership] had left low for
    the external master's reads. *)
Lemma erase_after_release :
  let dumped := (setup;; loop) (power_up zeroed "d0") in
  let r := (setup;; loop;; loop) (power_up zeroed "d0e") in
  completed dumped = true
  /\ handed_over (hw (final dumped)) = true
  /\ completed r = true
  /\ calls (skipn (length (log (final dumped))) (log (final r)))
     = ChipErase :: writeByte_calls erase_sequence
  /\ cycles (chip (final r)) = cycles (chip (final dumped))
  /\ cells (chip (final r)) 0 = 0
  /\ asserted FLASH_OE (hw (final r)) = false
  /\ handed_over (hw (final r)) = false.
Proof. vm_compute. repeat split. Qed.
(** * Further properties of the firmware *)

(** ** Equations on board states *)

Lemma rx_set_rx input w : rx (set_rx input w) = input.
Proof. reflexivity. Qed.

Lemma chip_set_rx input w : chip (set_rx input w) = chip w.
Proof. reflexivity. Qed.

Lemma chip_ready w : chip (record ready w) = chip w.
Proof. reflexivity. Qed.

Lemma chip_print s w : chip (record (SerialPrint s) w) = chip w.
Proof. reflexivity. Qed.

Lemma chip_println s w : chip (record (SerialPrintln s) w) = chip w.
Proof. reflexivity. Qed.

Lemma chip_print_byte d w : chip (record (print_byte d) w) = chip w.
Proof. reflexivity. Qed.

Lemma mcu_step_print_byte d m : mcu_step (print_byte d) m = m.
Proof. reflexivity. Qed.

Lemma final_done {A} (a : A) w : final (Done a w) = w.
Proof. reflexivity. Qed.

(** ** Start-up *)

(** X1.  [setup] always returns, and it leaves the controller in
    possession of the flash whatever the registers held before: chip
    enable, output enable, write enable and buffer enable are outputs
    driven high, the external master does not own the bus, address and
    data ports are inputs with their latches untouched, and nothing is
    read from the serial line. *)
Theorem setup_captures_bus (w : board) :
  exists w',
    setup w = Done tt w'
    /\ log w' = log w ++ setup_events
    /\ rx w' = rx w
    /\ captured (hw w') = true
    /\ read_window (hw w') = true
    /\ external_owns (hw w') = false
    /\ (DDRA (hw w'), DDRB (hw w'), DDRC (hw w')) = (0, 0, 0)
    /\ (PORTA (hw w'), PORTB (hw w'), PORTC (hw w'))
       = (PORTA (hw w), PORTB (hw w), PORTC (hw w)).
Proof.
  exists (replay setup_events w). split; [apply setup_emits|].
  rewrite log_replay, rx_replay, hw_replay.
  split; [reflexivity|]. split; [reflexivity|].
  split; [apply setup_captured|].
  split. { unfold read_window. rewrite setup_captured. reflexivity. }
  split. { unfold setup_events. decide_bits. }
  split; reflexivity.
Qed.

(** X2.  Started with the port-D latch at its reset value 0, [setup]
    passes through a state, right after the store to DDRD and before the
    store to PORTD, in which chip enable, output enable, write enable and
    buffer enable are all driven low at once: output enable and write
    enable are asserted together there. *)
Theorem setup_drives_lines_low (w : board) :
  PORTD (hw w) = 0 ->
  let m := run (firstn 4 setup_events) (hw w) in
  In m (states (hw w) setup_events)
  /\ asserted FLASH_CE m = true /\ asserted FLASH_OE m = true
  /\ asserted FLASH_WE m = true /\ asserted BUFFER_OE m = true
  /\ safe m = false.
Proof.
  intros H m. subst m. unfold setup_events. cbn [firstn].
  split. { cbn [states]. right. right. right. left. reflexivity. }
  unfold safe, asserted, driven. step_registers. rewrite H.
  repeat split.
Qed.

Lemma setup_drives_lines_low_witness :
  let m := run (firstn 4 setup_events) power_on in
  In m (states power_on setup_events)
  /\ asserted FLASH_CE m = true /\ asserted FLASH_OE m = true
  /\ asserted FLASH_WE m = true /\ asserted BUFFER_OE m = true
  /\ safe m = false.
Proof. apply (setup_drives_lines_low (reset [])). reflexivity. Defined.

(** ** Hex digits *)

Lemma below n (P : Z -> bool) :
  forallb P (indices n 0) = true ->
  forall d, 0 <= d < Z.of_nat n -> P d = true.
Proof.
  intros H d Hd. rewrite forallb_forall in H. apply H, in_indices. lia.
Qed.

Lemma ascToNibble_range v : 0 <= ascToNibble v < 16.
Proof.
  unfold ascToNibble, to_byte.
  change (chr "0") with 48. change (chr "9") with 57.
  change (chr "a") with 97. change (chr "f") with 102.
  change (chr "A") with 65. change (chr "F") with 70.
  destruct (Z.geb_spec v 48), (Z.leb_spec v 57), (Z.geb_spec v 97),
    (Z.leb_spec v 102), (Z.geb_spec v 65), (Z.leb_spec v 70);
    cbn [andb]; try lia; rewrite Z.mod_small; lia.
Qed.

(** X3.  The byte [writePageHex] stores for a pair of characters,
    [(h << 4) | l] on the two decoded nibbles, is sixteen times the first
    nibble plus the second, and fits a byte, whatever the characters. *)
Theorem hex_byte_value (h l : Z) :
  hex_byte h l = 16 * ascToNibble h + ascToNibble l
  /\ 0 <= hex_byte h l < 256.
Proof.
  pose proof (ascToNibble_range h) as Hh.
  pose proof (ascToNibble_range l) as Hl.
  unfold hex_byte. set (a := ascToNibble h) in *. set (b := ascToNibble l) in *.
  assert (H : to_byte (Z.shiftl a 4 .| b) = 16 * a + b).
  { pose proof (below 16 (fun x => forallb (fun y =>
        to_byte (Z.shiftl x 4 .| y) =? 16 * x + y) (indices 16 0))
      ltac:(vm_compute; reflexivity) a ltac:(lia)) as Ha.
    cbn beta in Ha.
    apply Z.eqb_eq.
    apply (below 16 (fun y => to_byte (Z.shiftl a 4 .| y) =? 16 * a + y)
             Ha b ltac:(lia)). }
  rewrite H. lia.
Qed.

(** X4.  The two hex digits [dumpPage] prints for a byte are characters
    that [writePageHex] accepts (neither is the sentinel), [ascToNibble]
    maps them back to the high and the low nibble, and the pair decodes
    to the byte that was printed. *)
Theorem dump_digits_decode (data : Z) :
  is_byte data = true ->
  let h := chr (char_at hex (Z.shiftr data 4)) in
  let l := chr (char_at hex (Z.land data 0xf)) in
  hex_text data
  = String (char_at hex (Z.shiftr data 4))
           (String (char_at hex (Z.land data 0xf)) " ")
  /\ plain h = true /\ plain l = true
  /\ ascToNibble h = Z.shiftr data 4
  /\ ascToNibble l = Z.land data 0xf
  /\ hex_byte h l = data.
Proof.
  intros Hd h l. subst h l. split; [reflexivity|].
  unfold is_byte in Hd. apply andb_true_iff in Hd as [H0 H1].
  apply Z.leb_le in H0. apply Z.ltb_lt in H1.
  pose proof (below 256
    (fun d =>
       let h := chr (char_at hex (Z.shiftr d 4)) in
       let l := chr (char_at hex (Z.land d 0xf)) in
       plain h && plain l && (ascToNibble h =? Z.shiftr d 4)
       && (ascToNibble l =? Z.land d 0xf) && (hex_byte h l =? d))
    ltac:(vm_compute; reflexivity) data ltac:(lia)) as H.
  cbn beta zeta in H. rewrite !andb_true_iff, !Z.eqb_eq in H.
  tauto.
Qed.

Lemma dump_digits_decode_witness :
  hex_text 0xAD = "AD " /\ hex_byte (chr "A") (chr "D") = 0xAD.
Proof.
  destruct (dump_digits_decode 0xAD eq_refl) as (H1 & _ & _ & _ & _ & H2).
  split; [exact H1 | exact H2].
Defined.

(** ** The bound of the collecting loop *)

Lemma collect_fuel fuel : forall extra i buffer w,
  0 <= i <= PAGE_SIZE -> PAGE_SIZE - i < Z.of_nat fuel ->
  collect (fuel + extra) i buffer w = collect fuel i buffer w.
Proof.
  unfold PAGE_SIZE.
  induction fuel as [|fuel IH]; intros extra i buffer w Hi Hf; [lia|].
  cbn [Nat.add collect]. fold PAGE_SIZE.
  destruct (i <? PAGE_SIZE) eqn:Hlt; [|reflexivity].
  apply Z.ltb_lt in Hlt. unfold PAGE_SIZE in Hlt.
  unfold mbind, M_bind, bind.
  destruct (readSerial w) as [h w1|w1]; [|reflexivity].
  destruct (h =? chr "*"); [reflexivity|].
  destruct (readSerial w1) as [l w2|w2]; [|reflexivity].
  destruct (l =? chr "*"); [reflexivity|].
  assert (Hb : to_byte (i + 1) = i + 1)
    by (unfold to_byte; apply Z.mod_small; lia).
  rewrite Hb. apply IH; lia.
Qed.

(** X5.  The collecting loop of [writePageHex] ends within 128
    iterations on every input: run with any larger bound on the number
    of iterations it gives the same result, so the bound never cuts the
    loop of the source short. *)
Theorem collect_needs_no_more_fuel (extra : nat) (buffer : list Z) (w : board) :
  collect (S (Z.to_nat PAGE_SIZE) + extra) 0 buffer w
  = collect (S (Z.to_nat PAGE_SIZE)) 0 buffer w.
Proof. apply collect_fuel; unfold PAGE_SIZE; lia. Qed.

(** ** Page addresses *)

(** X6.  For every page character the page number is a byte, equal to
    the digit for '0' .. '9'; the base address handed to [writePage]
    and [readByte] is page * 128 with no 16-bit wrap-around, a multiple
    of 128, and the 128 addresses of the page are consecutive and all
    below 32768. *)
Theorem dispatcher_page_addresses (c : Z) :
  let page := page_of c in
  let base := to_uint16 (page * PAGE_SIZE) in
  0 <= page < 256
  /\ (chr "0" <= c <= chr "9" -> page = c - chr "0")
  /\ base = page * 128
  /\ base mod 128 = 0
  /\ page_addresses base = page_span base
  /\ Forall (fun a => base <= a < base + 128 /\ a < 32768) (page_span base).
Proof.
  intros page base. pose proof (page_of_range c) as Hp. fold page in Hp.
  assert (Hb : base = page * 128) by apply (page_base_uint16 page Hp).
  split; [exact Hp|]. split.
  { change (chr "0") with 48. change (chr "9") with 57. intros Hc.
    unfold page, page_of, to_byte. change (chr "0") with 48.
    rewrite (Z.mod_small c) by lia. apply Z.mod_small. lia. }
  split; [exact Hb|]. split.
  { rewrite Hb. apply Z.mod_mul. lia. }
  split.
  { rewrite Hb. apply (page_addresses_span page Hp). }
  unfold page_span. apply Forall_map, List.Forall_forall. intros i Hi.
  apply in_indices in Hi. change (Z.of_nat (Z.to_nat PAGE_SIZE)) with 128 in Hi.
  cbn beta. lia.
Qed.

(** X7.  The page character is not checked to be a digit: every page
    number from 0 to 255 is selected by some byte. *)
Theorem every_page_has_a_character (page : Z) :
  0 <= page < 256 ->
  exists c, is_byte c = true /\ page_of c = page.
Proof.
  intros Hp. exists (to_byte (page + chr "0")).
  split; [apply to_byte_range|].
  apply Z.eqb_eq.
  apply (below 256 (fun p => page_of (to_byte (p + chr "0")) =? p)
           ltac:(vm_compute; reflexivity) page Hp).
Qed.

Lemma every_page_has_a_character_witness :
  exists c, is_byte c = true /\ page_of c = 200.
Proof. apply (every_page_has_a_character 200). lia. Defined.

Lemma nth_indices n : forall i k,
  (k < n)%nat -> nth k (indices n i) 0 = i + Z.of_nat k.
Proof.
  induction n as [|n IH]; intros i k Hk; [lia|].
  destruct k as [|k]; cbn [indices nth]; [lia|].
  rewrite IH by lia. lia.
Qed.

Lemma nth_page_data address src i :
  0 <= i < PAGE_SIZE ->
  nth (Z.to_nat i) (page_data address src) (0, 0)
  = (to_uint16 (address + i), index src i).
Proof.
  unfold PAGE_SIZE. intros Hi. unfold page_data.
  set (f := fun i => (to_uint16 (address + i), index src i)).
  rewrite (nth_indep _ (0, 0) (f 0))
    by (rewrite length_map, length_indices; unfold PAGE_SIZE; lia).
  rewrite map_nth, nth_indices by (unfold PAGE_SIZE; lia).
  unfold f. rewrite Z2Nat.id by lia. reflexivity.
Qed.

(** X8.  The i-th data write of [writePage] carries [src[i]] and goes to
    [address + i] when that fits sixteen bits and to
    [address + i - 65536] when it does not: a page written near the top
    of the address space continues at address 0.  The 128 addresses are
    pairwise distinct in either case. *)
Theorem writePage_addresses_wrap (address : Z) (src : list Z) (i : Z) :
  is_uint16 address = true ->
  0 <= i < PAGE_SIZE ->
  let write := nth (Z.to_nat i) (page_data address src) (0, 0) in
  snd write = index src i
  /\ (address + i < 65536 -> fst write = address + i)
  /\ (65536 <= address + i -> fst write = address + i - 65536)
  /\ List.NoDup (map fst (page_data address src)).
Proof.
  intros Ha Hi write. unfold is_uint16 in Ha.
  apply andb_true_iff in Ha as [H0 H1].
  apply Z.leb_le in H0. apply Z.ltb_lt in H1.
  unfold write. rewrite nth_page_data by exact Hi. cbn [fst snd].
  unfold PAGE_SIZE in Hi.
  split; [reflexivity|]. split; [|split].
  - intros H. unfold to_uint16. apply Z.mod_small. lia.
  - intros H. unfold to_uint16.
    replace (address + i) with (address + i - 65536 + 1 * 65536) at 1 by lia.
    rewrite Z.mod_add by lia. apply Z.mod_small. lia.
  - unfold page_data. rewrite map_map. cbn [fst].
    apply NoDup_addresses. unfold PAGE_SIZE. lia.
Qed.

Lemma writePage_addresses_wrap_witness :
  let write := nth 64 (page_data 0xFFC0 sample_page) (0, 0) in
  fst write = 0 /\ snd write = index sample_page 64.
Proof.
  destruct (writePage_addresses_wrap 0xFFC0 sample_page 64 eq_refl)
    as (H1 & _ & H2 & _).
  - unfold PAGE_SIZE. lia.
  - split; [apply H2; lia | exact H1].
Defined.

Lemma page_span_addresses base :
  0 <= base -> base + 127 < 65536 -> page_addresses base = page_span base.
Proof.
  intros H0 H1. unfold page_addresses, page_span.
  apply map_ext_in. intros i Hi. apply in_indices in Hi.
  change (Z.of_nat (Z.to_nat PAGE_SIZE)) with 128 in Hi.
  unfold to_uint16. apply Z.mod_small. lia.
Qed.

Lemma page_of_base c :
  0 <= page_of c * PAGE_SIZE /\ page_of c * PAGE_SIZE + 127 < 65536.
Proof. pose proof (page_of_range c). unfold PAGE_SIZE. lia. Qed.

Lemma program_page base buffer mem :
  0 <= base -> base + 127 < 65536 ->
  length buffer = Z.to_nat PAGE_SIZE ->
  Forall (fun d => is_byte d = true) buffer ->
  map (program (loaded_bytes (page_data base buffer)) mem) (page_span base)
  = buffer
  /\ forall x, ~ In x (page_span base) ->
       program (loaded_bytes (page_data base buffer)) mem x = mem x.
Proof.
  intros H0 H1 Hlen Hb.
  assert (Hfst : map fst (loaded_bytes (page_data base buffer)) = page_span base).
  { rewrite <- page_span_addresses by assumption.
    unfold loaded_bytes, page_data, page_addresses. rewrite !map_map.
    reflexivity. }
  split.
  - rewrite <- Hfst, program_read.
    + unfold loaded_bytes. rewrite map_map. cbn [snd].
      rewrite <- (map_map snd to_byte), page_data_bytes by exact Hlen.
      apply map_to_byte_small, Hb.
    + rewrite Hfst, <- page_span_addresses by assumption.
      apply NoDup_addresses. unfold PAGE_SIZE. lia.
  - intros x Hx. apply program_other. rewrite Hfst. exact Hx.
Qed.

(** ** Commands that make no bus operation *)

Lemma loop_other cmd rest w :
  acts_on_bus (to_byte cmd) = false ->
  rx w = cmd :: rest ->
  loop w
  = Done tt (replay (ready :: if to_byte cmd =? chr "?" then help_text
                              else unknown_text)
                    (set_rx rest w)).
Proof.
  intros Hk Hrx. unfold acts_on_bus in Hk.
  apply orb_false_iff in Hk as [Hk He].
  apply orb_false_iff in Hk as [Hw Hd].
  unfold loop, mbind, M_bind, bind.
  rewrite (readSerial_next _ _ w Hrx). cbn match.
  unfold Serial_println, emit. rewrite Hw, Hd, He.
  destruct (to_byte cmd =? chr "?"); reflexivity.
Qed.

(** X9.  A command byte other than 'w', 'd' and 'e' makes [loop] print
    the ready line followed by the three help lines for '?' and by the
    unknown-command line for anything else; it consumes that one byte,
    and changes neither a register nor the chip. *)
Theorem other_commands_only_print (cmd : Z) (rest : list Z) (w : board) :
  acts_on_bus (to_byte cmd) = false ->
  rx w = cmd :: rest ->
  exists w',
    loop w = Done tt w'
    /\ rx w' = rest
    /\ log w' = log w ++ ready :: (if to_byte cmd =? chr "?" then help_text
                                   else unknown_text)
    /\ hw w' = hw w
    /\ chip w' = chip w.
Proof.
  intros Hk Hrx. rewrite (loop_other cmd rest w Hk Hrx).
  eexists. split; [reflexivity|].
  rewrite rx_replay, log_replay, hw_replay, chip_replay.
  split; [reflexivity|]. split; [reflexivity|].
  destruct (to_byte cmd =? chr "?"); split; reflexivity.
Qed.

Lemma other_commands_only_print_witness :
  let w := booted (bytes_of "W3") in
  exists w',
    loop w = Done tt w'
    /\ rx w' = [chr "3"]
    /\ log w' = log w ++ ready :: unknown_text
    /\ hw w' = hw w
    /\ chip w' = chip w.
Proof.
  apply (other_commands_only_print (chr "W") [chr "3"] (booted (bytes_of "W3")));
    reflexivity.
Defined.

Lemma loop_unknown cmd rest w :
  acts_on_bus (to_byte cmd) = false -> (to_byte cmd =? chr "?") = false ->
  rx w = cmd :: rest ->
  exists w',
    loop w = Done tt w' /\ rx w' = rest
    /\ log w' = log w ++ ready :: unknown_text
    /\ hw w' = hw w /\ chip w' = chip w.
Proof.
  intros Hk Hq Hrx. rewrite (loop_other cmd rest w Hk Hrx), Hq.
  eexists. split; [reflexivity|].
  rewrite rx_replay, log_replay, hw_replay, chip_replay. repeat split.
Qed.

(** ** Write commands on short and on long input *)

(** A write command on a complete input, as far as the serial line and
    the recorder show it. *)
Lemma loop_write_complete c pairs tail rest w :
  complete_input pairs tail ->
  rx w = chr "w" :: c :: hex_chars pairs ++ tail ++ rest ->
  exists w',
    loop w = Done tt w'
    /\ rx w' = rest
    /\ log w' = log w ++ ready :: captureOwnership_events
                      ++ writePageHex_events (page_of c) (padded pairs)
    /\ hw w' = run (captureOwnership_events
                      ++ writePageHex_events (page_of c) (padded pairs)) (hw w)
    /\ chip w' = chip_run (captureOwnership_events
                      ++ writePageHex_events (page_of c) (padded pairs))
                   (hw w) (chip w).
Proof.
  intros Hin Hrx. rewrite (loop_write c _ w Hrx).
  rewrite (writePageHex_complete _ pairs tail rest) by (exact Hin || reflexivity).
  eexists. split; [reflexivity|].
  rewrite rx_replay, log_replay, hw_replay, chip_replay.
  rewrite rx_set_rx, log_set_rx, hw_set_rx, chip_set_rx.
  rewrite log_replay, hw_replay, chip_replay.
  rewrite log_set_rx, hw_set_rx, chip_set_rx.
  rewrite log_record, hw_record, chip_ready, mcu_step_ready.
  rewrite <- !app_assoc, run_app, chip_run_app.
  split; [reflexivity|]. split; [reflexivity|]. split; reflexivity.
Qed.

Lemma collect_cut pairs tail w :
  plain_pairs pairs -> (length pairs < Z.to_nat PAGE_SIZE)%nat ->
  cut_short tail -> rx w = hex_chars pairs ++ tail ->
  collect (S (Z.to_nat PAGE_SIZE)) 0 (zeros (Z.to_nat PAGE_SIZE)) w
  = Blocked (set_rx [] w).
Proof.
  intros Hp Hlen Hend Hrx.
  pose proof (collect_pairs pairs [] (S (Z.to_nat PAGE_SIZE) - length pairs)
                tail w Hp) as H.
  cbn [length app Nat.add] in H. change (Z.of_nat 0) with 0 in H.
  rewrite Nat.sub_0_r in H.
  replace (length pairs + (S (Z.to_nat PAGE_SIZE) - length pairs))%nat
    with (S (Z.to_nat PAGE_SIZE)) in H by lia.
  rewrite H; [|lia|exact Hrx]. clear H.
  replace (S (Z.to_nat PAGE_SIZE) - length pairs)%nat
    with (S (Z.to_nat PAGE_SIZE - length pairs)) by lia.
  assert (Hi : (Z.of_nat (length pairs) <? PAGE_SIZE) = true).
  { apply Z.ltb_lt. change (Z.to_nat PAGE_SIZE) with 128%nat in Hlen.
    unfold PAGE_SIZE. lia. }
  destruct Hend as [->|(h & Hh & ->)].
  - rewrite collect_starved by (assumption || reflexivity). reflexivity.
  - destruct (plain_byte h Hh) as [Hhb Hhs].
    cbn [collect]. rewrite Hi. unfold mbind, M_bind, bind.
    rewrite (readSerial_next h [] (set_rx [h] w) eq_refl), Hhb, Hhs.
    reflexivity.
Qed.

(** X10.  A write command whose data stops before 128 pairs without the
    sentinel, after a full pair or after the high digit of one, never
    completes: [loop] waits in [readSerial] with all input consumed,
    having called [captureOwnership] and nothing else, so that nothing
    is written and, on a configured board, the controller keeps the bus
    captured. *)
Theorem truncated_write_holds_bus (c : Z) (pairs : list (Z * Z))
    (tail : list Z) (w : board) :
  plain_pairs pairs ->
  (length pairs < Z.to_nat PAGE_SIZE)%nat ->
  cut_short tail ->
  rx w = chr "w" :: c :: hex_chars pairs ++ tail ->
  exists w',
    loop w = Blocked w'
    /\ rx w' = []
    /\ log w' = log w ++ ready :: captureOwnership_events
    /\ calls (ready :: captureOwnership_events) = [CaptureOwnership]
    /\ (configured (hw w) = true ->
        captured (hw w') = true /\ external_owns (hw w') = false).
Proof.
  intros Hp Hlen Hend Hrx.
  rewrite (loop_write c _ w Hrx), writePageHex_collect.
  rewrite (collect_cut pairs tail) by (assumption || now rewrite rx_replay).
  eexists. split; [reflexivity|].
  rewrite rx_set_rx, log_set_rx, hw_set_rx.
  rewrite log_replay, hw_replay, log_set_rx, hw_set_rx, log_record, hw_record.
  rewrite mcu_step_ready, <- app_assoc.
  split; [reflexivity|]. split; [reflexivity|]. split; [reflexivity|].
  intros Hcfg. pose proof (capture_captured (hw w) Hcfg) as Hc.
  split; [exact Hc|].
  destruct (captured_bits _ Hc) as (H1 & _).
  unfold external_owns, driven. rewrite H1. reflexivity.
Qed.

Lemma truncated_write_holds_bus_witness :
  let w := booted (bytes_of "w3DEADBEE") in
  exists w',
    loop w = Blocked w'
    /\ rx w' = []
    /\ log w' = log w ++ ready :: captureOwnership_events
    /\ calls (ready :: captureOwnership_events) = [CaptureOwnership]
    /\ (configured (hw w) = true ->
        captured (hw w') = true /\ external_owns (hw w') = false).
Proof.
  apply (truncated_write_holds_bus (chr "3")
           [(chr "D", chr "E"); (chr "A", chr "D"); (chr "B", chr "E")]
           [chr "E"] (booted (bytes_of "w3DEADBEE"))).
  - repeat constructor.
  - vm_compute. lia.
  - right. exists (chr "E"). split; reflexivity.
  - reflexivity.
Defined.

Lemma padded_full pairs :
  length pairs = Z.to_nat PAGE_SIZE -> padded pairs = decoded pairs.
Proof.
  intros H. unfold padded. rewrite H, Nat.sub_diag. apply app_nil_r.
Qed.

(** X11.  After 128 pairs the collecting loop stops by count and does
    not read the sentinel: the page is written with the 128 decoded
    bytes, a '*' that follows stays on the serial line, and the next
    pass of [loop] takes it for a command and reports it as unknown
    without touching the registers or the chip. *)
Theorem full_page_leaves_sentinel (c : Z) (pairs : list (Z * Z))
    (rest : list Z) (w : board) :
  plain_pairs pairs ->
  length pairs = Z.to_nat PAGE_SIZE ->
  rx w = chr "w" :: c :: hex_chars pairs ++ chr "*" :: rest ->
  exists w1 w2,
    loop w = Done tt w1
    /\ rx w1 = chr "*" :: rest
    /\ log w1 = log w ++ ready :: captureOwnership_events
                      ++ writePageHex_events (page_of c) (decoded pairs)
    /\ loop w1 = Done tt w2
    /\ rx w2 = rest
    /\ log w2 = log w1 ++ ready :: unknown_text
    /\ hw w2 = hw w1
    /\ chip w2 = chip w1.
Proof.
  intros Hp Hlen Hrx.
  assert (Hin : complete_input pairs []) by (split; [exact Hp | right; now split]).
  destruct (loop_write_complete c pairs [] (chr "*" :: rest) w Hin Hrx)
    as (w1 & Hl1 & Hrx1 & Hlog1 & _).
  rewrite padded_full in Hlog1 by exact Hlen.
  destruct (loop_unknown (chr "*") rest w1 eq_refl eq_refl Hrx1)
    as (w2 & Hl2 & Hrx2 & Hlog2 & Hhw2 & Hchip2).
  exists w1, w2. repeat split; assumption.
Qed.

Lemma full_page_leaves_sentinel_witness :
  let pairs := replicate 128 (chr "4", chr "1") in
  let w := booted (chr "w" :: chr "0" :: hex_chars pairs ++ [chr "*"]) in
  exists w1 w2,
    loop w = Done tt w1
    /\ rx w1 = [chr "*"]
    /\ log w1 = log w ++ ready :: captureOwnership_events
                      ++ writePageHex_events 0 (replicate 128 0x41)
    /\ loop w1 = Done tt w2
    /\ rx w2 = []
    /\ log w2 = log w1 ++ ready :: unknown_text
    /\ hw w2 = hw w1
    /\ chip w2 = chip w1.
Proof.
  apply (full_page_leaves_sentinel (chr "0") (replicate 128 (chr "4", chr "1")) []
           (booted (chr "w" :: chr "0"
                      :: hex_chars (replicate 128 (chr "4", chr "1")) ++ [chr "*"]))).
  - apply Forall_replicate. split; reflexivity.
  - reflexivity.
  - reflexivity.
Defined.

(** ** Capture and release *)

Lemma capture_released m : released_buses (run captureOwnership_events m) = true.
Proof. reflexivity. Qed.

Lemma release_released m : released_buses (run releaseOwnership_events m) = true.
Proof. reflexivity. Qed.

Lemma captured_not_external m : captured m = true -> external_owns m = false.
Proof.
  intros H. destruct (captured_bits m H) as (H1 & _).
  unfold external_owns, driven. now rewrite H1.
Qed.

Lemma handed_over_lines m :
  handed_over m = true ->
  bit_of FLASH_CE (DDRD m) = false
  /\ bit_of BUFFER_OE (DDRD m) = true /\ bit_of BUFFER_OE (PORTD m) = false
  /\ DDRA m = 0 /\ DDRB m = 0 /\ DDRC m = 0.
Proof.
  unfold handed_over, external_owns, asserted, driven. intros H.
  destruct (bit_of FLASH_CE (DDRD m)), (bit_of BUFFER_OE (DDRD m)),
    (bit_of BUFFER_OE (PORTD m));
    cbn [andb negb] in H; try discriminate H;
    rewrite ?andb_true_iff, ?Z.eqb_eq in H; intuition congruence.
Qed.

Lemma handed_over_not_controller m :
  handed_over m = true -> controller_owns m = false.
Proof.
  intros H. destruct (handed_over_lines m H) as (H1 & _).
  unfold controller_owns, driven. now rewrite H1.
Qed.

Lemma release_configured m :
  configured (run releaseOwnership_events m) = configured m.
Proof.
  unfold releaseOwnership_events. bits.
  now rewrite ?orb_false_r, ?andb_true_r.
Qed.

(** X12.  From every configured register state (output enable, write
    enable and buffer enable being outputs), [captureOwnership] ends with
    the controller owning the flash and the three lines high, and
    [releaseOwnership] ends with the bus handed over to the external
    master; both leave the address and data buses released and the board
    configured, and the two kinds of ownership exclude each other. *)
Theorem ownership_changes_hands (w : board) :
  configured (hw w) = true ->
  (exists w',
      captureOwnership w = Done tt w'
      /\ captured (hw w') = true
      /\ released_buses (hw w') = true
      /\ external_owns (hw w') = false
      /\ configured (hw w') = true)
  /\ (exists w',
      releaseOwnership w = Done tt w'
      /\ handed_over (hw w') = true
      /\ released_buses (hw w') = true
      /\ controller_owns (hw w') = false
      /\ configured (hw w') = true).
Proof.
  intros H. split.
  - exists (replay captureOwnership_events w).
    split; [apply captureOwnership_emits|]. rewrite hw_replay.
    pose proof (capture_captured (hw w) H) as Hc.
    split; [exact Hc|]. split; [apply capture_released|].
    split; [apply captured_not_external, Hc|].
    apply captured_configured, Hc.
  - exists (replay releaseOwnership_events w).
    split; [apply releaseOwnership_emits|]. rewrite hw_replay.
    pose proof (release_handed_over (hw w) H) as Hr.
    split; [exact Hr|]. split; [apply release_released|].
    split; [apply handed_over_not_controller, Hr|].
    rewrite release_configured. exact H.
Qed.

Lemma ownership_changes_hands_witness :
  let w := booted [] in
  configured (hw w) = true
  /\ exists w1 w2,
       releaseOwnership w = Done tt w1 /\ handed_over (hw w1) = true
       /\ captureOwnership w1 = Done tt w2 /\ captured (hw w2) = true.
Proof.
  split; [reflexivity|].
  destruct (proj2 (ownership_changes_hands (booted []) eq_refl))
    as (w1 & Hr & Hh & _ & _ & Hcfg).
  destruct (proj1 (ownership_changes_hands w1 Hcfg))
    as (w2 & Hc & Hcap & _).
  exists w1, w2. repeat split; assumption.
Defined.

Lemma chipErase_run m :
  captured m = true ->
  captured (run chipErase_events m) = true
  /\ released_buses (run chipErase_events m) = true.
Proof.
  rewrite chipErase_sequence, !run_cons.
  change (mcu_step (SerialPrintln _) (mcu_step (Call ChipErase) m)) with m.
  apply sequence_run.
Qed.

(** X13.  Entered in a captured window, [writePage] and [chipErase]
    return in a captured window again, with the address and data buses
    switched back to inputs and their latches cleared, and read nothing
    from the serial line. *)
Theorem sequencer_keeps_window (address : Z) (src : list Z) (w : board) :
  captured (hw w) = true ->
  (exists w',
      writePage address src w = Done tt w'
      /\ captured (hw w') = true /\ released_buses (hw w') = true
      /\ rx w' = rx w)
  /\ (exists w',
      chipErase w = Done tt w'
      /\ captured (hw w') = true /\ released_buses (hw w') = true
      /\ rx w' = rx w).
Proof.
  intros H. split.
  - exists (replay (writePage_events address src) w).
    split; [apply writePage_emits|]. rewrite hw_replay, rx_replay.
    destruct (writePage_run address src (hw w) H) as [H1 H2].
    repeat split; assumption.
  - exists (replay chipErase_events w).
    split; [apply chipErase_emits|]. rewrite hw_replay, rx_replay.
    destruct (chipErase_run (hw w) H) as [H1 H2].
    repeat split; assumption.
Qed.

Lemma sequencer_keeps_window_witness :
  captured (hw bench) = true
  /\ exists w',
       chipErase bench = Done tt w'
       /\ captured (hw w') = true /\ released_buses (hw w') = true
       /\ rx w' = rx bench.
Proof.
  split; [reflexivity|].
  apply (proj2 (sequencer_keeps_window 0 [] bench eq_refl)).
Defined.

Lemma handed_over_bits m :
  configured m = true -> handed_over m = true ->
  bit_of FLASH_CE (DDRD m) = false /\ bit_of FLASH_OE (DDRD m) = true
  /\ bit_of FLASH_WE (DDRD m) = true /\ bit_of BUFFER_OE (DDRD m) = true
  /\ bit_of FLASH_CE (PORTD m) = false /\ bit_of FLASH_OE (PORTD m) = false
  /\ bit_of FLASH_WE (PORTD m) = true /\ bit_of BUFFER_OE (PORTD m) = false
  /\ DDRA m = 0 /\ DDRB m = 0 /\ DDRC m = 0.
Proof.
  unfold configured, handed_over, external_owns, asserted, driven.
  intros Hc H. revert Hc.
  destruct (bit_of FLASH_CE (DDRD m)), (bit_of FLASH_OE (DDRD m)),
    (bit_of FLASH_WE (DDRD m)), (bit_of BUFFER_OE (DDRD m)),
    (bit_of FLASH_CE (PORTD m)), (bit_of FLASH_OE (PORTD m)),
    (bit_of FLASH_WE (PORTD m)), (bit_of BUFFER_OE (PORTD m));
    cbn [andb negb] in H; try discriminate H; intros Hc; try discriminate Hc;
    rewrite ?andb_true_iff, ?Z.eqb_eq in H; intuition congruence.
Qed.

(** [captureOwnership] from a handed-over board: when chip enable
    becomes an output its latch is still low and output enable is still
    held low, so the chip is selected for reading for one step, with the
    address lines floating. *)
Lemma capture_chip_handed_over m c :
  configured m = true -> handed_over m = true ->
  chip_run captureOwnership_events m c
  = mkFlash (cells c) (mode c) (latched c) (cycles c ++ [ReadCycle None]).
Proof.
  intros Hc Hm.
  destruct (handed_over_bits m Hc Hm)
    as (H1 & H2 & H3 & H4 & H5 & H6 & H7 & H8 & H9 & H10 & H11).
  unfold captureOwnership_events. rewrite !chip_run_cons.
  cbn [flash_react chip_run].
  change (mcu_step (Call CaptureOwnership) m) with m.
  rewrite (flash_edge_quiet m) by line_fact.
  rewrite (flash_edge_read _ _ c) by line_fact.
  do 7 rewrite (flash_edge_quiet _ _ (mkFlash _ _ _ _)) by line_fact.
  unfold address_bus. step_registers. rewrite H9. reflexivity.
Qed.

Lemma capture_chip_captured m c :
  captured m = true -> chip_run captureOwnership_events m c = c.
Proof.
  intros Hm.
  destruct (captured_bits m Hm) as (H1 & H2 & H3 & H4 & H5 & H6 & H7 & H8).
  unfold captureOwnership_events. rewrite !chip_run_cons.
  cbn [flash_react chip_run].
  change (mcu_step (Call CaptureOwnership) m) with m.
  rewrite (flash_edge_quiet m) by line_fact.
  do 8 rewrite (flash_edge_quiet _ _ c) by line_fact.
  reflexivity.
Qed.

Lemma capture_read_window m :
  configured m = true -> read_window (run captureOwnership_events m) = true.
Proof.
  intros H. unfold read_window. rewrite capture_captured by exact H.
  reflexivity.
Qed.

Lemma at_rest_configured m : at_rest m = true -> configured m = true.
Proof.
  unfold at_rest. rewrite orb_true_iff, !andb_true_iff.
  intros [H|[H _]]; [apply captured_configured|]; exact H.
Qed.

Lemma capture_chip_at_rest m c :
  at_rest m = true ->
  cells (chip_run captureOwnership_events m c) = cells c
  /\ mode (chip_run captureOwnership_events m c) = mode c.
Proof.
  unfold at_rest. rewrite orb_true_iff, !andb_true_iff.
  intros [H|[Hc H]].
  - rewrite capture_chip_captured by exact H. split; reflexivity.
  - rewrite capture_chip_handed_over by assumption. split; reflexivity.
Qed.

Lemma release_chip m c :
  read_window m = true -> chip_run releaseOwnership_events m c = c.
Proof.
  intros Hm.
  destruct (read_window_bits m Hm) as (H1 & H2 & H3 & H4 & H5 & H6 & H7 & H8 & H9).
  unfold releaseOwnership_events. rewrite !chip_run_cons.
  cbn [flash_react chip_run].
  change (mcu_step (Call ReleaseOwnership) m) with m.
  rewrite (flash_edge_quiet m) by line_fact.
  do 10 rewrite (flash_edge_quiet _ _ c) by line_fact.
  reflexivity.
Qed.

Lemma release_at_rest m :
  configured m = true -> at_rest (run releaseOwnership_events m) = true.
Proof.
  intros H. unfold at_rest.
  rewrite release_configured, H, release_handed_over by exact H.
  apply orb_true_r.
Qed.

Lemma read_window_configured m : read_window m = true -> configured m = true.
Proof.
  unfold read_window. rewrite andb_true_iff. intros [H _].
  apply captured_configured, H.
Qed.

(** X14.  [captureOwnership] on a board that [releaseOwnership] handed
    over selects the chip for one step: chip enable becomes an output
    while its latch is still low and output enable is still held low, so
    the chip sees a read cycle with the address lines floating (the
    buffer is already disabled then).  The contents of the chip and its
    command state are not affected. *)
Theorem capture_after_release_selects_chip (w : board) :
  configured (hw w) = true ->
  handed_over (hw w) = true ->
  let m := run (firstn 3 captureOwnership_events) (hw w) in
  exists w',
    captureOwnership w = Done tt w'
    /\ In m (states (hw w) captureOwnership_events)
    /\ read_cycle m = true
    /\ address_bus m = None
    /\ buffer_off m = true
    /\ cycles (chip w') = cycles (chip w) ++ [ReadCycle None]
    /\ cells (chip w') = cells (chip w)
    /\ mode (chip w') = mode (chip w)
    /\ captured (hw w') = true.
Proof.
  intros Hc Hm m.
  destruct (handed_over_bits _ Hc Hm)
    as (H1 & H2 & H3 & H4 & H5 & H6 & H7 & H8 & H9 & H10 & H11).
  exists (replay captureOwnership_events w).
  split; [apply captureOwnership_emits|].
  rewrite chip_replay, hw_replay, capture_chip_handed_over by assumption.
  subst m. unfold captureOwnership_events. cbn [firstn].
  split. { cbn [states]. right. right. left. reflexivity. }
  split. { line_fact. }
  split. { unfold address_bus. step_registers. now rewrite H9. }
  split. { unfold buffer_off. line_fact. }
  split; [reflexivity|]. split; [reflexivity|]. split; [reflexivity|].
  apply (capture_captured (hw w) Hc).
Qed.

Lemma capture_after_release_selects_chip_witness :
  let w := final ((setup;; loop) (power_up zeroed "d0")) in
  let m := run (firstn 3 captureOwnership_events) (hw w) in
  configured (hw w) = true /\ handed_over (hw w) = true
  /\ exists w',
       captureOwnership w = Done tt w'
       /\ In m (states (hw w) captureOwnership_events)
       /\ read_cycle m = true
       /\ address_bus m = None
       /\ buffer_off m = true
       /\ cycles (chip w') = cycles (chip w) ++ [ReadCycle None]
       /\ cells (chip w') = cells (chip w)
       /\ mode (chip w') = mode (chip w)
       /\ captured (hw w') = true.
Proof.
  split; [reflexivity|]. split; [reflexivity|].
  apply (capture_after_release_selects_chip
           (final ((setup;; loop) (power_up zeroed "d0"))));
    reflexivity.
Defined.

(** ** Reading a byte *)

(** X15.  In a captured window with the data bus left to the chip and
    the chip ready for a command, [readByte a] returns the byte stored at
    [a]; the chip sees exactly one read cycle, at [a], and keeps its
    contents, and the routine leaves the window as it found it, with the
    address bus released and its latches cleared. *)
Theorem readByte_returns_cell (a : Z) (w : board) :
  read_window (hw w) = true ->
  is_uint16 a = true ->
  mode (chip w) = Ready ->
  exists w',
    readByte a w = Done (cells (chip w) a) w'
    /\ log w' = log w ++ readByte_events a (cells (chip w) a)
    /\ rx w' = rx w
    /\ cycles (chip w') = cycles (chip w) ++ [ReadCycle (Some a)]
    /\ cells (chip w') = cells (chip w)
    /\ read_window (hw w') = true
    /\ (DDRA (hw w'), DDRB (hw w'), PORTA (hw w'), PORTB (hw w')) = (0, 0, 0, 0).
Proof.
  intros Hm Ha Hc.
  destruct (readByte_board a w Hm Ha Hc)
    as (w' & Hr & Hm' & Hcells & _ & Hcy & Hlog & Hrx).
  exists w'. repeat split; try assumption.
  pose proof (f_equal (fun r => hw (final r)) Hr) as Hhw. cbn beta in Hhw.
  rewrite readByte_replay, !final_done, hw_replay in Hhw.
  rewrite <- Hhw. reflexivity.
Qed.

Lemma readByte_returns_cell_witness :
  read_window (hw bench) = true /\ mode (chip bench) = Ready
  /\ exists w',
       readByte 0x1234 bench = Done 0xFF w'
       /\ cycles (chip w') = [ReadCycle (Some 0x1234)]
       /\ read_window (hw w') = true.
Proof.
  split; [reflexivity|]. split; [reflexivity|].
  destruct (readByte_returns_cell 0x1234 bench eq_refl eq_refl eq_refl)
    as (w' & Hr & _ & _ & Hcy & _ & Hm & _).
  exists w'. repeat split; assumption.
Defined.

(** ** The dump command *)

Lemma printed_app es1 es2 : printed (es1 ++ es2) = printed es1 ++ printed es2.
Proof. apply omap_app. Qed.

Lemma printed_readByte a v : printed (readByte_events a v) = [].
Proof. reflexivity. Qed.

Lemma dump_step n i rowLength page w :
  dump (S n) i rowLength page w
  = match readByte (to_uint16 (page * PAGE_SIZE + i)) w with
    | Done data w1 =>
        if rowLength + 1 =? 16
        then dump n (i + 1) 0 page
               (record (SerialPrintln " ") (record (print_byte data) w1))
        else dump n (i + 1) (rowLength + 1) page (record (print_byte data) w1)
    | Blocked w1 => Blocked w1
    end.
Proof.
  cbn [dump]. unfold mbind, M_bind, bind.
  destruct (readByte _ w) as [data w1|w1]; [|reflexivity].
  unfold Serial_print, Serial_println, emit.
  destruct (rowLength + 1 =? 16); reflexivity.
Qed.

(** The loop of [dumpPage] in a read window: it prints the addressed
    cells and leaves window and chip contents as they were. *)
Lemma dump_reads page n : forall i rowLength w,
  read_window (hw w) = true -> mode (chip w) = Ready ->
  exists w' es,
    dump n i rowLength page w = Done tt w'
    /\ log w' = log w ++ es
    /\ rx w' = rx w
    /\ read_window (hw w') = true
    /\ cells (chip w') = cells (chip w)
    /\ mode (chip w') = Ready
    /\ printed es
       = dump_lines rowLength
           (map (fun j => cells (chip w) (to_uint16 (page * PAGE_SIZE + j)))
                (indices n i)).
Proof.
  induction n as [|n IH]; intros i rowLength w Hm Hc.
  - exists w, []. rewrite app_nil_r. repeat split; assumption.
  - rewrite dump_step.
    set (a := to_uint16 (page * PAGE_SIZE + i)).
    destruct (readByte_board a w Hm (to_uint16_range _) Hc)
      as (w1 & Hr & Hm1 & Hcells1 & Hc1 & _ & Hlog1 & Hrx1).
    rewrite Hr. set (v := cells (chip w) a) in *.
    cbn [indices map dump_lines]. fold a v.
    destruct (rowLength + 1 =? 16).
    + destruct (IH (i + 1) 0
                  (record (SerialPrintln " ") (record (print_byte v) w1)))
        as (w2 & es & Hd & Hlog & Hrx & Hm2 & Hcells2 & Hc2 & Hp).
      { rewrite !hw_record, mcu_step_println, mcu_step_print_byte. exact Hm1. }
      { rewrite chip_println, chip_print_byte. exact Hc1. }
      exists w2, (readByte_events a v ++ [print_byte v; SerialPrintln " "] ++ es).
      rewrite Hd, Hlog, Hrx, Hcells2, !log_record, !rx_record.
      rewrite chip_println, chip_print_byte, Hlog1, Hrx1, Hcells1, <- !app_assoc.
      repeat split; try assumption.
      rewrite !printed_app, printed_readByte, Hp.
      rewrite chip_println, chip_print_byte, Hcells1. reflexivity.
    + destruct (IH (i + 1) (rowLength + 1) (record (print_byte v) w1))
        as (w2 & es & Hd & Hlog & Hrx & Hm2 & Hcells2 & Hc2 & Hp).
      { rewrite hw_record, mcu_step_print_byte. exact Hm1. }
      { rewrite chip_print_byte. exact Hc1. }
      exists w2, (readByte_events a v ++ [print_byte v] ++ es).
      rewrite Hd, Hlog, Hrx, Hcells2, !log_record, !rx_record.
      rewrite chip_print_byte, Hlog1, Hrx1, Hcells1, <- !app_assoc.
      repeat split; try assumption.
      rewrite !printed_app, printed_readByte, Hp.
      rewrite chip_print_byte, Hcells1. reflexivity.
Qed.

Lemma dump_lines_row row : forall rowLength rest,
  row <> [] -> rowLength + Z.of_nat (length row) = 16 ->
  dump_lines rowLength (row ++ rest)
  = map print_byte row ++ SerialPrintln " " :: dump_lines 0 rest.
Proof.
  induction row as [|d row IH]; intros r rest Hne Hlen; [contradiction|].
  cbn [app dump_lines map length] in *.
  destruct row as [|d' row].
  - cbn [length] in Hlen. replace (r + 1 =? 16) with true
      by (symmetry; apply Z.eqb_eq; lia).
    reflexivity.
  - replace (r + 1 =? 16) with false.
    2: { symmetry. apply Z.eqb_neq. cbn [length] in Hlen. lia. }
    rewrite IH; [reflexivity | discriminate | lia].
Qed.

Lemma dump_lines_rows k : forall bytes,
  length bytes = (16 * k)%nat ->
  dump_lines 0 bytes = flat_map dump_row (rows_of k bytes).
Proof.
  induction k as [|k IH]; intros bytes Hlen.
  - destruct bytes; [reflexivity | discriminate].
  - cbn [rows_of flat_map]. unfold dump_row at 1.
    rewrite <- (firstn_skipn 16 bytes) at 1.
    assert (H16 : length (firstn 16 bytes) = 16%nat)
      by (rewrite length_firstn; lia).
    rewrite dump_lines_row.
    + rewrite <- app_assoc. cbn [app]. rewrite IH; [reflexivity|].
      rewrite length_skipn. lia.
    + intros H. rewrite H in H16. discriminate.
    + rewrite H16. reflexivity.
Qed.

Lemma dumpPage_at_rest page w :
  0 <= page < 256 ->
  at_rest (hw w) = true -> mode (chip w) = Ready ->
  exists w' es,
    dumpPage page w = Done tt w'
    /\ rx w' = rx w
    /\ log w' = log w ++ es
    /\ printed es
       = dump_text page (map (cells (chip w)) (page_span (page * PAGE_SIZE)))
    /\ cells (chip w') = cells (chip w)
    /\ mode (chip w') = Ready
    /\ at_rest (hw w') = true
    /\ handed_over (hw w') = true.
Proof.
  intros Hp Hrest Hc.
  unfold dumpPage, mbind, M_bind, bind. rewrite captureOwnership_emits.
  unfold Serial_print, Serial_println, emit.
  set (w1 := record _ (record _ (replay captureOwnership_events w))).
  assert (Hlog1 : log w1 = log w ++ captureOwnership_events
            ++ [SerialPrint "Reading page "; SerialPrintln (pretty page)]).
  { unfold w1. rewrite !log_record, log_replay, <- !app_assoc. reflexivity. }
  assert (Hrx1 : rx w1 = rx w).
  { unfold w1. rewrite !rx_record. apply rx_replay. }
  assert (Hhw1 : read_window (hw w1) = true).
  { unfold w1. rewrite !hw_record, mcu_step_println, mcu_step_print, hw_replay.
    apply capture_read_window, at_rest_configured, Hrest. }
  assert (Hchip1 : cells (chip w1) = cells (chip w) /\ mode (chip w1) = Ready).
  { unfold w1. rewrite chip_println, chip_print, chip_replay.
    rewrite <- Hc. apply capture_chip_at_rest, Hrest. }
  destruct Hchip1 as [Hcells1 Hmode1].
  clearbody w1.
  destruct (dump_reads page (Z.to_nat PAGE_SIZE) 0 0 w1 Hhw1 Hmode1)
    as (w2 & es & Hd & Hlog2 & Hrx2 & Hhw2 & Hcells2 & Hmode2 & Hpr).
  rewrite Hd, releaseOwnership_emits.
  eexists. exists (captureOwnership_events
            ++ ([SerialPrint "Reading page "; SerialPrintln (pretty page)]
                  ++ es ++ [SerialPrintln " "])
            ++ releaseOwnership_events).
  split; [reflexivity|].
  rewrite log_replay, hw_replay, rx_replay, chip_replay.
  rewrite log_record, rx_record, hw_record, chip_println, mcu_step_println.
  rewrite release_chip by exact Hhw2.
  rewrite Hlog2, Hrx2, Hlog1, Hrx1, Hcells2, Hcells1, Hmode2, <- !app_assoc.
  split; [reflexivity|]. split; [reflexivity|].
  split.
  { rewrite !printed_app, Hpr, Hcells1.
    rewrite dump_lines_rows with (k := 8%nat)
      by (rewrite length_map; apply length_indices).
    unfold dump_text, page_span. rewrite map_map.
    replace (map (fun j => cells (chip w) (to_uint16 (page * PAGE_SIZE + j)))
                 (indices (Z.to_nat PAGE_SIZE) 0))
      with (map (fun j => cells (chip w) (page * PAGE_SIZE + j))
                (indices (Z.to_nat PAGE_SIZE) 0)).
    - reflexivity.
    - apply map_ext_in. intros j Hj. apply in_indices in Hj.
      rewrite page_base_small; [reflexivity | exact Hp | exact Hj]. }
  split; [reflexivity|]. split; [reflexivity|].
  split; [apply release_at_rest | apply release_handed_over];
    apply read_window_configured, Hhw2.
Qed.

(** X16.  A dump command on a board at rest with the chip ready prints
    the title line and then the 128 bytes stored at page * 128 onwards,
    each as two upper-case hex digits and a space, in eight rows of
    sixteen, followed by one more line end; it leaves the contents of the
    chip unchanged and the board handed over. *)
Theorem dump_command_prints_page (c : Z) (rest : list Z) (w : board) :
  at_rest (hw w) = true ->
  mode (chip w) = Ready ->
  rx w = chr "d" :: c :: rest ->
  let page := page_of c in
  exists w' es,
    loop w = Done tt w'
    /\ rx w' = rest
    /\ log w' = log w ++ ready :: es
    /\ printed es
       = dump_text page (map (cells (chip w)) (page_span (page * PAGE_SIZE)))
    /\ cells (chip w') = cells (chip w)
    /\ mode (chip w') = Ready
    /\ at_rest (hw w') = true
    /\ handed_over (hw w') = true.
Proof.
  intros Hrest Hc Hrx page.
  rewrite (loop_dump c _ w Hrx). fold page.
  destruct (dumpPage_at_rest page (set_rx rest (record ready w)))
    as (w' & es & Hd & Hrx' & Hlog & Hpr & Hcells & Hmode & Hrest' & Hover).
  { apply page_of_range. }
  { rewrite hw_set_rx, hw_record, mcu_step_ready. exact Hrest. }
  { rewrite chip_set_rx, chip_ready. exact Hc. }
  exists w', es. rewrite Hd, Hrx', Hlog, Hpr, Hcells.
  rewrite rx_set_rx, log_set_rx, log_record, chip_set_rx, chip_ready.
  rewrite <- app_assoc.
  repeat split; assumption.
Qed.

Lemma dump_command_prints_page_witness :
  let w := booted (bytes_of "d1") in
  exists w' es,
    loop w = Done tt w'
    /\ rx w' = []
    /\ log w' = log w ++ ready :: es
    /\ printed es = dump_text 1 (replicate 128 0xFF)
    /\ cells (chip w') = cells (chip w)
    /\ mode (chip w') = Ready
    /\ at_rest (hw w') = true
    /\ handed_over (hw w') = true.
Proof.
  apply (dump_command_prints_page (chr "1") [] (booted (bytes_of "d1")));
    reflexivity.
Defined.

(** ** The page a command works on *)

Lemma bus_events_app es1 es2 :
  bus_events (es1 ++ es2) = bus_events es1 ++ bus_events es2.
Proof. apply omap_app. Qed.

Lemma bus_events_readByte a v :
  bus_events (readByte_events a v) = readByte_events a v.
Proof. reflexivity. Qed.

Lemma bus_events_capture :
  bus_events captureOwnership_events = captureOwnership_events.
Proof. reflexivity. Qed.

Lemma bus_events_release :
  bus_events releaseOwnership_events = releaseOwnership_events.
Proof. reflexivity. Qed.

(** The sample [readByte] takes in a read window is the addressed cell. *)
Lemma readByte_sample a w :
  read_window (hw w) = true -> is_uint16 a = true -> mode (chip w) = Ready ->
  PINC (replay (readByte_setup a) w) = cells (chip w) a.
Proof.
  intros Hm Ha Hc.
  destruct (readByte_setup_pins a (hw w) Hm Ha) as (Hrd & Hwe & Hab & Hdc).
  pose proof (readByte_setup_chip a (hw w) (chip w) Hm Ha Hc) as Hchip.
  unfold PINC, flash_out. rewrite hw_replay, chip_replay.
  rewrite Hdc, Hrd, Hab, Hchip. reflexivity.
Qed.

(** The chip through the events of one [readByte] in a read window,
    whatever the sample was. *)
Lemma readByte_chip a v m c :
  read_window m = true -> is_uint16 a = true -> mode c = Ready ->
  chip_run (readByte_events a v) m c
  = mkFlash (cells c) Ready (latched c) (cycles c ++ [ReadCycle (Some a)]).
Proof.
  intros Hm Ha Hc.
  destruct (readByte_setup_pins a m Hm Ha) as (Hrd & Hwe & _ & _).
  unfold readByte_events. rewrite chip_run_app.
  rewrite readByte_finish_chip by assumption.
  apply readByte_setup_chip; assumption.
Qed.

(** The loop of [dumpPage] as a sequence of events: between the prints
    it makes one [readByte] for each address in turn.  In a read window
    the bytes sampled are the addressed cells and the chip sees one read
    cycle for each address. *)
Lemma dump_replay page n : forall i rowLength w,
  let addresses :=
    map (fun j => to_uint16 (page * PAGE_SIZE + j)) (indices n i) in
  exists es vs,
    dump n i rowLength page w = Done tt (replay es w)
    /\ length vs = n
    /\ bus_events es = reads_events (combine addresses vs)
    /\ (read_window (hw w) = true -> mode (chip w) = Ready ->
        vs = map (cells (chip w)) addresses
        /\ read_window (run es (hw w)) = true
        /\ chip_run es (hw w) (chip w)
           = mkFlash (cells (chip w)) Ready (latched (chip w))
                     (cycles (chip w) ++ read_cycles addresses)).
Proof.
  induction n as [|n IH]; intros i rowLength w addresses.
  - exists [], []. split; [reflexivity|]. split; [reflexivity|].
    split; [reflexivity|]. intros Hm Hc.
    split; [reflexivity|]. split; [exact Hm|].
    subst addresses. cbn [indices map read_cycles chip_run].
    rewrite app_nil_r, <- Hc. destruct (chip w); reflexivity.
  - subst addresses. cbn [indices map].
    set (a := to_uint16 (page * PAGE_SIZE + i)).
    set (rest := map _ (indices n (i + 1))).
    rewrite dump_step, readByte_replay. cbn zeta. fold a.
    assert (Hv : read_window (hw w) = true -> mode (chip w) = Ready ->
                 PINC (replay (readByte_setup a) w) = cells (chip w) a).
    { intros Hm Hc. apply readByte_sample;
        [exact Hm | apply to_uint16_range | exact Hc]. }
    assert (Ha : is_uint16 a = true) by apply to_uint16_range.
    clearbody a. revert Hv.
    generalize (PINC (replay (readByte_setup a) w)). intros v Hv.
    set (line := if rowLength + 1 =? 16
                 then [print_byte v; SerialPrintln " "] else [print_byte v]).
    set (next := if rowLength + 1 =? 16 then 0 else rowLength + 1).
    assert (Hline : bus_events line = [] /\ forall m c, run line m = m
                    /\ chip_run line m c = c).
    { unfold line. destruct (rowLength + 1 =? 16); repeat split. }
    destruct Hline as [Hline Hquiet].
    assert (Hstep : (if rowLength + 1 =? 16
              then dump n (i + 1) 0 page
                     (record (SerialPrintln " ")
                        (record (print_byte v) (replay (readByte_events a v) w)))
              else dump n (i + 1) (rowLength + 1) page
                     (record (print_byte v) (replay (readByte_events a v) w)))
            = dump n (i + 1) next page
                (replay (readByte_events a v ++ line) w)).
    { unfold next, line. rewrite replay_app.
      destruct (rowLength + 1 =? 16); reflexivity. }
    rewrite Hstep. clear Hstep. clearbody line next.
    destruct (IH (i + 1) next (replay (readByte_events a v ++ line) w))
      as (es & vs & Hd & Hlen & Hbus & Hwin).
    fold rest in Hbus, Hwin. clearbody rest.
    exists ((readByte_events a v ++ line) ++ es), (v :: vs).
    split. { rewrite Hd. now rewrite <- replay_app. }
    split. { cbn [length]. now rewrite Hlen. }
    split.
    { rewrite !bus_events_app, bus_events_readByte, Hbus, Hline, app_nil_r.
      reflexivity. }
    intros Hm Hc. specialize (Hv Hm Hc).
    rewrite hw_replay, chip_replay, run_app, chip_run_app in Hwin.
    destruct (Hquiet (run (readByte_events a v) (hw w))
                (chip_run (readByte_events a v) (hw w) (chip w))) as [Hq1 Hq2].
    rewrite Hq1, Hq2, readByte_chip in Hwin by assumption.
    destruct (Hwin (readByte_run a v (hw w) Hm) eq_refl) as (Hvs & Hm2 & Hc2).
    cbn [cells latched cycles] in Hvs, Hc2.
    split. { cbn [map]. now rewrite Hv, Hvs. }
    rewrite !run_app, !chip_run_app, Hq1, Hq2.
    rewrite readByte_chip by assumption.
    split; [exact Hm2|].
    rewrite run_app, Hq1, Hc2. cbn [read_cycles map]. rewrite <- app_assoc. reflexivity.
Qed.

Lemma at_rest_capture_chip m c :
  at_rest m = true ->
  chip_run captureOwnership_events m c
  = mkFlash (cells c) (mode c) (latched c)
            (cycles c ++ if captured m then [] else [ReadCycle None]).
Proof.
  unfold at_rest. intros H. destruct (captured m) eqn:Hcap.
  - rewrite capture_chip_captured, app_nil_r by exact Hcap.
    destruct c; reflexivity.
  - cbn [orb] in H. apply andb_true_iff in H as [Hc Hh].
    apply capture_chip_handed_over; assumption.
Qed.

(** [dumpPage] as the recorder and the chip see it. *)
Lemma dumpPage_reads page w :
  0 <= page < 256 ->
  let base := page * PAGE_SIZE in
  exists w' es vs,
    dumpPage page w = Done tt w'
    /\ log w' = log w ++ es
    /\ rx w' = rx w
    /\ hw w' = run es (hw w)
    /\ length vs = Z.to_nat PAGE_SIZE
    /\ bus_events es
       = captureOwnership_events
         ++ reads_events (combine (page_span base) vs)
         ++ releaseOwnership_events
    /\ (at_rest (hw w) = true -> mode (chip w) = Ready ->
        vs = map (cells (chip w)) (page_span base)
        /\ cycles (chip w')
           = cycles (chip w)
             ++ (if captured (hw w) then [] else [ReadCycle None])
             ++ read_cycles (page_span base)
        /\ cells (chip w') = cells (chip w)
        /\ mode (chip w') = Ready
        /\ handed_over (hw w') = true).
Proof.
  intros Hp base.
  assert (Hspan : map (fun j => to_uint16 (page * PAGE_SIZE + j))
                      (indices (Z.to_nat PAGE_SIZE) 0)
                  = page_span base).
  { unfold base, page_span. apply map_ext_in. intros j Hj.
    apply in_indices in Hj. apply page_base_small; [exact Hp | exact Hj]. }
  unfold dumpPage, mbind, M_bind, bind. rewrite captureOwnership_emits.
  unfold Serial_print, Serial_println, emit.
  set (title := pretty page).
  set (w1 := record _ (record _ (replay captureOwnership_events w))).
  assert (Hlog1 : log w1 = log w ++ captureOwnership_events
            ++ [SerialPrint "Reading page "; SerialPrintln title]).
  { unfold w1. rewrite !log_record, log_replay, <- !app_assoc. reflexivity. }
  assert (Hrx1 : rx w1 = rx w).
  { unfold w1. rewrite !rx_record. apply rx_replay. }
  assert (Hhw1 : hw w1 = run captureOwnership_events (hw w)).
  { unfold w1. rewrite !hw_record, mcu_step_println, mcu_step_print.
    apply hw_replay. }
  assert (Hchip1 : chip w1
                   = chip_run captureOwnership_events (hw w) (chip w)).
  { unfold w1. rewrite chip_println, chip_print. apply chip_replay. }
  clearbody w1.
  destruct (dump_replay page (Z.to_nat PAGE_SIZE) 0 0 w1)
    as (es & vs & Hd & Hlen & Hbus & Hwin).
  rewrite Hspan in Hbus, Hwin.
  rewrite Hd, releaseOwnership_emits.
  eexists. exists (captureOwnership_events
            ++ ([SerialPrint "Reading page "; SerialPrintln title]
                  ++ es ++ [SerialPrintln " "])
            ++ releaseOwnership_events), vs.
  split; [reflexivity|].
  rewrite log_replay, hw_replay, rx_replay, chip_replay.
  rewrite log_record, rx_record, hw_record, chip_println, mcu_step_println.
  rewrite log_replay, rx_replay, hw_replay, chip_replay.
  rewrite Hlog1, Hrx1, Hhw1, <- !app_assoc.
  split; [reflexivity|]. split; [reflexivity|].
  split.
  { rewrite !run_app.
    change (run [SerialPrint "Reading page "; SerialPrintln title] ?m) with m.
    change (run [SerialPrintln " "] ?m) with m. reflexivity. }
  split; [exact Hlen|].
  split.
  { rewrite !bus_events_app, bus_events_capture, bus_events_release, Hbus.
    change (bus_events [SerialPrint "Reading page "; SerialPrintln title])
      with (@nil event).
    change (bus_events [SerialPrintln " "]) with (@nil event).
    reflexivity. }
  intros Hrest Hc.
  rewrite Hhw1, Hchip1, at_rest_capture_chip in Hwin by exact Hrest.
  cbn [mode cells latched cycles] in Hwin.
  destruct (Hwin (capture_read_window _ (at_rest_configured _ Hrest)) Hc)
    as (Hvs & Hm2 & Hc2).
  rewrite Hchip1, at_rest_capture_chip by exact Hrest.
  rewrite release_chip, Hc2 by exact Hm2.
  cbn [cells mode cycles].
  split; [exact Hvs|]. split; [now rewrite <- app_assoc|].
  split; [reflexivity|]. split; [reflexivity|].
  apply release_handed_over, read_window_configured, Hm2.
Qed.

Lemma calls_bus_events es : calls (bus_events es) = calls es.
Proof.
  induction es as [|e es IH]; [reflexivity|].
  change (e :: es) with ([e] ++ es).
  rewrite bus_events_app, !calls_app, IH.
  destruct e; reflexivity.
Qed.

Lemma calls_reads addresses : forall vs,
  length vs = length addresses ->
  calls (reads_events (combine addresses vs)) = map ReadByte addresses.
Proof.
  induction addresses as [|a addresses IH]; intros vs Hlen; [reflexivity|].
  destruct vs as [|v vs]; [discriminate|].
  cbn [combine reads_events flat_map fst snd map].
  rewrite calls_app. fold (reads_events (combine addresses vs)).
  rewrite IH by (cbn [length] in Hlen; lia). reflexivity.
Qed.

Lemma length_page_span base : length (page_span base) = Z.to_nat PAGE_SIZE.
Proof. unfold page_span. now rewrite length_map, length_indices. Qed.

(** C6.  The page character [c] selects page [p = c - '0'] (as a byte);
    a completed write command hands [writePage] the base address
    [p * 128] and writes the 128 consecutive addresses from there.  A
    dump command works on the same 128 addresses: between
    [captureOwnership] and [releaseOwnership] its register stores,
    samples and delays are those of one [readByte] for each of the
    addresses [p * 128 .. p * 128 + 127] in turn and nothing else, and on
    a board at rest with the chip ready the chip sees a read cycle at
    each of these addresses, in this order, and the bytes sampled are the
    cells stored there. *)
Theorem page_base_address (c : Z) (w : board) :
  let p := page_of c in
  let base := p * PAGE_SIZE in
  (forall pairs tail rest,
      complete_input pairs tail ->
      rx w = chr "w" :: c :: hex_chars pairs ++ tail ++ rest ->
      exists w',
        loop w = Done tt w'
        /\ rx w' = rest
        /\ log w' = log w ++ ready :: captureOwnership_events
                          ++ writePageHex_events p (padded pairs)
        /\ calls (writePageHex_events p (padded pairs))
           = WritePage base (padded pairs)
             :: writeByte_calls (page_unlock ++ page_data base (padded pairs))
             ++ [ReleaseOwnership]
        /\ map fst (page_data base (padded pairs)) = page_span base
        /\ map snd (page_data base (padded pairs)) = padded pairs)
  /\ (forall rest,
      rx w = chr "d" :: c :: rest ->
      exists w' es vs,
        loop w = Done tt w'
        /\ rx w' = rest
        /\ log w' = log w ++ ready :: es
        /\ calls es
           = CaptureOwnership :: map ReadByte (page_span base)
             ++ [ReleaseOwnership]
        /\ hw w' = run es (hw w)
        /\ length vs = Z.to_nat PAGE_SIZE
        /\ bus_events es
           = captureOwnership_events
             ++ reads_events (combine (page_span base) vs)
             ++ releaseOwnership_events
        /\ (at_rest (hw w) = true -> mode (chip w) = Ready ->
            vs = map (cells (chip w)) (page_span base)
            /\ cycles (chip w')
               = cycles (chip w)
                 ++ (if captured (hw w) then [] else [ReadCycle None])
                 ++ read_cycles (page_span base)
            /\ cells (chip w') = cells (chip w))).
Proof.
  intros p base. pose proof (page_of_range c) as Hp. fold p in Hp.
  split.
  - intros pairs tail rest Hin Hrx.
    rewrite (loop_write c _ w Hrx). fold p.
    rewrite (writePageHex_complete p pairs tail rest) by (exact Hin || reflexivity).
    eexists. split; [reflexivity|].
    rewrite rx_replay, log_replay. cbn [set_rx rx log].
    rewrite log_replay. cbn [set_rx record log]. rewrite <- !app_assoc.
    split; [reflexivity|]. split; [reflexivity|].
    rewrite calls_writePageHex, page_base_uint16 by exact Hp. fold base.
    split; [reflexivity|].
    split; [apply page_data_span, Hp|].
    apply page_data_bytes. destruct Hin as [_ [[Hlen _]|[Hlen _]]].
    + apply length_padded. lia.
    + apply length_padded. lia.
  - intros rest Hrx. rewrite (loop_dump c _ w Hrx). fold p.
    destruct (dumpPage_reads p (set_rx rest (record ready w)) Hp)
      as (w' & es & vs & Hd & Hlog & Hrx' & Hhw & Hlen & Hbus & Hchip).
    fold base in Hbus, Hchip.
    exists w', es, vs. rewrite Hd, Hlog, Hrx', Hhw.
    rewrite rx_set_rx, log_set_rx, hw_set_rx, log_record, hw_record.
    rewrite mcu_step_ready, <- app_assoc.
    rewrite hw_set_rx, hw_record, mcu_step_ready, chip_set_rx, chip_ready
      in Hchip.
    split; [reflexivity|]. split; [reflexivity|]. split; [reflexivity|].
    split.
    { rewrite <- calls_bus_events, Hbus, !calls_app, calls_reads
        by (rewrite Hlen; symmetry; apply length_page_span).
      reflexivity. }
    split; [reflexivity|]. split; [exact Hlen|]. split; [exact Hbus|].
    intros Hrest Hc. destruct (Hchip Hrest Hc) as (H1 & H2 & H3 & _).
    repeat split; assumption.
Qed.

Lemma page_base_address_scenario :
  (let w0 := final (setup (reset (bytes_of "w3DEADBEEF*"))) in
   let image := [0xDE; 0xAD; 0xBE; 0xEF] ++ zeros 124 in
   exists w',
     loop w0 = Done tt w'
     /\ rx w' = []
     /\ log w' = log w0 ++ ready :: captureOwnership_events
                        ++ writePageHex_events 3 image
     /\ calls (writePageHex_events 3 image)
        = WritePage 0x0180 image
          :: writeByte_calls (page_unlock ++ page_data 0x0180 image)
          ++ [ReleaseOwnership]
     /\ map fst (page_data 0x0180 image) = page_span 0x0180
     /\ map snd (page_data 0x0180 image) = image)
  /\ (let w0 := final (setup (reset (bytes_of "d3"))) in
      exists w' es,
        loop w0 = Done tt w'
        /\ rx w' = []
        /\ log w' = log w0 ++ ready :: es
        /\ bus_events es
           = captureOwnership_events
             ++ reads_events (combine (page_span 0x0180) (replicate 128 0xFF))
             ++ releaseOwnership_events
        /\ cycles (chip w') = read_cycles (page_span 0x0180)).
Proof.
  split.
  - apply (proj1 (page_base_address (chr "3")
                    (final (setup (reset (bytes_of "w3DEADBEEF*")))))
                 [(chr "D", chr "E"); (chr "A", chr "D");
                  (chr "B", chr "E"); (chr "E", chr "F")]
                 [chr "*"] []).
    + split.
      * repeat constructor.
      * left. split; [vm_compute; lia | now left].
    + reflexivity.
  - destruct (proj2 (page_base_address (chr "3")
                       (final (setup (reset (bytes_of "d3"))))) [] eq_refl)
      as (w' & es & vs & Hl & Hrx & Hlog & _ & _ & _ & Hbus & Hchip).
    destruct (Hchip eq_refl eq_refl) as (Hvs & Hcy & _).
    exists w', es. split; [exact Hl|]. split; [exact Hrx|].
    split; [exact Hlog|]. split; [|exact Hcy].
    rewrite Hbus, Hvs. reflexivity.
Defined.

(** ** The write command *)

Lemma padded_bytes pairs : Forall (fun d => is_byte d = true) (padded pairs).
Proof.
  unfold padded, decoded, zeros. apply Forall_app. split.
  - apply Forall_map, Forall_forall. intros p _. apply to_byte_range.
  - apply Forall_replicate. reflexivity.
Qed.

Lemma complete_input_length pairs tail :
  complete_input pairs tail -> length (padded pairs) = Z.to_nat PAGE_SIZE.
Proof.
  intros [_ [[H _]|[H _]]]; apply length_padded; lia.
Qed.

(** The chip after the events of [writePageHex] that follow the
    collection, entered in a captured window. *)
Lemma writePageHex_chip page buffer m c :
  captured m = true -> mode c = Ready ->
  chip_run (writePageHex_events page buffer) m c
  = mkFlash (program (loaded_bytes (page_data (to_uint16 (page * PAGE_SIZE)) buffer))
                     (cells c))
            Ready None
            (cycles c ++ write_cycles
               (page_unlock ++ page_data (to_uint16 (page * PAGE_SIZE)) buffer)).
Proof.
  intros Hm Hc. unfold writePageHex_events.
  rewrite !chip_run_cons, mcu_step_print, mcu_step_println.
  change (flash_react (SerialPrint "Writing page ") m m c) with c.
  change (flash_react (SerialPrintln (pretty page)) m m c) with c.
  rewrite chip_run_app, writePage_chip by assumption.
  apply release_chip.
  destruct (writePage_run (to_uint16 (page * PAGE_SIZE)) buffer m Hm) as [H1 H2].
  unfold read_window. rewrite H1. unfold released_buses in H2.
  rewrite !andb_true_iff in H2. tauto.
Qed.

Lemma writePageHex_at_rest page buffer m :
  captured m = true -> at_rest (run (writePageHex_events page buffer) m) = true.
Proof.
  intros Hm. unfold writePageHex_events.
  rewrite run_cons, mcu_step_print, run_cons, mcu_step_println, run_app.
  apply release_at_rest, captured_configured.
  exact (proj1 (writePage_run (to_uint16 (page * PAGE_SIZE)) buffer m Hm)).
Qed.

(** A completed write command on a board at rest. *)
Lemma loop_write_at_rest c pairs tail rest w :
  at_rest (hw w) = true -> mode (chip w) = Ready ->
  complete_input pairs tail ->
  rx w = chr "w" :: c :: hex_chars pairs ++ tail ++ rest ->
  exists w',
    loop w = Done tt w'
    /\ rx w' = rest
    /\ cells (chip w')
       = program (loaded_bytes (page_data (page_of c * PAGE_SIZE) (padded pairs)))
                 (cells (chip w))
    /\ mode (chip w') = Ready
    /\ at_rest (hw w') = true
    /\ handed_over (hw w') = true.
Proof.
  intros Hrest Hc Hin Hrx.
  destruct (loop_write_complete c pairs tail rest w Hin Hrx)
    as (w' & Hl & Hrx' & _ & Hhw & Hchip).
  exists w'. split; [exact Hl|]. split; [exact Hrx'|].
  pose proof (capture_captured (hw w) (at_rest_configured _ Hrest)) as Hcap.
  destruct (capture_chip_at_rest (hw w) (chip w) Hrest) as [Hcells1 Hmode1].
  rewrite Hc in Hmode1.
  rewrite Hhw, Hchip, run_app, chip_run_app.
  rewrite writePageHex_chip by assumption.
  rewrite page_base_uint16 by apply page_of_range.
  cbn [cells mode]. rewrite Hcells1.
  split; [reflexivity|]. split; [reflexivity|].
  split; [apply writePageHex_at_rest | apply writePageHex_handover];
    exact Hcap.
Qed.

(** X17.  A completed write command on a board at rest with the chip
    ready leaves the decoded bytes, zero-padded to 128, in the cells
    page * 128 .. page * 128 + 127, every other cell as it was, the chip
    ready and the board handed over. *)
Theorem write_command_programs_page (c : Z) (pairs : list (Z * Z))
    (tail rest : list Z) (w : board) :
  at_rest (hw w) = true ->
  mode (chip w) = Ready ->
  complete_input pairs tail ->
  rx w = chr "w" :: c :: hex_chars pairs ++ tail ++ rest ->
  let base := page_of c * PAGE_SIZE in
  exists w',
    loop w = Done tt w'
    /\ rx w' = rest
    /\ map (cells (chip w')) (page_span base) = padded pairs
    /\ (forall x, ~ In x (page_span base) ->
          cells (chip w') x = cells (chip w) x)
    /\ mode (chip w') = Ready
    /\ at_rest (hw w') = true
    /\ handed_over (hw w') = true.
Proof.
  intros Hrest Hc Hin Hrx base.
  destruct (loop_write_at_rest c pairs tail rest w Hrest Hc Hin Hrx)
    as (w' & Hl & Hrx' & Hcells & Hmode & Hrest' & Hover).
  destruct (page_of_base c) as [H0 H1].
  destruct (program_page base (padded pairs) (cells (chip w)) H0 H1
              (complete_input_length pairs tail Hin) (padded_bytes pairs))
    as [Hread Hother].
  exists w'. fold base in Hcells. rewrite Hcells.
  repeat split; assumption.
Qed.

Lemma write_command_programs_page_witness :
  let w := booted (bytes_of "w3DEADBEEF*") in
  exists w',
    loop w = Done tt w'
    /\ rx w' = []
    /\ map (cells (chip w')) (page_span 0x0180)
       = [0xDE; 0xAD; 0xBE; 0xEF] ++ zeros 124
    /\ (forall x, ~ In x (page_span 0x0180) ->
          cells (chip w') x = cells (chip w) x)
    /\ mode (chip w') = Ready
    /\ at_rest (hw w') = true
    /\ handed_over (hw w') = true.
Proof.
  apply (write_command_programs_page (chr "3")
           [(chr "D", chr "E"); (chr "A", chr "D");
            (chr "B", chr "E"); (chr "E", chr "F")]
           [chr "*"] [] (booted (bytes_of "w3DEADBEEF*"))).
  - reflexivity.
  - reflexivity.
  - split; [repeat constructor|].
    left. split; [vm_compute; lia | now left].
  - reflexivity.
Defined.

(** X18.  On a board at rest with the chip ready, a write command
    followed by a dump command of the same page prints the bytes that
    were sent, zero-padded to 128: the dump shows what the write
    stored. *)
Theorem write_then_dump (c : Z) (pairs : list (Z * Z))
    (tail rest : list Z) (w : board) :
  at_rest (hw w) = true ->
  mode (chip w) = Ready ->
  complete_input pairs tail ->
  rx w = chr "w" :: c :: hex_chars pairs ++ tail ++ chr "d" :: c :: rest ->
  exists w1 w2 es,
    loop w = Done tt w1
    /\ loop w1 = Done tt w2
    /\ rx w2 = rest
    /\ log w2 = log w1 ++ ready :: es
    /\ printed es = dump_text (page_of c) (padded pairs)
    /\ at_rest (hw w2) = true.
Proof.
  intros Hrest Hc Hin Hrx.
  destruct (loop_write_at_rest c pairs tail _ w Hrest Hc Hin Hrx)
    as (w1 & Hl1 & Hrx1 & Hcells1 & Hmode1 & Hrest1 & _).
  destruct (page_of_base c) as [H0 H1].
  destruct (program_page _ (padded pairs) (cells (chip w)) H0 H1
              (complete_input_length pairs tail Hin) (padded_bytes pairs))
    as [Hread _].
  rewrite <- Hcells1 in Hread.
  pose proof (loop_dump c rest w1 Hrx1) as Hl2.
  destruct (dumpPage_at_rest (page_of c) (set_rx rest (record ready w1)))
    as (w2 & es & Hd & Hrx2 & Hlog & Hpr & _ & _ & Hrest2 & _).
  { apply page_of_range. }
  { rewrite hw_set_rx, hw_record, mcu_step_ready. exact Hrest1. }
  { rewrite chip_set_rx, chip_ready. exact Hmode1. }
  exists w1, w2, es. rewrite Hl2, Hd, Hrx2, Hlog, Hpr.
  rewrite rx_set_rx, log_set_rx, log_record, chip_set_rx, chip_ready, Hread.
  rewrite <- app_assoc.
  repeat split; assumption.
Qed.

Lemma write_then_dump_witness :
  let w := booted (bytes_of "w3DEADBEEF*d3") in
  exists w1 w2 es,
    loop w = Done tt w1
    /\ loop w1 = Done tt w2
    /\ rx w2 = []
    /\ log w2 = log w1 ++ ready :: es
    /\ printed es = dump_text 3 ([0xDE; 0xAD; 0xBE; 0xEF] ++ zeros 124)
    /\ at_rest (hw w2) = true.
Proof.
  apply (write_then_dump (chr "3")
           [(chr "D", chr "E"); (chr "A", chr "D");
            (chr "B", chr "E"); (chr "E", chr "F")]
           [chr "*"] [] (booted (bytes_of "w3DEADBEEF*d3"))).
  - reflexivity.
  - reflexivity.
  - split; [repeat constructor|].
    left. split; [vm_compute; lia | now left].
  - reflexivity.
Defined.

(** ** Invariants of whole commands *)

Lemma keeps_app P es1 es2 : keeps P es1 -> keeps P es2 -> keeps P (es1 ++ es2).
Proof.
  intros H1 H2 m Hm. destruct (H1 m Hm) as [Ha Hb].
  destruct (H2 _ Hb) as [Hc Hd].
  rewrite states_app, run_app. split; [|exact Hd].
  apply Forall_app. split; assumption.
Qed.

Lemma keeps_nil P : keeps P [].
Proof. intros m H. split; [constructor | exact H]. Qed.

Lemma keeps_quiet P e : (forall m, mcu_step e m = m) -> keeps P [e].
Proof.
  intros He m H. cbn [states run fold_left]. rewrite He.
  split; [repeat constructor|]; exact H.
Qed.

(** A predicate that implies another along an event list. *)
Lemma keeps_weaken (P Q : mcu -> bool) es m :
  (forall m, P m = true -> Q m = true) -> keeps P es -> P m = true ->
  Forall (fun m' => Q m' = true) (states m es).
Proof.
  intros HPQ Hk Hm. destruct (Hk m Hm) as [H _].
  apply (List.Forall_impl _ HPQ H).
Qed.

Ltac keeps_list :=
  intros m H; unfold isolated, buffer_off, asserted, driven in *;
  split; [cbn [states]; each_state ltac:(revert H; decide_bits)
         | revert H; decide_bits].

Lemma buffer_off_isolated m : buffer_off m = true -> isolated m = true.
Proof. unfold isolated. now intros ->. Qed.

Lemma keeps_off_writeByte a d : keeps buffer_off (writeByte_events a d).
Proof. unfold writeByte_events. keeps_list. Qed.

Lemma keeps_off_readByte a v : keeps buffer_off (readByte_events a v).
Proof.
  unfold readByte_events, readByte_setup, readByte_finish. cbn [app].
  keeps_list.
Qed.

Lemma keeps_off_buses_out : keeps buffer_off buses_out.
Proof. unfold buses_out. keeps_list. Qed.

Lemma keeps_off_buses_release : keeps buffer_off buses_release.
Proof. unfold buses_release. keeps_list. Qed.

Lemma keeps_off_writeBytes ws : keeps buffer_off (writeBytes_events ws).
Proof.
  induction ws as [|[a d] ws IH]; [apply keeps_nil|].
  apply (keeps_app _ (writeByte_events a d));
    [apply keeps_off_writeByte | exact IH].
Qed.

Lemma keeps_off_writePage a src : keeps buffer_off (writePage_events a src).
Proof.
  unfold writePage_events.
  apply (keeps_app _ [_]); [apply keeps_quiet; reflexivity|].
  apply keeps_app; [apply keeps_off_buses_out|].
  apply keeps_app; [apply keeps_off_writeBytes|].
  apply keeps_app; [apply keeps_off_writeBytes|].
  apply (keeps_app _ [_]); [apply keeps_quiet; reflexivity|].
  apply keeps_off_buses_release.
Qed.

Ltac decide_lines :=
  bits; split_bits;
  repeat match goal with
  | |- context [?r ?m =? 0] => is_var m; destruct (r m =? 0)
  end;
  cbn; first [reflexivity | intros; congruence].

Ltac keeps_isolated_list :=
  intros m H; unfold isolated, buffer_off, asserted, driven in *;
  split; [cbn [states]; each_state ltac:(revert H; decide_lines)
         | revert H; decide_lines].

Lemma keeps_isolated_capture : keeps isolated captureOwnership_events.
Proof. unfold captureOwnership_events. keeps_isolated_list. Qed.

Lemma keeps_isolated_release : keeps isolated releaseOwnership_events.
Proof. unfold releaseOwnership_events. keeps_isolated_list. Qed.

Lemma capture_buffer_off m : buffer_off (run captureOwnership_events m) = true.
Proof.
  unfold captureOwnership_events, buffer_off, asserted, driven. decide_bits.
Qed.

(** The loop of [dumpPage] keeps what every [readByte] keeps. *)
Lemma dump_keeps (P : mcu -> bool) page :
  (forall a v, keeps P (readByte_events a v)) ->
  forall n i rowLength w,
    P (hw w) = true ->
    exists w' es,
      dump n i rowLength page w = Done tt w'
      /\ log w' = log w ++ es
      /\ rx w' = rx w
      /\ hw w' = run es (hw w)
      /\ Forall (fun m => P m = true) (states (hw w) es)
      /\ P (hw w') = true.
Proof.
  intros Hread. induction n as [|n IH]; intros i rowLength w Hw.
  - exists w, []. rewrite app_nil_r. repeat split; [constructor | exact Hw].
  - rewrite dump_step, readByte_replay. cbn zeta.
    set (a := to_uint16 (page * PAGE_SIZE + i)).
    set (v := PINC (replay (readByte_setup a) w)).
    set (w1 := replay (readByte_events a v) w).
    destruct (Hread a v (hw w) Hw) as [Hs1 Hp1].
    assert (Hhw1 : hw w1 = run (readByte_events a v) (hw w))
      by apply hw_replay.
    assert (Hlog1 : log w1 = log w ++ readByte_events a v) by apply log_replay.
    assert (Hrx1 : rx w1 = rx w) by apply rx_replay.
    clearbody w1. rewrite <- Hhw1 in Hp1.
    destruct (rowLength + 1 =? 16).
    + assert (Hq : hw (record (SerialPrintln " ") (record (print_byte v) w1))
                   = hw w1) by reflexivity.
      destruct (IH (i + 1) 0
                  (record (SerialPrintln " ") (record (print_byte v) w1)))
        as (w2 & es & Hd & Hlog & Hrx & Hhw & Hs & Hp).
      { rewrite Hq. exact Hp1. }
      exists w2, (readByte_events a v ++ [print_byte v; SerialPrintln " "] ++ es).
      rewrite Hq in Hhw, Hs. rewrite Hhw1 in Hhw, Hs, Hp1.
      rewrite Hd, Hlog, Hrx, Hhw, !log_record, !rx_record.
      rewrite Hlog1, Hrx1, <- !app_assoc, !run_app, !states_app.
      split; [reflexivity|]. split; [reflexivity|]. split; [reflexivity|].
      split; [reflexivity|]. split; [|rewrite Hhw in Hp; exact Hp].
      apply Forall_app. split; [exact Hs1|].
      apply Forall_app. split; [repeat constructor; exact Hp1 | exact Hs].
    + assert (Hq : hw (record (print_byte v) w1) = hw w1) by reflexivity.
      destruct (IH (i + 1) (rowLength + 1) (record (print_byte v) w1))
        as (w2 & es & Hd & Hlog & Hrx & Hhw & Hs & Hp).
      { rewrite Hq. exact Hp1. }
      exists w2, (readByte_events a v ++ [print_byte v] ++ es).
      rewrite Hq in Hhw, Hs. rewrite Hhw1 in Hhw, Hs, Hp1.
      rewrite Hd, Hlog, Hrx, Hhw, !log_record, !rx_record.
      rewrite Hlog1, Hrx1, <- !app_assoc, !run_app, !states_app.
      split; [reflexivity|]. split; [reflexivity|]. split; [reflexivity|].
      split; [reflexivity|]. split; [|rewrite Hhw in Hp; exact Hp].
      apply Forall_app. split; [exact Hs1|].
      apply Forall_app. split; [repeat constructor; exact Hp1 | exact Hs].
Qed.

Section CommandInvariant.
(** [P] is to hold in every state of a write or dump command; [Q] is
    what holds in addition between capture and release. *)
Variables P Q : mcu -> bool.
Hypothesis Q_P : forall m, Q m = true -> P m = true.
Hypothesis capture_P : keeps P captureOwnership_events.
Hypothesis capture_Q :
  forall m, P m = true -> Q (run captureOwnership_events m) = true.
Hypothesis writePage_Q : forall a src, keeps Q (writePage_events a src).
Hypothesis readByte_Q : forall a v, keeps Q (readByte_events a v).
Hypothesis release_P : keeps P releaseOwnership_events.

Lemma writePageHex_keeps page buffer m :
  Q m = true ->
  Forall (fun m' => P m' = true) (states m (writePageHex_events page buffer)).
Proof.
  intros Hm. unfold writePageHex_events.
  change (SerialPrint ?a :: SerialPrintln ?b :: ?l)
    with ([SerialPrint a; SerialPrintln b] ++ l).
  rewrite !states_app.
  destruct (writePage_Q (to_uint16 (page * PAGE_SIZE)) buffer m Hm) as [H1 H2].
  apply Forall_app. split; [repeat constructor; apply Q_P, Hm|].
  apply Forall_app. split.
  - apply (List.Forall_impl _ Q_P H1).
  - apply release_P, Q_P. exact H2.
Qed.

Lemma write_command_keeps c pairs tail rest w :
  P (hw w) = true ->
  complete_input pairs tail ->
  rx w = chr "w" :: c :: hex_chars pairs ++ tail ++ rest ->
  exists w' es,
    loop w = Done tt w'
    /\ log w' = log w ++ es
    /\ hw w' = run es (hw w)
    /\ Forall (fun m => P m = true) (states (hw w) es).
Proof.
  intros Hw Hin Hrx.
  destruct (loop_write_complete c pairs tail rest w Hin Hrx)
    as (w' & Hl & _ & Hlog & Hhw & _).
  exists w', (ready :: captureOwnership_events
                ++ writePageHex_events (page_of c) (padded pairs)).
  split; [exact Hl|]. split; [exact Hlog|]. split; [exact Hhw|].
  change (ready :: ?l) with ([ready] ++ l). rewrite !states_app.
  apply Forall_app. split; [repeat constructor; exact Hw|].
  apply Forall_app. split; [apply capture_P, Hw|].
  apply writePageHex_keeps, capture_Q, Hw.
Qed.

Lemma dump_command_keeps c rest w :
  P (hw w) = true ->
  rx w = chr "d" :: c :: rest ->
  exists w' es,
    loop w = Done tt w'
    /\ log w' = log w ++ es
    /\ hw w' = run es (hw w)
    /\ Forall (fun m => P m = true) (states (hw w) es).
Proof.
  intros Hw Hrx. rewrite (loop_dump c rest w Hrx).
  unfold dumpPage, mbind, M_bind, bind. rewrite captureOwnership_emits.
  unfold Serial_print, Serial_println, emit.
  set (title := pretty (page_of c)).
  set (w1 := record _ (record _ (replay captureOwnership_events _))).
  assert (Hlog1 : log w1 = log w ++ ready :: captureOwnership_events
            ++ [SerialPrint "Reading page "; SerialPrintln title]).
  { unfold w1. rewrite !log_record, log_replay, log_set_rx, log_record.
    rewrite <- !app_assoc. reflexivity. }
  assert (Hhw1 : hw w1 = run captureOwnership_events (hw w)).
  { unfold w1. rewrite !hw_record, mcu_step_println, mcu_step_print.
    rewrite hw_replay, hw_set_rx, hw_record, mcu_step_ready. reflexivity. }
  clearbody w1.
  assert (HQ1 : Q (hw w1) = true) by (rewrite Hhw1; apply capture_Q, Hw).
  destruct (dump_keeps Q (page_of c) readByte_Q (Z.to_nat PAGE_SIZE) 0 0 w1 HQ1)
    as (w2 & es & Hd & Hlog2 & _ & Hhw2 & Hs2 & HQ2).
  rewrite Hd, releaseOwnership_emits.
  eexists. exists (ready :: captureOwnership_events
            ++ ([SerialPrint "Reading page "; SerialPrintln title]
                  ++ es ++ [SerialPrintln " "])
            ++ releaseOwnership_events).
  split; [reflexivity|].
  rewrite log_replay, hw_replay, log_record, hw_record, mcu_step_println.
  rewrite Hlog2, Hhw2, Hlog1, Hhw1, <- !app_assoc.
  split; [reflexivity|].
  change (ready :: ?l) with ([ready] ++ l).
  rewrite !run_app, !states_app.
  change (run [ready] (hw w)) with (hw w).
  change (run [SerialPrint "Reading page "; SerialPrintln title] ?m) with m.
  change (run [SerialPrintln " "] ?m) with m.
  split; [reflexivity|].
  rewrite Hhw1 in HQ1, Hs2. rewrite Hhw2, Hhw1 in HQ2.
  apply Forall_app. split; [repeat constructor; exact Hw|].
  apply Forall_app. split; [apply capture_P, Hw|].
  apply Forall_app. split; [repeat constructor; apply Q_P, HQ1|].
  apply Forall_app. split; [apply (List.Forall_impl _ Q_P Hs2)|].
  apply Forall_app. split; [repeat constructor; apply Q_P, HQ2|].
  apply release_P, Q_P, HQ2.
Qed.
End CommandInvariant.

(** X19.  During a completed write command and during a dump command
    the controller never drives chip enable, the address bus or the data
    bus while the external buffer is enabled, provided that was so when
    the command started: the buffer is disabled first and enabled last. *)
Theorem commands_keep_bus_isolated (c : Z) (w : board) :
  isolated (hw w) = true ->
  (forall pairs tail rest,
      complete_input pairs tail ->
      rx w = chr "w" :: c :: hex_chars pairs ++ tail ++ rest ->
      exists w' es,
        loop w = Done tt w'
        /\ log w' = log w ++ es
        /\ hw w' = run es (hw w)
        /\ Forall (fun m => isolated m = true) (states (hw w) es))
  /\ (forall rest,
      rx w = chr "d" :: c :: rest ->
      exists w' es,
        loop w = Done tt w'
        /\ log w' = log w ++ es
        /\ hw w' = run es (hw w)
        /\ Forall (fun m => isolated m = true) (states (hw w) es)).
Proof.
  intros Hw.
  assert (Hcap : forall m, isolated m = true ->
                   buffer_off (run captureOwnership_events m) = true)
    by (intros m _; apply capture_buffer_off).
  split.
  - intros pairs tail rest.
    apply (write_command_keeps isolated buffer_off buffer_off_isolated
             keeps_isolated_capture Hcap keeps_off_writePage
             keeps_isolated_release c pairs tail rest w Hw).
  - intros rest.
    apply (dump_command_keeps isolated buffer_off buffer_off_isolated
             keeps_isolated_capture Hcap keeps_off_readByte
             keeps_isolated_release c rest w Hw).
Qed.

Lemma commands_keep_bus_isolated_witness :
  let w := booted (bytes_of "d0") in
  isolated (hw w) = true
  /\ exists w' es,
       loop w = Done tt w'
       /\ log w' = log w ++ es
       /\ hw w' = run es (hw w)
       /\ Forall (fun m => isolated m = true) (states (hw w) es).
Proof.
  split; [reflexivity|].
  apply (proj2 (commands_keep_bus_isolated (chr "0") (booted (bytes_of "d0"))
                  eq_refl) []).
  reflexivity.
Defined.

(** X20.  During a completed write command and during a dump command,
    prints and serial reads included, output enable and write enable are
    never asserted together, provided they were not when the command
    started. *)
Theorem commands_keep_oe_we_apart (c : Z) (w : board) :
  safe (hw w) = true ->
  (forall pairs tail rest,
      complete_input pairs tail ->
      rx w = chr "w" :: c :: hex_chars pairs ++ tail ++ rest ->
      exists w' es,
        loop w = Done tt w'
        /\ log w' = log w ++ es
        /\ hw w' = run es (hw w)
        /\ Forall (fun m => safe m = true) (states (hw w) es))
  /\ (forall rest,
      rx w = chr "d" :: c :: rest ->
      exists w' es,
        loop w = Done tt w'
        /\ log w' = log w ++ es
        /\ hw w' = run es (hw w)
        /\ Forall (fun m => safe m = true) (states (hw w) es)).
Proof.
  intros Hw.
  assert (Hcap : forall m, safe m = true ->
                   safe (run captureOwnership_events m) = true)
    by (intros m Hm; apply (keeps_safe_capture m Hm)).
  split.
  - intros pairs tail rest.
    apply (write_command_keeps safe safe (fun m H => H)
             keeps_safe_capture Hcap keeps_safe_writePage
             keeps_safe_release c pairs tail rest w Hw).
  - intros rest.
    apply (dump_command_keeps safe safe (fun m H => H)
             keeps_safe_capture Hcap keeps_safe_readByte
             keeps_safe_release c rest w Hw).
Qed.

Lemma commands_keep_oe_we_apart_witness :
  let w := booted (bytes_of "w3DEADBEEF*") in
  safe (hw w) = true
  /\ exists w' es,
       loop w = Done tt w'
       /\ log w' = log w ++ es
       /\ hw w' = run es (hw w)
       /\ Forall (fun m => safe m = true) (states (hw w) es).
Proof.
  split; [reflexivity|].
  apply (proj1 (commands_keep_oe_we_apart (chr "3")
                  (booted (bytes_of "w3DEADBEEF*")) eq_refl)
           [(chr "D", chr "E"); (chr "A", chr "D");
            (chr "B", chr "E"); (chr "E", chr "F")]
           [chr "*"] []).
  - split; [repeat constructor|].
    left. split; [vm_compute; lia | now left].
  - reflexivity.
Defined.

Ltac keeps_idle_list :=
  intros m H; unfold write_idle, asserted, driven in *;
  split; [cbn [states]; each_state ltac:(revert H; decide_bits)
         | revert H; decide_bits].

Lemma keeps_idle_capture : keeps write_idle captureOwnership_events.
Proof. unfold captureOwnership_events. keeps_idle_list. Qed.

Lemma keeps_idle_release : keeps write_idle releaseOwnership_events.
Proof. unfold releaseOwnership_events. keeps_idle_list. Qed.

Lemma keeps_idle_readByte a v : keeps write_idle (readByte_events a v).
Proof.
  unfold readByte_events, readByte_setup, readByte_finish. cbn [app].
  keeps_idle_list.
Qed.

Lemma write_idle_no_cycle m : write_idle m = true -> write_cycle m = false.
Proof.
  unfold write_idle, write_cycle. intros H. apply negb_true_iff in H.
  rewrite H. now rewrite andb_false_r.
Qed.

(** X24.  A dump command never asserts write enable, provided it was not
    asserted when the command started: in no state of the command does
    the controller present a write cycle to the chip. *)
Theorem dump_never_asserts_write_enable (c : Z) (rest : list Z) (w : board) :
  write_idle (hw w) = true ->
  rx w = chr "d" :: c :: rest ->
  exists w' es,
    loop w = Done tt w'
    /\ log w' = log w ++ es
    /\ hw w' = run es (hw w)
    /\ Forall (fun m => write_idle m = true) (states (hw w) es)
    /\ Forall (fun m => write_cycle m = false) (states (hw w) es).
Proof.
  intros Hw Hrx.
  assert (Hcap : forall m, write_idle m = true ->
                   write_idle (run captureOwnership_events m) = true)
    by (intros m Hm; apply (keeps_idle_capture m Hm)).
  destruct (dump_command_keeps write_idle write_idle (fun m H => H)
              keeps_idle_capture Hcap keeps_idle_readByte
              keeps_idle_release c rest w Hw Hrx)
    as (w' & es & Hl & Hlog & Hhw & Hs).
  exists w', es. repeat split; try assumption.
  apply (List.Forall_impl _ write_idle_no_cycle Hs).
Qed.

Lemma dump_never_asserts_write_enable_witness :
  let w := booted (bytes_of "d7") in
  write_idle (hw w) = true
  /\ exists w' es,
       loop w = Done tt w'
       /\ log w' = log w ++ es
       /\ hw w' = run es (hw w)
       /\ Forall (fun m => write_idle m = true) (states (hw w) es)
       /\ Forall (fun m => write_cycle m = false) (states (hw w) es).
Proof.
  split; [reflexivity|].
  apply (dump_never_asserts_write_enable (chr "7") [] (booted (bytes_of "d7")));
    reflexivity.
Defined.

Lemma direction_kept e m :
  sets_direction e = false -> DDRD (mcu_step e m) = DDRD m.
Proof.
  destruct e as [f|r v|r v|r v| | | | | |]; try reflexivity;
    destruct r; (discriminate || reflexivity).
Qed.

Lemma direction_DDRD m m' : DDRD m' = DDRD m -> direction m' = direction m.
Proof. unfold direction, driven. now intros ->. Qed.

Lemma direction_configured m m' :
  direction m' = direction m -> configured m' = configured m.
Proof. unfold direction, configured. intros H. injection H as -> -> ->. reflexivity. Qed.

Lemma capture_direction m :
  direction (run captureOwnership_events m) = direction m.
Proof.
  unfold captureOwnership_events, direction, driven. bits.
  now rewrite ?orb_false_r, ?andb_true_r.
Qed.

Lemma release_direction m :
  direction (run releaseOwnership_events m) = direction m.
Proof.
  unfold releaseOwnership_events, direction, driven. bits.
  now rewrite ?orb_false_r, ?andb_true_r.
Qed.

Lemma run_DDRD es : forall m,
  forallb (fun e => negb (sets_direction e)) es = true ->
  DDRD (run es m) = DDRD m.
Proof.
  induction es as [|e es IH]; intros m Hes; [reflexivity|].
  cbn [forallb] in Hes. apply andb_true_iff in Hes as [He Hes].
  apply negb_true_iff in He.
  rewrite run_cons, IH by exact Hes. apply direction_kept, He.
Qed.

Lemma writeBytes_no_direction ws :
  forallb (fun e => negb (sets_direction e)) (writeBytes_events ws) = true.
Proof.
  induction ws as [|[a d] ws IH]; [reflexivity|].
  change (writeBytes_events ((a, d) :: ws))
    with (writeByte_events a d ++ writeBytes_events ws).
  rewrite forallb_app, IH. reflexivity.
Qed.

Lemma writePage_DDRD a src m : DDRD (run (writePage_events a src) m) = DDRD m.
Proof.
  apply run_DDRD. unfold writePage_events.
  cbn [forallb]. rewrite !forallb_app, !writeBytes_no_direction. reflexivity.
Qed.

Lemma writePageHex_direction_events page buffer m :
  direction (run (writePageHex_events page buffer) m) = direction m.
Proof.
  unfold writePageHex_events.
  rewrite run_cons, mcu_step_print, run_cons, mcu_step_println, run_app.
  rewrite release_direction. apply direction_DDRD, writePage_DDRD.
Qed.

Lemma collect_hw fuel : forall i buffer w,
  hw (final (collect fuel i buffer w)) = hw w.
Proof.
  induction fuel as [|fuel IH]; intros i buffer w; [reflexivity|].
  cbn [collect]. destruct (i <? PAGE_SIZE); [|reflexivity].
  unfold mbind, M_bind, bind, readSerial.
  destruct w as [m c [|h [|l r]] lg]; cbn [rx hw chip log]; try reflexivity.
  - destruct (to_byte h =? chr "*"); reflexivity.
  - destruct (to_byte h =? chr "*"); [reflexivity|].
    cbn [rx hw chip log].
    destruct (to_byte l =? chr "*"); [reflexivity|].
    rewrite IH. reflexivity.
Qed.

Lemma writePageHex_direction page w :
  direction (hw (final (writePageHex page w))) = direction (hw w).
Proof.
  rewrite writePageHex_collect.
  pose proof (collect_hw (S (Z.to_nat PAGE_SIZE)) 0 (zeros (Z.to_nat PAGE_SIZE))
                (replay captureOwnership_events w)) as H.
  destruct (collect _ _ _ _) as [buffer w'|w']; cbn [final] in *.
  - rewrite hw_replay, writePageHex_direction_events, H, hw_replay.
    apply capture_direction.
  - rewrite H, hw_replay. apply capture_direction.
Qed.

Lemma dumpPage_direction page w :
  direction (hw (final (dumpPage page w))) = direction (hw w).
Proof.
  unfold dumpPage, mbind, M_bind, bind. rewrite captureOwnership_emits.
  unfold Serial_print, Serial_println, emit.
  set (w1 := record _ (record _ (replay captureOwnership_events w))).
  assert (Hhw1 : hw w1 = run captureOwnership_events (hw w)).
  { unfold w1.
    rewrite !hw_record, mcu_step_println, mcu_step_print. apply hw_replay. }
  clearbody w1.
  destruct (dump_calls page (Z.to_nat PAGE_SIZE) 0 0 w1)
    as (w2 & es & Hd & _ & Hdir & _ & _).
  rewrite Hd, releaseOwnership_emits, final_done.
  rewrite hw_replay, hw_record, mcu_step_println, release_direction.
  rewrite (direction_DDRD _ _ Hdir), Hhw1. apply capture_direction.
Qed.

(** X21.  No pass of [loop], completed or waiting for input, whatever
    the serial line delivers, changes the direction of output enable,
    write enable or buffer enable: a board that [setup] configured stays
    configured. *)
Theorem loop_keeps_directions (w : board) :
  direction (hw (final (loop w))) = direction (hw w)
  /\ configured (hw (final (loop w))) = configured (hw w).
Proof.
  assert (H : direction (hw (final (loop w))) = direction (hw w)).
  2: { split; [exact H | apply direction_configured, H]. }
  unfold loop, mbind, M_bind, bind, readSerial.
  destruct w as [m c [|cmd rest] lg]; cbn [rx hw chip log]; [reflexivity|].
  unfold Serial_println, emit.
  set (w0 := record _ _).
  assert (Hw0 : hw w0 = m) by reflexivity.
  assert (Hrx0 : rx w0 = rest) by reflexivity.
  clearbody w0.
  destruct (to_byte cmd =? chr "w").
  { destruct w0 as [m0 c0 r0 l0]. cbn [rx hw] in *. subst.
    destruct rest as [|p rest]; [reflexivity|].
    rewrite writePageHex_direction. reflexivity. }
  destruct (to_byte cmd =? chr "d").
  { destruct w0 as [m0 c0 r0 l0]. cbn [rx hw] in *. subst.
    destruct rest as [|p rest]; [reflexivity|].
    rewrite dumpPage_direction. reflexivity. }
  destruct (to_byte cmd =? chr "e").
  { rewrite chipErase_emits, final_done, hw_replay, Hw0.
    apply direction_DDRD, chipErase_direction. }
  destruct (to_byte cmd =? chr "?"); cbn [final]; rewrite ?hw_record, Hw0;
    reflexivity.
Qed.

(** ** The erase command, captured and handed over *)

Lemma states_DDRD es : forall m,
  forallb (fun e => negb (sets_direction e)) es = true ->
  Forall (fun m' => DDRD m' = DDRD m) (states m es).
Proof.
  induction es as [|e es IH]; intros m Hes; [constructor|].
  cbn [forallb] in Hes. apply andb_true_iff in Hes as [He Hes].
  apply negb_true_iff in He.
  pose proof (direction_kept e m He) as Hd.
  cbn [states]. constructor; [exact Hd|].
  apply (List.Forall_impl _ (fun m' H => eq_trans H Hd) (IH _ Hes)).
Qed.

Lemma chipErase_leaves_oe_high m :
  bit_of FLASH_OE (PORTD (run chipErase_events m)) = true.
Proof.
  rewrite chipErase_sequence, !run_cons.
  change (mcu_step (SerialPrintln _) (mcu_step (Call ChipErase) m)) with m.
  unfold sequence_events, buses_out, buses_release, erase_sequence,
    writeBytes_events, writeByte_events.
  cbn [flat_map app fst snd]. bits.
  now rewrite ?orb_true_r, ?andb_true_r.
Qed.

(** X22.  An erase command given while the controller holds the bus
    captured and the chip is ready makes the chip see the six command
    writes and nothing else and erases every cell to 0xFF; the command
    ends with the bus still captured, not handed to the external
    master. *)
Theorem erase_command_erases (rest : list Z) (w : board) :
  captured (hw w) = true ->
  mode (chip w) = Ready ->
  rx w = chr "e" :: rest ->
  exists w',
    loop w = Done tt w'
    /\ rx w' = rest
    /\ cells (chip w') = erased
    /\ mode (chip w') = Ready
    /\ cycles (chip w') = cycles (chip w) ++ write_cycles erase_sequence
    /\ captured (hw w') = true
    /\ external_owns (hw w') = false.
Proof.
  intros Hm Hc Hrx.
  rewrite (loop_erase rest w Hrx), chipErase_emits.
  eexists. split; [reflexivity|].
  rewrite rx_replay, hw_replay, chip_replay.
  rewrite rx_set_rx, hw_set_rx, chip_set_rx, hw_record, chip_ready, mcu_step_ready.
  rewrite chipErase_chip by assumption.
  destruct (chipErase_run (hw w) Hm) as [H1 _].
  split; [reflexivity|]. split; [reflexivity|]. split; [reflexivity|].
  split; [reflexivity|]. split; [exact H1|].
  apply captured_not_external, H1.
Qed.

Lemma erase_command_erases_witness :
  let w := final (setup (power_up zeroed "e")) in
  exists w',
    loop w = Done tt w'
    /\ rx w' = []
    /\ cells (chip w') = erased
    /\ mode (chip w') = Ready
    /\ cycles (chip w') = cycles (chip w) ++ write_cycles erase_sequence
    /\ captured (hw w') = true
    /\ external_owns (hw w') = false.
Proof.
  apply (erase_command_erases [] (final (setup (power_up zeroed "e"))));
    reflexivity.
Defined.

(** X23.  An erase command given after the bus was handed over is made
    with chip enable left an input: in no state of the command does the
    controller drive chip enable, so that the six write strobes lower
    write enable only and the selection of the chip is left to the
    external master.  On the way the controller switches the address bus
    to output while the external buffer is enabled, and the command ends
    with output enable high, so the board is no longer in the handed-over
    state. *)
Theorem erase_after_handover_leaves_ce_undriven (rest : list Z) (w : board) :
  handed_over (hw w) = true ->
  rx w = chr "e" :: rest ->
  exists w',
    loop w = Done tt w'
    /\ rx w' = rest
    /\ log w' = log w ++ ready :: chipErase_events
    /\ hw w' = run (ready :: chipErase_events) (hw w)
    /\ Forall (fun m => driven FLASH_CE m = false)
              (states (hw w) (ready :: chipErase_events))
    /\ Exists (fun m => isolated m = false)
              (states (hw w) (ready :: chipErase_events))
    /\ asserted FLASH_OE (hw w') = false
    /\ handed_over (hw w') = false.
Proof.
  intros Hm Hrx.
  destruct (handed_over_lines _ Hm) as (H1 & H2 & H3 & H4 & H5 & H6).
  rewrite (loop_erase rest w Hrx), chipErase_emits.
  eexists. split; [reflexivity|].
  rewrite rx_replay, log_replay, hw_replay.
  rewrite rx_set_rx, log_set_rx, hw_set_rx.
  rewrite log_record, hw_record, mcu_step_ready, <- app_assoc.
  split; [reflexivity|]. split; [reflexivity|]. split; [reflexivity|].
  split.
  { assert (Hes : forallb (fun e => negb (sets_direction e))
                    (ready :: chipErase_events) = true) by reflexivity.
    apply (List.Forall_impl _
             (fun m' (H : DDRD m' = DDRD (hw w)) =>
                eq_trans (f_equal (bit_of FLASH_CE) H) H1)
             (states_DDRD _ (hw w) Hes)). }
  assert (Hoe : asserted FLASH_OE (run chipErase_events (hw w)) = false).
  { unfold asserted. rewrite chipErase_leaves_oe_high. apply andb_false_r. }
  split.
  { change (ready :: chipErase_events)
      with ([ready; Call ChipErase; SerialPrintln "Erasing chip...";
             Assign rDDRA 255]
              ++ Assign rDDRB 255 :: Assign rDDRC 255
                 :: writeBytes_events erase_sequence
                 ++ Delay 50 :: buses_release).
    rewrite states_app. apply Exists_app. left.
    cbn [states]. do 3 apply Exists_cons_tl. apply Exists_cons_hd.
    rewrite mcu_step_ready.
    unfold isolated, buffer_off, asserted, driven. step_registers.
    rewrite H1, H2, H3. change (to_byte 255 =? 0) with false. reflexivity. }
  split; [exact Hoe|].
  unfold handed_over. rewrite Hoe. now rewrite andb_false_r.
Qed.

Lemma erase_after_handover_leaves_ce_undriven_witness :
  let w := final ((setup;; loop) (power_up zeroed "d0e")) in
  handed_over (hw w) = true /\ rx w = [chr "e"]
  /\ exists w',
       loop w = Done tt w'
       /\ rx w' = []
       /\ log w' = log w ++ ready :: chipErase_events
       /\ hw w' = run (ready :: chipErase_events) (hw w)
       /\ Forall (fun m => driven FLASH_CE m = false)
                 (states (hw w) (ready :: chipErase_events))
       /\ Exists (fun m => isolated m = false)
                 (states (hw w) (ready :: chipErase_events))
       /\ asserted FLASH_OE (hw w') = false
       /\ handed_over (hw w') = false.
Proof.
  split; [reflexivity|]. split; [reflexivity|].
  apply (erase_after_handover_leaves_ce_undriven []
           (final ((setup;; loop) (power_up zeroed "d0e"))));
    reflexivity.
Defined.
